(** * Doc-Analyser: the documentation normalisation pipeline of [utils/filter.py]

    A shallow embedding of [src/utils/filter.py] and proofs about it.

    Modelling conventions.
    - A Python [str] is a [string]; one character of the model is one code
      point below 256, and the character classes of Python ([str.isalpha],
      [str.isnumeric], [str.lower], and [\w], [\s], [\d] of the [re] module)
      are written out on that range.
    - A call that can raise returns a [result]; statements that follow a
      raising call are not run, as in Python.
    - [re.sub] is modelled by a backtracking matcher over the syntax tree of
      the pattern, with the order of alternatives, the greedy and lazy
      repetitions, the capturing groups and the replacement templates of the
      [re] module (as of CPython 3.7; the names in [\g<...>] as of 3.12).
      Each pattern of the source is given as its syntax tree, with the source
      text of the pattern in the comment above it.
    - [variables/sintax.py] and [utils/method.py] are not part of the sources
      at hand.  The constants of the former are the fields of the record
      [Sintax], which every function that reads one of them takes as its
      first argument; the records of the latter hold the fields that the
      module reads and writes.
    - A float is a binary64 float of Rocq, as in Python.
    - The file has three parts: the model of the module, the definitions that
      the statements use, and the properties. *)

From Stdlib Require Import List Ascii String Bool Arith Lia PrimFloat Uint63 DecimalString.
Import ListNotations.

Set Warnings "-comment-terminator-in-string".

Open Scope bool_scope.
Open Scope string_scope.
Open Scope nat_scope.

(** The type of Python strings, under the name Python gives it. *)
Abbreviation str := String.string (only parsing).

(** ** Exceptions *)

Inductive exn : Type :=
| ValueError        (* str.index: substring not found *)
| ReError           (* re.error, or the IndexError of an unknown group name:
                       a bad pattern or replacement template *)
| ZeroDivisionError.

Inductive result (A : Type) : Type :=
| Ok (a : A)
| Raise (e : exn).

Arguments Ok {A} a.
Arguments Raise {A} e.

Definition bind {A B : Type} (m : result A) (f : A -> result B) : result B :=
  match m with
  | Ok a => f a
  | Raise e => Raise e
  end.

Notation "x <- m ;; k" := (bind m (fun x => k))
  (at level 61, m at next level, right associativity).

(** [[f(x) for x in xs]] where [f] may raise: left to right, the first
    exception aborts the comprehension. *)
Fixpoint mapM {A B : Type} (f : A -> result B) (xs : list A) : result (list B) :=
  match xs with
  | [] => Ok []
  | x :: xs' => y <- f x ;; ys <- mapM f xs' ;; Ok (y :: ys)
  end.

(** ** Characters *)

Definition code (c : ascii) : nat := nat_of_ascii c.

Definition between (lo hi : nat) (c : ascii) : bool :=
  (lo <=? code c) && (code c <=? hi).

Definition is_upper_az (c : ascii) : bool := between 65 90 c.
Definition is_lower_az (c : ascii) : bool := between 97 122 c.
Definition is_ascii_letter (c : ascii) : bool := is_upper_az c || is_lower_az c.
Definition is_ascii_digit (c : ascii) : bool := between 48 57 c.
Definition is_oct_digit (c : ascii) : bool := between 48 55 c.

(** [c.isalpha()]: the letters of the range, with the feminine and masculine
    ordinal indicators (170, 186) and the micro sign (181); the
    multiplication and division signs (215, 247) are not letters. *)
Definition char_isalpha (c : ascii) : bool :=
  is_ascii_letter c
  || (code c =? 170) || (code c =? 181) || (code c =? 186)
  || between 192 214 c || between 216 246 c || between 248 255 c.

(** [c.isnumeric()]: the decimal digits, the superscripts one, two and three
    (185, 178, 179) and the vulgar fractions (188 to 190). *)
Definition char_isnumeric (c : ascii) : bool :=
  is_ascii_digit c
  || between 178 179 c || (code c =? 185) || between 188 190 c.

(** [c.isspace()], the class [\s]. *)
Definition char_isspace (c : ascii) : bool :=
  between 9 13 c || between 28 32 c || (code c =? 133) || (code c =? 160).

(** The class [\w]: alphanumeric in the sense of [str.isalnum], or the
    underscore. *)
Definition char_isword (c : ascii) : bool :=
  char_isalpha c || char_isnumeric c || (code c =? 95).

(** [c.lower()]; on this range the result is again one character. *)
Definition char_lower (c : ascii) : ascii :=
  if is_upper_az c || between 192 214 c || between 216 222 c
  then ascii_of_nat (code c + 32)
  else c.

(** ** Strings *)

Fixpoint all_chars (p : ascii -> bool) (s : str) : bool :=
  match s with
  | EmptyString => true
  | String c s' => p c && all_chars p s'
  end.

Definition nonempty (s : str) : bool :=
  match s with EmptyString => false | String _ _ => true end.

(** [s.isalpha()] and [s.isnumeric()]: false on the empty string. *)
Definition isalpha (s : str) : bool := nonempty s && all_chars char_isalpha s.
Definition isnumeric (s : str) : bool := nonempty s && all_chars char_isnumeric s.

(** [s.lower()]: on the code points of the model it works character by
    character.  (Beyond them it reads the context: a capital sigma becomes a
    final sigma at the end of a word; no such character is in the model.) *)
Fixpoint lower (s : str) : str :=
  match s with
  | EmptyString => EmptyString
  | String c s' => String (char_lower c) (lower s')
  end.

(** [s[:n]] and [s[n:]] for [n >= 0]. *)
Fixpoint take (n : nat) (s : str) : str :=
  match n, s with
  | S n', String c s' => String c (take n' s')
  | _, _ => EmptyString
  end.

Fixpoint drop (n : nat) (s : str) : str :=
  match n, s with
  | S n', String _ s' => drop n' s'
  | _, _ => s
  end.

(** [s.find(sub)]: the lowest index at which [sub] occurs in [s]. *)
Fixpoint find (sub s : str) : option nat :=
  if prefix sub s then Some 0
  else match s with
       | EmptyString => None
       | String _ s' => option_map S (find sub s')
       end.

(** [sub in s] *)
Definition contains (sub s : str) : bool :=
  match find sub s with Some _ => true | None => false end.

(** [s.index(sub)]: as [find], but raises [ValueError] when [sub] does not
    occur. *)
Definition index (s sub : str) : result nat :=
  match find sub s with
  | Some i => Ok i
  | None => Raise ValueError
  end.

(** ** [variables/sintax.py] *)

(** Modelled from the spec: the constants of [variables/sintax.py], which the
    module imports with [from variables.sintax import *] and which is not
    among the sources.  [TAGS] is the vocabulary of keywords, [PUNCTUATION]
    the punctuation symbols (one character each), the others are the
    placeholder tokens and the threshold of the sentence filter. *)
Record Sintax : Type := {
  TAGS : list str;
  PUNCTUATION : list ascii;
  HTML : str;
  REFERENCE : str;
  LINK : str;
  PATH : str;
  URL : str;
  VARIABLE : str;
  INVOCATION : str;
  DOT_INVOCATION : str;
  NUMBER : str;
  TRUE : str;
  FALSE : str;
  NULL : str;
  STABLE_REDUCTION : str;
  NEXT : str;
  NORMAL_CONCENTRATION_OF_WORDS : float
}.

(** ** class Filter *)

Module Filter.

(** [[
    def diff(s1: str, s2: str) -> str:
        left = s1.index(s2)
        return s1[:left] + s1[left + len(s2):]
    ]] *)
Definition diff (s1 s2 : str) : result str :=
  left <- index s1 s2 ;;
  Ok (take left s1 ++ drop (left + length s2) s1).

(** [[
    def isKeyWord(string) -> bool:
        for keyword in TAGS:
            if keyword in string and string.index(keyword) == 0:
                diff = Filter.diff(string, keyword)
                if len(diff) == 0 or diff.isnumeric():
                    return True
        return False
    ]]
    The loop over [TAGS] is the recursion over the list. *)
Fixpoint isKeyWord_from (tags : list str) (string : str) : result bool :=
  match tags with
  | [] => Ok false
  | keyword :: tags' =>
      if contains keyword string then
        i <- index string keyword ;;
        if i =? 0 then
          d <- diff string keyword ;;
          if (length d =? 0) || isnumeric d then Ok true
          else isKeyWord_from tags' string
        else isKeyWord_from tags' string
      else isKeyWord_from tags' string
  end.

Definition isKeyWord (cfg : Sintax) (string : str) : result bool :=
  isKeyWord_from (TAGS cfg) string.

(** [[
    def isPunctuation(string: str) -> bool:
        return string in PUNCTUATION
    ]] *)
Definition isPunctuation (cfg : Sintax) (string : str) : bool :=
  existsb (fun p => String.eqb string (String p "")) (PUNCTUATION cfg).

(** [[
    def wordsNumber(words: list) -> int:
        return len([word for word in words if Filter.isKeyWord(word) or word.isalpha()])
    ]] *)
Fixpoint wordsNumber (cfg : Sintax) (words : list str) : result nat :=
  match words with
  | [] => Ok 0
  | word :: words' =>
      kw <- isKeyWord cfg word ;;
      n <- wordsNumber cfg words' ;;
      Ok (if kw || isalpha word then S n else n)
  end.

End Filter.

(** ** The [re] module *)

Module Re.

(** *** Patterns *)

(** One item of a bracketed set, or an escape that stands for a class. *)
Inductive citem : Type :=
| ILit (c : ascii)          (* a character standing for itself *)
| IRange (lo hi : ascii)    (* lo-hi *)
| IWord                     (* \w *)
| ISpace                    (* \s *)
| IDigit.                   (* \d *)

Definition citem_match (i : citem) (c : ascii) : bool :=
  match i with
  | ILit a => Ascii.eqb a c
  | IRange lo hi => between (code lo) (code hi) c
  | IWord => char_isword c
  | ISpace => char_isspace c
  | IDigit => is_ascii_digit c
  end.

(** What matches exactly one character. *)
Inductive atom : Type :=
| One (i : citem)            (* a literal or a class escape *)
| Dot                        (* . : any character but the newline *)
| OneOf (l : list citem)     (* [...] *)
| NoneOf (l : list citem).   (* [^...] *)

Definition atom_match (a : atom) (c : ascii) : bool :=
  match a with
  | One i => citem_match i c
  | Dot => negb (code c =? 10)
  | OneOf l => existsb (fun i => citem_match i c) l
  | NoneOf l => negb (existsb (fun i => citem_match i c) l)
  end.

(** The syntax tree of a pattern.  [Rep greedy lo hi r] is [r{lo,hi}]
    ([hi = None]: no upper bound), lazy when [greedy] is false; [Group n r]
    is the capturing group number [n]. *)
Inductive regex : Type :=
| Eps
| Atom (a : atom)
| Seq (r1 r2 : regex)
| Alt (r1 r2 : regex)
| Rep (greedy : bool) (lo : nat) (hi : option nat) (r : regex)
| Group (n : nat) (r : regex).

Definition Chr (c : ascii) : regex := Atom (One (ILit c)).
Definition Star (r : regex) : regex := Rep true 0 None r.
Definition LazyStar (r : regex) : regex := Rep false 0 None r.
Definition Plus (r : regex) : regex := Rep true 1 None r.
Definition Opt (r : regex) : regex := Rep true 0 (Some 1) r.

(** A sequence of literal characters. *)
Fixpoint Str (s : str) : regex :=
  match s with
  | EmptyString => Eps
  | String c s' => Seq (Chr c) (Str s')
  end.

Fixpoint seq (rs : list regex) : regex :=
  match rs with
  | [] => Eps
  | [r] => r
  | r :: rs' => Seq r (seq rs')
  end.

Fixpoint alt (r : regex) (rs : list regex) : regex :=
  match rs with
  | [] => r
  | r' :: rs' => Alt r (alt r' rs')
  end.

(** The number of capturing groups: the highest group number. *)
Fixpoint groups (r : regex) : nat :=
  match r with
  | Eps | Atom _ => 0
  | Seq r1 r2 | Alt r1 r2 => Nat.max (groups r1) (groups r2)
  | Rep _ _ _ r1 => groups r1
  | Group n r1 => Nat.max n (groups r1)
  end.

(** *** Matching *)

(** The text captured by each group that took part in the match, the latest
    capture first. *)
Definition captures : Type := list (nat * str).

Fixpoint capture (n : nat) (caps : captures) : option str :=
  match caps with
  | [] => None
  | (m, s) :: caps' => if m =? n then Some s else capture n caps'
  end.

Definition below (hi : option nat) (count : nat) : bool :=
  match hi with
  | None => true
  | Some h => count <? h
  end.

Definition orelse {A : Type} (x : option A) (y : unit -> option A) : option A :=
  match x with
  | Some a => Some a
  | None => y tt
  end.

(** What is done with the rest of the text once a piece of the pattern has
    matched: [None] makes the matcher backtrack. *)
Definition cont : Type := str -> captures -> option (str * captures).

(** The loop of a repetition over [body], which matches the repeated
    pattern once: after [count] rounds, one more round is tried first when
    greedy, leaving the loop first when lazy.  A round beyond the lower bound
    has to consume a character, so at most [lo + length s] rounds are made
    and the [fuel] that [exec] gives the loop never runs out. *)
Fixpoint rep_loop (body : str -> captures -> cont -> option (str * captures))
    (greedy : bool) (lo : nat) (hi : option nat) (k : cont)
    (fuel count : nat) (s : str) (caps : captures) {struct fuel}
    : option (str * captures) :=
  match fuel with
  | O => None
  | S fuel' =>
      let again (_ : unit) :=
        if below hi count then
          body s caps
            (fun s' caps' =>
               if (count <? lo) || (length s' <? length s)
               then rep_loop body greedy lo hi k fuel' (S count) s' caps'
               else None)
        else None in
      let stop (_ : unit) :=
        if lo <=? count then k s caps else None in
      if greedy then orelse (again tt) stop else orelse (stop tt) again
  end.

(** The backtracking matcher: [exec r s caps k] matches [r] at the start of
    [s] and hands what is left of [s] to the continuation [k]; when [k]
    fails, the next way of matching [r] is tried, in the order of the [re]
    module: the left alternative first, then the right one; the rounds of a
    repetition as [rep_loop] orders them. *)
Fixpoint exec (r : regex) (s : str) (caps : captures) (k : cont) {struct r}
    : option (str * captures) :=
  match r with
  | Eps => k s caps
  | Atom a =>
      match s with
      | String c s' => if atom_match a c then k s' caps else None
      | EmptyString => None
      end
  | Seq r1 r2 => exec r1 s caps (fun s' caps' => exec r2 s' caps' k)
  | Alt r1 r2 => orelse (exec r1 s caps k) (fun _ => exec r2 s caps k)
  | Group n r1 =>
      exec r1 s caps
        (fun s' caps' => k s' ((n, take (length s - length s') s) :: caps'))
  | Rep greedy lo hi r1 =>
      rep_loop (exec r1) greedy lo hi k (S (lo + length s)) 0 s caps
  end.

(** One attempt at the start of [s]: the length of the match and the
    captures.  With [must_advance] an empty match is refused and the matcher
    backtracks. *)
Definition match_at (r : regex) (must_advance : bool) (s : str)
    : option (nat * captures) :=
  match exec r s []
          (fun s' caps =>
             if must_advance && (length s' =? length s) then None
             else Some (s', caps)) with
  | Some (s', caps) => Some (length s - length s', caps)
  | None => None
  end.

(** *** Replacement templates *)

Inductive titem : Type :=
| TLit (c : ascii)
| TGroup (n : nat).

Definition backslash : ascii := ascii_of_nat 92.

Definition digit_val (c : ascii) : nat := code c - 48.

(** The escapes of a template that stand for one character. *)
Definition escape (c : ascii) : option ascii :=
  match code c with
  | 97 => Some (ascii_of_nat 7)     (* \a *)
  | 98 => Some (ascii_of_nat 8)     (* \b *)
  | 102 => Some (ascii_of_nat 12)   (* \f *)
  | 110 => Some (ascii_of_nat 10)   (* \n *)
  | 114 => Some (ascii_of_nat 13)   (* \r *)
  | 116 => Some (ascii_of_nat 9)    (* \t *)
  | 118 => Some (ascii_of_nat 11)   (* \v *)
  | 92 => Some backslash            (* \\ *)
  | _ => None
  end.

Fixpoint decimal (acc : nat) (s : str) : nat :=
  match s with
  | EmptyString => acc
  | String c s' => decimal (10 * acc + digit_val c) s'
  end.

(** The group named in [\g<name>]: a number in ASCII decimal digits that is
    at most [ngroups]; no pattern of this module has a named group, so any
    other name is an error. *)
Definition group_ref (ngroups : nat) (name : str) : result titem :=
  if nonempty name && all_chars is_ascii_digit name
       && (decimal 0 name <=? ngroups)
  then Ok (TGroup (decimal 0 name))
  else Raise ReError.

Definition numbered_ref (ngroups n : nat) : result titem :=
  if n <=? ngroups then Ok (TGroup n) else Raise ReError.

(** [parse_template]: the replacement string as literals and group
    references.  [name] is [Some acc] while the name of [\g<...>] is read. *)
Fixpoint parse_template (ngroups : nat) (name : option str) (t : str)
    : result (list titem) :=
  let continue (i : result titem) (t' : str) :=
    x <- i ;; rest <- parse_template ngroups None t' ;; Ok (x :: rest) in
  match name, t with
  | Some acc, EmptyString => Raise ReError           (* missing > *)
  | Some acc, String c t' =>
      if Ascii.eqb c ">" then continue (group_ref ngroups acc) t'
      else parse_template ngroups (Some (acc ++ String c "")) t'
  | None, EmptyString => Ok []
  | None, String c t1 =>
      if negb (Ascii.eqb c backslash) then continue (Ok (TLit c)) t1
      else
        match t1 with
        | EmptyString => Raise ReError               (* bad escape (end) *)
        | String e t2 =>
            if Ascii.eqb e "g" then
              match t2 with
              | String "<" t3 => parse_template ngroups (Some "") t3
              | _ => Raise ReError                   (* missing < *)
              end
            else if Ascii.eqb e "0" then
              (* \0, \0o, \0oo: an octal escape *)
              match t2 with
              | String d1 t3 =>
                  if is_oct_digit d1 then
                    match t3 with
                    | String d2 t4 =>
                        if is_oct_digit d2 then
                          continue (Ok (TLit (ascii_of_nat
                            ((8 * digit_val d1 + digit_val d2) mod 256)))) t4
                        else continue (Ok (TLit (ascii_of_nat (digit_val d1)))) t3
                    | EmptyString =>
                        continue (Ok (TLit (ascii_of_nat (digit_val d1)))) t3
                    end
                  else continue (Ok (TLit (ascii_of_nat 0))) t2
              | EmptyString => continue (Ok (TLit (ascii_of_nat 0))) t2
              end
            else if is_ascii_digit e then
              (* \d, \dd: a group; \ooo: an octal escape *)
              match t2 with
              | String d1 t3 =>
                  if is_ascii_digit d1 then
                    match t3 with
                    | String d2 t4 =>
                        if is_oct_digit e && is_oct_digit d1 && is_oct_digit d2
                        then
                          let v := 64 * digit_val e + 8 * digit_val d1
                                   + digit_val d2 in
                          if 255 <? v then Raise ReError
                          else continue (Ok (TLit (ascii_of_nat v))) t4
                        else
                          continue (numbered_ref ngroups
                                      (10 * digit_val e + digit_val d1)) t3
                    | EmptyString =>
                        continue (numbered_ref ngroups
                                    (10 * digit_val e + digit_val d1)) t3
                    end
                  else continue (numbered_ref ngroups (digit_val e)) t2
              | EmptyString => continue (numbered_ref ngroups (digit_val e)) t2
              end
            else
              match escape e with
              | Some x => continue (Ok (TLit x)) t2
              | None =>
                  if is_ascii_letter e then Raise ReError   (* bad escape *)
                  else
                    rest <- parse_template ngroups None t2 ;;
                    Ok (TLit backslash :: TLit e :: rest)
              end
        end
  end.

(** *** [re.sub] *)

(** The text a template item stands for: group 0 is the whole match, a group
    that took no part in the match is the empty string. *)
Definition expand_item (whole : str) (caps : captures) (i : titem) : str :=
  match i with
  | TLit c => String c ""
  | TGroup 0 => whole
  | TGroup n => match capture n caps with Some s => s | None => "" end
  end.

Fixpoint expand (tmpl : list titem) (whole : str) (caps : captures) : str :=
  match tmpl with
  | [] => ""
  | i :: tmpl' => expand_item whole caps i ++ expand tmpl' whole caps
  end.

(** The scan of [re.sub]: at each position the leftmost match is replaced and
    the scan goes on behind it; [skip] counts the characters of the current
    match still to pass over.  After an empty match the same position is
    tried once more for a match that is not empty. *)
Fixpoint sub_scan (r : regex) (tmpl : list titem) (s : str) (skip : nat)
    : str :=
  match skip, s with
  | S skip', String _ s' => sub_scan r tmpl s' skip'
  | S _, EmptyString => ""
  | O, EmptyString =>
      match match_at r false "" with
      | Some (_, caps) => expand tmpl "" caps
      | None => ""
      end
  | O, String c s' =>
      match match_at r false s with
      | None => String c (sub_scan r tmpl s' 0)
      | Some (S n, caps) => expand tmpl (take (S n) s) caps ++ sub_scan r tmpl s' n
      | Some (O, caps) =>
          expand tmpl "" caps ++
          match match_at r true s with
          | Some (S n, caps') =>
              expand tmpl (take (S n) s) caps' ++ sub_scan r tmpl s' n
          | _ => String c (sub_scan r tmpl s' 0)
          end
      end
  end.

(** [re.sub(pattern, repl, string)] for a pattern given as its syntax tree.
    The template is parsed before the scan: a bad template raises whether or
    not the pattern matches. *)
Definition sub (r : regex) (repl : str) (s : str) : result str :=
  tmpl <- parse_template (groups r) None repl ;;
  Ok (sub_scan r tmpl s 0).

End Re.

(** ** String methods used by the passes *)

(** [s.replace(old, new)] for a non-empty [old]: the occurrences of [old]
    are replaced from the left, without overlap; [skip] counts the characters
    of the current occurrence still to pass over. *)
Fixpoint replace_scan (old new s : str) (skip : nat) : str :=
  match skip, s with
  | S skip', String _ s' => replace_scan old new s' skip'
  | S _, EmptyString => ""
  | O, EmptyString => ""
  | O, String c s' =>
      if prefix old s then new ++ replace_scan old new s' (length old - 1)
      else String c (replace_scan old new s' 0)
  end.

(** With an empty [old], [new] is put before every character and at the
    end. *)
Fixpoint intersperse (new s : str) : str :=
  match s with
  | EmptyString => new
  | String c s' => new ++ String c (intersperse new s')
  end.

Definition replace (s old new : str) : str :=
  match old with
  | EmptyString => intersperse new s
  | String _ _ => replace_scan old new s 0
  end.

(** [s.split(sep)] for the one-character separator [sep]: the pieces between
    the separators, empty pieces included. *)
Fixpoint split (sep : ascii) (s : str) : list str :=
  match s with
  | EmptyString => [""]
  | String c s' =>
      if Ascii.eqb c sep then "" :: split sep s'
      else match split sep s' with
           | w :: ws => String c w :: ws
           | [] => [String c ""]
           end
  end.

(** [sep.join(l)] is [String.concat sep l]; ["%d" % n] for [n >= 0]: *)
Definition str_of_nat (n : nat) : str :=
  NilEmpty.string_of_uint (Nat.to_uint n).

(** The double quote. *)
Definition dquote : ascii := ascii_of_nat 34.
Definition tab : ascii := ascii_of_nat 9.

(** ** The rewrite passes *)

Import Re.

(** The sets written in the patterns. *)
Definition az : citem := IRange "a" "z".
Definition AZ : citem := IRange "A" "Z".
Definition letter : atom := OneOf [az; AZ].               (* [a-zA-Z] *)

Section Passes.

Variable cfg : Sintax.

(** [" %s " % token] *)
Definition spaced (token : str) : str := " " ++ token ++ " ".

(** [[
    def filterStrings(string: str) -> str:
        return re.sub(PATTERN, " %s " % string, string)
    ]]
    where PATTERN is the Python literal made of: an escaped double quote,
    [.*?[^\\\]] and an escaped double quote.  Once the escapes of the literal are
    read, the pattern is a double quote, [.*?], the set [[^\\]] of the
    characters other than the backslash, and a double quote.  The
    replacement is made from [string], the text itself. *)
Definition re_strings : regex :=
  seq [Chr dquote; LazyStar (Atom Dot); Atom (NoneOf [ILit backslash]); Chr dquote].

Definition filterStrings (string : str) : result str :=
  sub re_strings (spaced string) string.

(** [[
    def filterTags(string: str) -> str:
        return re.sub("<[^>]*>", " %s " % HTML, string)
    ]] *)
Definition re_tags : regex :=
  seq [Chr "<"; Star (Atom (NoneOf [ILit ">"])); Chr ">"].

Definition filterTags (string : str) : result str :=
  sub re_tags (spaced (HTML cfg)) string.

(** [[
    def filterRefs(string: str) -> str:
        return re.sub("&\w+", " %s " % REFERENCE, string)
    ]] *)
Definition re_refs : regex := seq [Chr "&"; Plus (Atom (One IWord))].

Definition filterRefs (string : str) : result str :=
  sub re_refs (spaced (REFERENCE cfg)) string.

(** [[
    def filterLinks(string: str) -> str:
        return re.sub("(\{@|@\{)[^\}]*\}", " %s " % LINK, string)
    ]] *)
Definition re_links : regex :=
  seq [Group 1 (Alt (Str "{@") (Str "@{"));
       Star (Atom (NoneOf [ILit "}"])); Chr "}"].

Definition filterLinks (string : str) : result str :=
  sub re_links (spaced (LINK cfg)) string.

(** [[
    def filterPaths(string: str) -> str:
        return re.sub(r"(/[a-zA-Z](\w|\.|\\\s)*){2,}", " %s " % PATH, string)
    ]] *)
Definition re_paths : regex :=
  Rep true 2 None
    (Group 1 (seq [Chr "/"; Atom letter;
                   Star (Group 2 (alt (Atom (One IWord))
                                      [Chr "."; Seq (Chr backslash) (Atom (One ISpace))]))])).

Definition filterPaths (string : str) : result str :=
  sub re_paths (spaced (PATH cfg)) string.

(** [[
    def filterURLs(string: str) -> str:
        return re.sub(r"((\w+:(//|\\\\))?(\w+[\w.@]*\.[a-z]{2,3})(\w|\.|/|\\|\?|=|-)*)|(\w+:(//|\\\\))",
                      " %s " % URL, string)
    ]] *)
Definition re_scheme (n : nat) : regex :=            (* (\w+:(//|\\\\)) *)
  Group n (seq [Plus (Atom (One IWord)); Chr ":";
                Group (S n) (Alt (Str "//")
                                 (Seq (Chr backslash) (Chr backslash)))]).

Definition re_urls : regex :=
  Alt
    (Group 1
       (seq [Opt (re_scheme 2);
             Group 4 (seq [Plus (Atom (One IWord));
                           Star (Atom (OneOf [IWord; ILit "."; ILit "@"]));
                           Chr ".";
                           Rep true 2 (Some 3) (Atom (OneOf [az]))]);
             Star (Group 5 (alt (Atom (One IWord))
                                [Chr "."; Chr "/"; Chr backslash; Chr "?";
                                 Chr "="; Chr "-"]))]))
    (re_scheme 6).

Definition filterURLs (string : str) : result str :=
  sub re_urls (spaced (URL cfg)) string.

(** [[
    def filterParamNames(string: str, params: list) -> str:
        for i, param in enumerate(params):
            string = string.replace(" %s " % param, " %s%d " % (VARIABLE, i))
        return string
    ]]
    [filterParamNames_from i params] is the loop from index [i] on. *)
Fixpoint filterParamNames_from (i : nat) (string : str) (params : list str)
    : str :=
  match params with
  | [] => string
  | param :: params' =>
      filterParamNames_from (S i)
        (replace string (spaced param) (spaced (VARIABLE cfg ++ str_of_nat i)))
        params'
  end.

Definition filterParamNames (string : str) (params : list str) : str :=
  filterParamNames_from 0 string params.

(** [[
    def filterFunctionInvocation(string: str) -> str:
        space = r"(\s|\t)*"
        word = r"(\@|[a-zA-Z])\w*"
        param = r"({0}{1}{0}\=)?{0}{1}".format(space, word)
        regex = r"{0}{1}({0}\(({2}({0}\,{2})*)?\))+".format(space, word, param)
        return re.sub(regex, " %s " % INVOCATION, string)
    ]]
    Each piece takes the number of its first group; [space] and [word] hold
    one group, [param] six. *)
Definition re_space (n : nat) : regex :=
  Star (Group n (Alt (Atom (One ISpace)) (Chr tab))).

Definition re_word (n : nat) : regex :=
  Seq (Group n (Alt (Chr "@") (Atom letter))) (Star (Atom (One IWord))).

Definition re_param (n : nat) : regex :=
  seq [Opt (Group n (seq [re_space (n + 1); re_word (n + 2); re_space (n + 3);
                          Chr "="]));
       re_space (n + 4); re_word (n + 5)].

Definition re_invocation : regex :=
  seq [re_space 1; re_word 2;
       Plus (Group 3
               (seq [re_space 4; Chr "(";
                     Opt (Group 5
                            (seq [re_param 6;
                                  Star (Group 12
                                          (seq [re_space 13; Chr ","; re_param 14]))]));
                     Chr ")"]))].

Definition filterFunctionInvocation (string : str) : result str :=
  sub re_invocation (spaced (INVOCATION cfg)) string.

(** [[
    def filterDotTuple(string: str) -> str:
        space = r"(\s|\t)*"
        word = r"(\@|[a-zA-Z])\w*"
        regex = r"{0}{1}(\.{1})+".format(space, word)
        return re.sub(regex, " %s " % DOT_INVOCATION, string)
    ]] *)
Definition re_dot_tuple : regex :=
  seq [re_space 1; re_word 2; Plus (Group 3 (Seq (Chr ".") (re_word 4)))].

Definition filterDotTuple (string : str) : result str :=
  sub re_dot_tuple (spaced (DOT_INVOCATION cfg)) string.

(** [[
    def filterNumbers(string: str) -> str:
        return re.sub(r"(\+|-)?(\d+(\.|,)?\d+|\d+)", " %s " % NUMBER, string)
    ]] *)
Definition re_numbers : regex :=
  seq [Opt (Group 1 (Alt (Chr "+") (Chr "-")));
       Group 2 (Alt (seq [Plus (Atom (One IDigit));
                          Opt (Group 3 (Alt (Chr ".") (Chr ",")));
                          Plus (Atom (One IDigit))])
                    (Plus (Atom (One IDigit))))].

Definition filterNumbers (string : str) : result str :=
  sub re_numbers (spaced (NUMBER cfg)) string.

(** [[
    def filterConstants(string: str) -> str:
        string = re.sub(r"true", " %s " % TRUE, string)
        string = re.sub(r"false", " %s " % FALSE, string)
        string = re.sub(r"null", " %s " % NULL, string)
        string = re.sub(r"nil", " %s " % NULL, string)
        string = re.sub(r"none", " %s " % NULL, string)
        return string
    ]] *)
Definition filterConstants (string : str) : result str :=
  string <- sub (Str "true") (spaced (TRUE cfg)) string ;;
  string <- sub (Str "false") (spaced (FALSE cfg)) string ;;
  string <- sub (Str "null") (spaced (NULL cfg)) string ;;
  string <- sub (Str "nil") (spaced (NULL cfg)) string ;;
  string <- sub (Str "none") (spaced (NULL cfg)) string ;;
  Ok string.

(** [a / b] on two non-negative integers: the quotient as a double, or
    [ZeroDivisionError].  The operands are converted through [Uint63], which
    is exact below 2^53, far more than the number of words of a text. *)
Definition truediv (a b : nat) : result float :=
  if b =? 0 then Raise ZeroDivisionError
  else Ok (PrimFloat.of_uint63 (Uint63.of_nat a)
           / PrimFloat.of_uint63 (Uint63.of_nat b))%float.

(** [[
    def filterMeaninglessSentences(string: str) -> str:
        text = []
        sentence = []
        for ch in string:
            sentence.append(ch)
            if ch == '.' and len(sentence) > 1:
                sentence = "".join(sentence)
                words = [word for word in sentence.split(" ") if len(word) > 0]
                if (Filter.wordsNumber(words) / len(words)) > NORMAL_CONCENTRATION_OF_WORDS:
                    text.append(sentence)
                else:
                    print(sentence)
                sentence = []
        return "".join(text)
    ]]
    The state of the loop is [text], [sentence] and the lines printed so far;
    the result is the returned string with the printed lines. *)
Definition sentence_words (sentence : str) : list str :=
  filter (fun word => 0 <? length word) (split " " sentence).

Definition concentration (sentence : str) : result float :=
  let words := sentence_words sentence in
  n <- Filter.wordsNumber cfg words ;;
  truediv n (List.length words).

Fixpoint sentences_loop (string : str) (text : list str) (sentence : str)
    (printed : list str) : result (str * list str) :=
  match string with
  | EmptyString => Ok (String.concat "" text, printed)
  | String ch string' =>
      let sentence := sentence ++ String ch "" in
      if Ascii.eqb ch "." && (1 <? length sentence) then
        ratio <- concentration sentence ;;
        if (NORMAL_CONCENTRATION_OF_WORDS cfg <? ratio)%float
        then sentences_loop string' (text ++ [sentence])%list "" printed
        else sentences_loop string' text "" (printed ++ [sentence])%list
      else sentences_loop string' text sentence printed
  end.

Definition filterMeaninglessSentences (string : str) : result (str * list str) :=
  sentences_loop string [] "" [].

(** [[
    def filterStableReduction(string: str) -> str:
        return re.sub(r"([a-zA-Z])\.([a-zA-Z])\.", r" {}_\1_\2_ ".format(STABLE_REDUCTION), string)
    ]] *)
Definition re_stable_reduction : regex :=
  seq [Group 1 (Atom letter); Chr "."; Group 2 (Atom letter); Chr "."].

Definition filterStableReduction (string : str) : result str :=
  sub re_stable_reduction (" " ++ STABLE_REDUCTION cfg ++ "_\1_\2_ ") string.

(** [[
    def unpackStableReduction(string: str) -> str:
        return re.sub(r"{}_([^_]+)_([^_]+)_".format(STABLE_REDUCTION), r" \1.\2. ", string)
    ]]
    [STABLE_REDUCTION] is spliced into the pattern as pattern source.  The
    syntax tree below is the pattern for a token made of word characters,
    which stand for themselves in a pattern, as the letters and the
    underscore of a token name do; for another token ([u|x], or an opening
    parenthesis) the code reads another pattern, or raises.  The statements
    that rest on what this pattern matches assume such a token. *)
Definition re_unpack : regex :=
  seq [Str (STABLE_REDUCTION cfg); Chr "_";
       Group 1 (Plus (Atom (NoneOf [ILit "_"]))); Chr "_";
       Group 2 (Plus (Atom (NoneOf [ILit "_"]))); Chr "_"].

Definition unpackStableReduction (string : str) : result str :=
  sub re_unpack " \1.\2. " string.

(** [[
    def expandWordsAndSymbols(string: str) -> str:
        return re.sub(r"(\{})".format("|\\".join(PUNCTUATION)), r" \1 ", string)
    ]]
    The pattern is one group of alternatives, each a punctuation symbol behind
    a backslash.  The syntax tree below is the pattern for symbols that are
    neither ASCII letters nor ASCII digits, so that the escape stands for
    the symbol; behind a backslash a letter or a digit is a class, a
    reference to a group or an error.  The statements that rest on what this
    pattern matches assume such symbols.  With no symbol at all the pattern
    is an opening parenthesis, an escaped closing one and nothing else,
    which [re] refuses. *)
Definition expandWordsAndSymbols (string : str) : result str :=
  match PUNCTUATION cfg with
  | [] => Raise ReError
  | p :: ps => sub (Group 1 (alt (Chr p) (map Chr ps))) " \1 " string
  end.

(** [[
    def filterLongSpaces(string: str) -> str:
        return re.sub("(\s|\t)+", " ", string)
    ]]
    In this literal [\t] is the tab character itself. *)
Definition re_long_spaces : regex :=
  Plus (Group 1 (Alt (Atom (One ISpace)) (Chr tab))).

Definition filterLongSpaces (string : str) : result str :=
  sub re_long_spaces " " string.

(** [s[:-1]] on a non-empty string. *)
Fixpoint init (s : str) : str :=
  match s with
  | EmptyString => EmptyString
  | String c EmptyString => EmptyString
  | String c s' => String c (init s')
  end.

(** [s[-1]] on a non-empty string. *)
Fixpoint last (s : str) : option ascii :=
  match s with
  | EmptyString => None
  | String c EmptyString => Some c
  | String _ s' => last s'
  end.

(** [[
    def filterFirstAndEndSpaces(string: str) -> str:
        if len(string) == 0: return string
        string = string[1:] if (string[0] == ' ') else string
        if len(string) == 0: return string
        string = string[:-1] if (string[-1] == ' ') else string
        return string
    ]] *)
Definition filterFirstAndEndSpaces (string : str) : str :=
  if length string =? 0 then string
  else
    let string :=
      match string with
      | String " " string' => string'
      | _ => string
      end in
    if length string =? 0 then string
    else
      match last string with
      | Some " "%char => init string
      | _ => string
      end.

(** [[
    def convert(name):
        s1 = re.sub(r"(.)([A-Z][a-z]+)", r"\1_\2", name)
        return re.sub(r"([a-z0-9])([A-Z])", r"\1_\2", s1).lower()
    ]] *)
Definition re_convert1 : regex :=
  seq [Group 1 (Atom Dot);
       Group 2 (Seq (Atom (OneOf [AZ])) (Plus (Atom (OneOf [az]))))].

Definition re_convert2 : regex :=
  seq [Group 1 (Atom (OneOf [az; IRange "0" "9"])); Group 2 (Atom (OneOf [AZ]))].

Definition convert (name : str) : result str :=
  s1 <- sub re_convert1 "\1_\2" name ;;
  s2 <- sub re_convert2 "\1_\2" s1 ;;
  Ok (lower s2).

(** [[
    def applyFiltersForString(string: str, params: list) -> str:
        if len(string) == 0: return string
        string = string.lower()
        string = filterStrings(string)
        string = filterTags(string)
        string = filterRefs(string)
        string = filterLinks(string)
        string = filterStableReduction(string)
        string = filterURLs(string)
        string = filterNumbers(string)
        string = filterConstants(string)
        string = filterParamNames(string, params)
        string = filterFunctionInvocation(string)
        # string = filterDotTuple(string)
        string = expandWordsAndSymbols(string)
        # string = filterMeaninglessSentences(string)
        string = unpackStableReduction(string)
        string = filterLongSpaces(string)
        string = filterFirstAndEndSpaces(string)
        return string
    ]] *)
Definition applyFiltersForString (string : str) (params : list str) : result str :=
  if length string =? 0 then Ok string
  else
    let string := lower string in
    string <- filterStrings string ;;
    string <- filterTags string ;;
    string <- filterRefs string ;;
    string <- filterLinks string ;;
    string <- filterStableReduction string ;;
    string <- filterURLs string ;;
    string <- filterNumbers string ;;
    string <- filterConstants string ;;
    let string := filterParamNames string params in
    string <- filterFunctionInvocation string ;;
    string <- expandWordsAndSymbols string ;;
    string <- unpackStableReduction string ;;
    string <- filterLongSpaces string ;;
    Ok (filterFirstAndEndSpaces string).

End Passes.

(** ** Records of [utils/method.py] *)

(** Modelled from the spec: [utils/method.py] is not among the sources.  A
    [JavaDoc] holds the summary and the description lists the module reads
    and writes; a [Method] holds its declared parameters, each with a [name],
    and its [JavaDoc]. *)
Record JavaDoc : Type := {
  head : str;
  params : list str;
  variables : list str;
  results : list str;
  throws : list str;
  sees : list str
}.

Record Param : Type := { name : str }.

Module Description.
Record t : Type := { params : list Param }.
End Description.

Record Method : Type := {
  description : Description.t;
  javaDoc : JavaDoc
}.

(** Modelled from the spec: [JavaDoc.empty()], true iff every text field and
    every description sequence is empty. *)
Definition empty (d : JavaDoc) : bool :=
  (length (head d) =? 0)
  && (List.length (params d) =? 0) && (List.length (variables d) =? 0)
  && (List.length (results d) =? 0) && (List.length (throws d) =? 0)
  && (List.length (sees d) =? 0).

(** ** Records through the pipeline *)

Section Records.

Variable cfg : Sintax.

(** [[
    def join(javaDoc: JavaDoc) -> list:
        joined = [
            ("head", javaDoc.head),
            ("params", (" %s " % NEXT).join(javaDoc.params)),
            ("variables", (" %s " % NEXT).join(javaDoc.variables)),
            ("results", (" %s " % NEXT).join(javaDoc.results)),
        ]
        return joined
    ]] *)
Definition join (javaDoc : JavaDoc) : list (str * str) :=
  [ ("head", head javaDoc);
    ("params", String.concat (spaced (NEXT cfg)) (params javaDoc));
    ("variables", String.concat (spaced (NEXT cfg)) (variables javaDoc));
    ("results", String.concat (spaced (NEXT cfg)) (results javaDoc)) ].

(** The comprehension that builds [javaDoc.variables], from index [i] on:
    [[
    ["@variable%d %s" % (i, applyFiltersForString(convert(name).replace(r"_", " "), params))
     for i, name in enumerate(params)]
    ]] *)
Fixpoint variables_from (i : nat) (names params : list str) : result (list str) :=
  match names with
  | [] => Ok []
  | name :: names' =>
      converted <- convert name ;;
      filtered <- applyFiltersForString cfg (replace converted "_" " ") params ;;
      rest <- variables_from (S i) names' params ;;
      Ok (("@variable" ++ str_of_nat i ++ " " ++ filtered) :: rest)
  end.

(** [[
    def applyFiltersForMethod(method: Method) -> Method:
        params = [param.name for param in method.description.params]
        javaDoc = method.javaDoc  # type: JavaDoc
        javaDoc.variables = ["@variable%d %s" % (i, ...) for i, name in enumerate(params)]
        javaDoc.head = applyFiltersForString(javaDoc.head, params)
        javaDoc.params = [applyFiltersForString(param, params) for param in javaDoc.params]
        javaDoc.results = [applyFiltersForString(result, params) for result in javaDoc.results]
        javaDoc.throws = [applyFiltersForString(throw, params) for throw in javaDoc.throws]
        javaDoc.sees = [applyFiltersForString(see, params) for see in javaDoc.sees]
        method.javaDoc = javaDoc
        return method
    ]] *)
Definition applyFiltersForMethod (method : Method) : result Method :=
  let names := map name (Description.params (description method)) in
  let javaDoc := javaDoc method in
  let filtered (l : list str) :=
    mapM (fun text => applyFiltersForString cfg text names) l in
  new_variables <- variables_from 0 names names ;;
  new_head <- applyFiltersForString cfg (head javaDoc) names ;;
  new_params <- filtered (params javaDoc) ;;
  new_results <- filtered (results javaDoc) ;;
  new_throws <- filtered (throws javaDoc) ;;
  new_sees <- filtered (sees javaDoc) ;;
  Ok {| description := description method;
        javaDoc := {| head := new_head; params := new_params;
                      variables := new_variables; results := new_results;
                      throws := new_throws; sees := new_sees |} |}.

(** [[
    def isNotEmpty(method: Method) -> bool:
        return not method.javaDoc.empty()
    ]] *)
Definition isNotEmpty (method : Method) : bool := negb (empty (javaDoc method)).

(** [[
    def applyFiltersForMethods(methods: list, filtrator=isNotEmpty) -> list:
        with Pool() as pool:
            methods = pool.map(applyFiltersForMethod, methods)
            methods = [method for method in methods if filtrator(method)]
            joined = pool.map(join, (method.javaDoc for method in methods))
        return joined
    ]]
    [pool.map] returns the results in the order of its input, and raises when
    a call raised; [mapped] is its first use. *)
Definition mapped (methods : list Method) : result (list Method) :=
  mapM applyFiltersForMethod methods.

Definition applyFiltersForMethods (methods : list Method)
    (filtrator : Method -> bool) : result (list (list (str * str))) :=
  methods <- mapped methods ;;
  let methods := filter filtrator methods in
  Ok (map join (map javaDoc methods)).

End Records.

(** ** A vocabulary for the worked examples *)

(** Modelled from the spec: every token under the name the spec gives it, and
    the keywords of [TAGS] the tokens.  The spec does not list the
    punctuation symbols nor give the threshold; the examples take the
    symbols below and one half. *)
Definition tokens : list str :=
  ["HTML"; "REFERENCE"; "LINK"; "URL"; "PATH"; "NUMBER"; "TRUE"; "FALSE";
   "NULL"; "VARIABLE"; "INVOCATION"; "DOT_INVOCATION"; "STABLE_REDUCTION";
   "NEXT"].

Definition sintax : Sintax := {|
  TAGS := tokens;
  PUNCTUATION := ["."; ","; ":"; ";"; "!"; "?"; "("; ")"]%char;
  HTML := "HTML"; REFERENCE := "REFERENCE"; LINK := "LINK"; PATH := "PATH";
  URL := "URL"; VARIABLE := "VARIABLE"; INVOCATION := "INVOCATION";
  DOT_INVOCATION := "DOT_INVOCATION"; NUMBER := "NUMBER"; TRUE := "TRUE";
  FALSE := "FALSE"; NULL := "NULL"; STABLE_REDUCTION := "STABLE_REDUCTION";
  NEXT := "NEXT";
  NORMAL_CONCENTRATION_OF_WORDS := 0.5%float
|}.

(** * Definitions for the statements *)

(** ** Keywords *)

(** The keyword starts the word and what follows it is nothing or numeric. *)
Definition keyword_of (s keyword : str) : bool :=
  prefix keyword s
  && ((length (drop (length keyword) s) =? 0)
      || isnumeric (drop (length keyword) s)).

(** ** The language of a pattern *)

(** [times P n w]: [w] is made of [n] pieces, each in [P]. *)
Inductive times (P : str -> Prop) : nat -> str -> Prop :=
| times_O : times P 0 ""
| times_S (n : nat) (w1 w2 : str) :
    P w1 -> times P n w2 -> times P (S n) (w1 ++ w2).

Definition at_most (hi : option nat) (n : nat) : Prop :=
  match hi with
  | Some h => n <= h
  | None => True
  end.

(** [matches r w]: the whole of [w] is a word of the pattern [r]. *)
#[warnings="-register-all"]
Inductive matches : regex -> str -> Prop :=
| matches_eps : matches Eps ""
| matches_atom (a : atom) (c : ascii) :
    atom_match a c = true -> matches (Atom a) (String c "")
| matches_seq (r1 r2 : regex) (w1 w2 : str) :
    matches r1 w1 -> matches r2 w2 -> matches (Seq r1 r2) (w1 ++ w2)
| matches_alt_l (r1 r2 : regex) (w : str) :
    matches r1 w -> matches (Alt r1 r2) w
| matches_alt_r (r1 r2 : regex) (w : str) :
    matches r2 w -> matches (Alt r1 r2) w
| matches_group (n : nat) (r : regex) (w : str) :
    matches r w -> matches (Group n r) w
| matches_rep (greedy : bool) (lo : nat) (hi : option nat) (r : regex)
    (n : nat) (w : str) :
    times (matches r) n w -> lo <= n -> at_most hi n ->
    matches (Rep greedy lo hi r) w.

(** The continuation that accepts whatever is left. *)
Definition accept : cont := fun s caps => Some (s, caps).

(** A matcher for [r] is sound when it succeeds only on a text that starts
    with a word of [r], and with a continuation that accepted the rest. *)
Definition sound_body (r : regex)
    (body : str -> captures -> cont -> option (str * captures)) : Prop :=
  forall (s : str) (caps : captures) (k : cont) (res : str * captures),
    body s caps k = Some res ->
    exists w s' caps', s = w ++ s' /\ matches r w /\ k s' caps' = Some res.

(** A matcher that hands its continuation nothing longer than the text it
    was given: two continuations that agree on such texts give the same
    result. *)
Definition local_body
    (body : str -> captures -> cont -> option (str * captures)) : Prop :=
  forall (s : str) (caps : captures) (k1 k2 : cont),
    (forall s' caps', length s' <= length s -> k1 s' caps' = k2 s' caps') ->
    body s caps k1 = body s caps k2.

(** ** Whitespace *)

(** The number of whitespace characters that start [s]. *)
Fixpoint run (s : str) : nat :=
  match s with
  | String c s' => if char_isspace c then S (run s') else 0
  | EmptyString => 0
  end.

(** What [filterLongSpaces] computes: every run of whitespace becomes one
    space; [in_run] tells that the character before was whitespace. *)
Fixpoint collapse (in_run : bool) (s : str) : str :=
  match s with
  | EmptyString => EmptyString
  | String c s' =>
      if char_isspace c
      then if in_run then collapse true s' else String " " (collapse true s')
      else String c (collapse false s')
  end.

(** The text starts with a space. *)
Definition starts_space (s : str) : bool :=
  match s with
  | String c _ => Ascii.eqb c " "
  | EmptyString => false
  end.

(** No two spaces in a row. *)
Fixpoint single_spaced (s : str) : bool :=
  match s with
  | String c s' => negb (Ascii.eqb c " " && starts_space s') && single_spaced s'
  | EmptyString => true
  end.

(** The first step of [filterFirstAndEndSpaces]: a first space is dropped. *)
Definition strip_first (s : str) : str :=
  if starts_space s then drop 1 s else s.

(** The second step of [filterFirstAndEndSpaces]: a last space is dropped. *)
Definition strip_last (s : str) : str :=
  match last s with
  | Some c => if Ascii.eqb c " " then init s else s
  | None => s
  end.

(** ** Occurrences *)

(** [occurs starts s]: some suffix of [s], [s] included, satisfies [starts]. *)
Fixpoint occurs (starts : str -> bool) (s : str) : bool :=
  starts s
  || match s with
     | String _ s' => occurs starts s'
     | EmptyString => false
     end.

(** An abbreviation [x.y.] starts the text: a letter, a period, a letter, a
    period. *)
Definition abbreviation_at (s : str) : bool :=
  match s with
  | String a (String p (String b (String q _))) =>
      is_ascii_letter a && Ascii.eqb p "." && is_ascii_letter b && Ascii.eqb q "."
  | _ => false
  end.

Definition has_abbreviation (s : str) : bool := occurs abbreviation_at s.

(** A character other than the underscore. *)
Definition not_underscore (c : ascii) : bool := negb (Ascii.eqb c "_").

(** The number of characters other than the underscore that start [s]. *)
Fixpoint span (s : str) : nat :=
  match s with
  | String c s' => if Ascii.eqb c "_" then 0 else S (span s')
  | EmptyString => 0
  end.

(** A field of the escape placeholder starts the text: one or more characters
    other than the underscore, then an underscore; the result is what
    follows. *)
Definition field (s : str) : option str :=
  if 0 <? span s then
    match drop (span s) s with
    | String _ rest => Some rest
    | EmptyString => None
    end
  else None.

(** The escape placeholder starts the text: the token, an underscore and two
    fields. *)
Definition placeholder_at (token s : str) : bool :=
  prefix token s
  && match drop (length token) s with
     | String c s1 =>
         Ascii.eqb c "_"
         && match field s1 with
            | Some s2 => match field s2 with Some _ => true | None => false end
            | None => false
            end
     | EmptyString => false
     end.

Definition has_placeholder (cfg : Sintax) (s : str) : bool :=
  occurs (placeholder_at (STABLE_REDUCTION cfg)) s.

(** The escape pass followed by the restore pass. *)
Definition escape_restore (cfg : Sintax) (s : str) : result str :=
  escaped <- filterStableReduction cfg s ;;
  unpackStableReduction cfg escaped.

(** ** Sentences *)

(** The sentences of a text: a sentence is closed by a period that follows
    at least one character; [sentence] holds the characters read since the
    last sentence was closed.  What follows the last such period belongs to
    no sentence. *)
Fixpoint sentences_from (sentence : str) (s : str) : list str :=
  match s with
  | EmptyString => []
  | String ch s' =>
      if Ascii.eqb ch "." && (0 <? length sentence)
      then (sentence ++ String ch "") :: sentences_from "" s'
      else sentences_from (sentence ++ String ch "") s'
  end.

Definition sentences (s : str) : list str := sentences_from "" s.

Definition no_period (s : str) : bool :=
  all_chars (fun c => negb (Ascii.eqb c ".")) s.

(** A sentence under way: nothing yet, or a first character and then no
    period. *)
Definition under_way (s : str) : Prop :=
  s = "" \/ exists c body, s = String c body /\ no_period body = true.

(** A closed sentence: a first character, then no period up to the period
    that closes it. *)
Definition closed (s : str) : Prop :=
  exists c body, s = String c (body ++ ".") /\ no_period body = true.

(** The sentence passes the filter: its concentration of words is strictly
    above the threshold. *)
Definition kept (cfg : Sintax) (sentence : str) : bool :=
  match concentration cfg sentence with
  | Ok ratio => (NORMAL_CONCENTRATION_OF_WORDS cfg <? ratio)%float
  | Raise _ => false
  end.

(** A record of the worked examples, before and after the pipeline, and an
    empty one. *)
Definition example_method : Method := {|
  description :=
    {| Description.params := [ {| name := "srcFile" |}; {| name := "count" |} ] |};
  javaDoc := {| head := "Copies srcFile, count times.";
                params := ["the srcFile to read"; "how many times"];
                variables := []; results := ["true on success"];
                throws := []; sees := [] |}
|}.

Definition example_method' : Method := {|
  description := description example_method;
  javaDoc := {| head := "copies srcfile , VARIABLE1 times .";
                params := ["the srcfile to read"; "how many times"];
                variables := ["@variable0 src file"; "@variable1 count"];
                results := ["TRUE on success"];
                throws := []; sees := [] |}
|}.

Definition empty_method : Method := {|
  description := {| Description.params := [] |};
  javaDoc := {| head := ""; params := []; variables := []; results := [];
                throws := []; sees := [] |}
|}.

(** [s] between double quotes. *)
Definition quoted (s : str) : str := String dquote (s ++ String dquote "").

(** ** Templates *)

(** The template that stands for the text [s] itself. *)
Fixpoint literal (s : str) : list titem :=
  match s with
  | EmptyString => []
  | String c s' => TLit c :: literal s'
  end.

(** A text without a backslash. *)
Definition no_backslash (s : str) : bool :=
  all_chars (fun c => negb (Ascii.eqb c backslash)) s.

(** ** Texts that no pattern matches *)

(** Every character, and a test on every character. *)
Definition all_ascii : list ascii := map ascii_of_nat (List.seq 0 256).

Definition for_all_chars (p : ascii -> bool) : bool := forallb p all_ascii.

(** [avoids allowed r]: every word of [r] holds a character that is not
    [allowed]; a test on the syntax tree. *)
Fixpoint avoids (allowed : ascii -> bool) (r : regex) : bool :=
  match r with
  | Eps => false
  | Atom a => for_all_chars (fun c => negb (allowed c && atom_match a c))
  | Seq r1 r2 => avoids allowed r1 || avoids allowed r2
  | Alt r1 r2 => avoids allowed r1 && avoids allowed r2
  | Rep _ lo _ r1 => (0 <? lo) && avoids allowed r1
  | Group _ r1 => avoids allowed r1
  end.

(** ** Completeness of the matcher *)

(** A matcher for [r] is complete when it succeeds on every text that starts
    with a word of [r] whenever the continuation accepts the rest. *)
Definition complete_body (r : regex)
    (body : str -> captures -> cont -> option (str * captures)) : Prop :=
  forall (w rest : str) (caps : captures) (k : cont),
    matches r w ->
    (forall caps', k rest caps' <> None) ->
    body (w ++ rest) caps k <> None.

(** No word of [r] is empty: a test on the syntax tree. *)
Definition never_empty (r : regex) : bool := avoids (fun _ => false) r.

(** ** What whitespace collapsing keeps *)

(** The characters of [s] that are no whitespace, in order. *)
Fixpoint black (s : str) : str :=
  match s with
  | EmptyString => EmptyString
  | String c s' => if char_isspace c then black s' else String c (black s')
  end.

(** A character that is no whitespace, or the space itself. *)
Definition black_or_space (c : ascii) : bool :=
  negb (char_isspace c) || Ascii.eqb c " ".

(** ** Templates of the pipeline *)

(** A character that makes a bad escape behind a backslash in a template:
    an ASCII letter other than [a b f n r t v], which stand for a control
    character, and [g], which starts a group reference. *)
Definition bad_escape (c : ascii) : bool :=
  is_ascii_letter c && negb (Ascii.eqb c "g")
  && match escape c with Some _ => false | None => true end.

(** ** Tidy texts *)

(** The text ends with a space. *)
Definition ends_space (s : str) : bool :=
  match last s with
  | Some c => Ascii.eqb c " "
  | None => false
  end.

(** No space at either end, no two spaces in a row, and no whitespace
    character other than the space. *)
Definition tidy (s : str) : bool :=
  negb (starts_space s) && negb (ends_space s) && single_spaced s
  && all_chars black_or_space s.

(** ** The texts of a record *)

(** The names of the declared parameters of a record, and the texts of its
    documentation that [applyFiltersForMethod] hands to the pipeline. *)
Definition names_of (method : Method) : list str :=
  map name (Description.params (description method)).

Definition texts (d : JavaDoc) : list str :=
  (head d :: params d ++ results d ++ throws d ++ sees d)%list.

(** A record with a path of another system in its result description. *)
Definition failing_method : Method := {|
  description := {| Description.params := [] |};
  javaDoc := {| head := "Lists the files."; params := []; variables := [];
                results := ["the files under C:\Users"];
                throws := []; sees := [] |}
|}.

(** ** Names in snake case *)

(** A pattern without a capturing group. *)
Fixpoint group_free (r : regex) : bool :=
  match r with
  | Eps | Atom _ => true
  | Seq r1 r2 | Alt r1 r2 => group_free r1 && group_free r2
  | Rep _ _ _ r1 => group_free r1
  | Group _ _ => false
  end.

(** A matcher that hands its continuation the captures it was given. *)
Definition passes
    (body : str -> captures -> cont -> option (str * captures)) : Prop :=
  forall (s : str) (caps : captures) (k : cont) (res : str * captures),
    body s caps k = Some res ->
    exists w s', s = w ++ s' /\ k s' caps = Some res.

(** The characters of [s] other than the underscore, in order. *)
Fixpoint unscored (s : str) : str :=
  match s with
  | EmptyString => EmptyString
  | String c s' =>
      if Ascii.eqb c "_" then unscored s' else String c (unscored s')
  end.

(** No letter [A] to [Z]. *)
Definition no_upper (s : str) : bool :=
  all_chars (fun c => negb (is_upper_az c)) s.

(** ** Punctuation set apart *)

(** Every character of [s] that is among [symbols] between two spaces, the
    other characters as they are. *)
Fixpoint set_apart (symbols : list ascii) (s : str) : str :=
  match s with
  | EmptyString => EmptyString
  | String c s' =>
      if existsb (Ascii.eqb c) symbols
      then String " " (String c (String " " (set_apart symbols s')))
      else String c (set_apart symbols s')
  end.

(** The punctuation symbols, at least one, are neither ASCII letters nor
    ASCII digits: behind a backslash each stands for itself in a pattern. *)
Definition symbols_escaped (cfg : Sintax) : bool :=
  negb (List.length (PUNCTUATION cfg) =? 0)
  && forallb (fun p => negb (is_ascii_letter p || is_ascii_digit p))
       (PUNCTUATION cfg).

(** ** What a masking pass leaves behind *)

(** The text holds no character [c]. *)
Definition free_of (c : ascii) (s : str) : bool :=
  all_chars (fun a => negb (Ascii.eqb a c)) s.

(** The text holds no character of the class [key]. *)
Definition free_of_class (key : ascii -> bool) (s : str) : bool :=
  all_chars (fun a => negb (key a)) s.

(** With a closing character, the text holds it. *)
Definition closes (closer : option ascii) (tail : str) : Prop :=
  match closer with
  | Some c => free_of c tail = false
  | None => True
  end.

(** The text starts with a word of [F], behind which, when there is a
    closing character, that character occurs. *)
Definition starts_with (F : str -> Prop) (closer : option ascii) (x : str)
    : Prop :=
  exists w tail, F w /\ x = w ++ tail /\ closes closer tail.

(** A replacement that stands between two spaces and holds neither a
    character of the class [key] nor the closing character. *)
Definition masked (key : ascii -> bool) (closer : option ascii) (T : str)
    : Prop :=
  (exists t, T = " " ++ t ++ " ")
  /\ free_of_class key T = true
  /\ match closer with
     | Some c => free_of c T = true
     | None => True
     end.

(** A tag starts the text: an opening angle bracket behind which a closing
    one occurs. *)
Definition tag_at (x : str) : bool :=
  match x with
  | String c tail => Ascii.eqb c "<" && negb (free_of ">" tail)
  | EmptyString => false
  end.

(** A scheme or a dotted name starts a word: a word character and then
    either a colon and two slashes, or a period and two lowercase letters. *)
Definition url_start (w : str) : Prop :=
  (exists a,
     char_isword a = true
     /\ w = String a (String ":" (String "/" (String "/" ""))))
  \/ (exists a b c,
        char_isword a = true /\ is_lower_az b = true /\ is_lower_az c = true
        /\ w = String a (String "." (String b (String c "")))).

(** The colon and the period. *)
Definition colon_or_period (c : ascii) : bool :=
  Ascii.eqb c ":" || Ascii.eqb c ".".

(** The words that [filterConstants] replaces, in the order of its calls. *)
Definition constant_words : list str := ["true"; "false"; "null"; "nil"; "none"].

(** A name: a letter and then word characters. *)
Definition identifier (w : str) : Prop :=
  exists a u,
    is_ascii_letter a = true /\ all_chars char_isword u = true
    /\ w = String a u.

(** ** Abbreviations through the escape and restore passes *)

(** The first underscore of the text, if there is one, stands somewhere
    behind a space. *)
Fixpoint guarded (u : str) : bool :=
  match u with
  | EmptyString => true
  | String c u' =>
      if Ascii.eqb c "_" then false
      else if Ascii.eqb c " " then true
      else guarded u'
  end.

(** Every abbreviation of the text, read from the left, between two spaces
    on each side; [skip] counts the characters of the current abbreviation
    still to pass over. *)
Fixpoint set_off (skip : nat) (s : str) : str :=
  match s with
  | EmptyString => EmptyString
  | String c s' =>
      match skip with
      | S skip' => set_off skip' s'
      | O =>
          if abbreviation_at s
          then "  " ++ take 4 s ++ "  " ++ set_off 3 s'
          else String c (set_off 0 s')
      end
  end.

(** ** Vocabularies that the patterns read as written *)

(** A vocabulary on which the patterns and the templates of the module are
    those of the model: the nine tokens that enter only a replacement
    template hold no backslash; STABLE_REDUCTION, which also enters a
    pattern, is made of word characters; and the punctuation symbols, at
    least one, are neither ASCII letters nor ASCII digits. *)
Definition literal_vocabulary (cfg : Sintax) : bool :=
  forallb no_backslash
    [HTML cfg; REFERENCE cfg; LINK cfg; URL cfg; NUMBER cfg; TRUE cfg;
     FALSE cfg; NULL cfg; INVOCATION cfg]
  && all_chars char_isword (STABLE_REDUCTION cfg)
  && symbols_escaped cfg.

(** The characters of a text of words and plain paths: lowercase letters,
    slashes and spaces. *)
Definition path_text_char (c : ascii) : bool :=
  is_lower_az c || Ascii.eqb c "/" || Ascii.eqb c " ".

(** The vocabulary with another PATH token. *)
Definition with_PATH (cfg : Sintax) (token : str) : Sintax := {|
  TAGS := TAGS cfg; PUNCTUATION := PUNCTUATION cfg;
  HTML := HTML cfg; REFERENCE := REFERENCE cfg; LINK := LINK cfg;
  PATH := token; URL := URL cfg; VARIABLE := VARIABLE cfg;
  INVOCATION := INVOCATION cfg; DOT_INVOCATION := DOT_INVOCATION cfg;
  NUMBER := NUMBER cfg; TRUE := TRUE cfg; FALSE := FALSE cfg;
  NULL := NULL cfg; STABLE_REDUCTION := STABLE_REDUCTION cfg;
  NEXT := NEXT cfg;
  NORMAL_CONCENTRATION_OF_WORDS := NORMAL_CONCENTRATION_OF_WORDS cfg
|}.

(** * Properties *)

(** ** Strings *)

Lemma append_nil_r (s : str) : s ++ "" = s.
Proof. induction s as [|c s IH]; simpl; [reflexivity | now rewrite IH]. Qed.

Lemma append_assoc (s t u : str) : (s ++ t) ++ u = s ++ (t ++ u).
Proof. induction s as [|c s IH]; simpl; [reflexivity | now rewrite IH]. Qed.

Lemma length_append (s t : str) : length (s ++ t) = length s + length t.
Proof. induction s as [|c s IH]; simpl; [reflexivity | now rewrite IH]. Qed.

Lemma prefix_append (k suffix : str) : prefix k (k ++ suffix) = true.
Proof.
  induction k as [|c k IH]; simpl.
  - now destruct suffix.
  - destruct (ascii_dec c c) as [_|ne]; [exact IH | now elim ne].
Qed.

Lemma prefix_split (k s : str) :
  prefix k s = true -> exists suffix, s = k ++ suffix.
Proof.
  revert k; induction s as [|c s IH]; intros [|a k] H; simpl in H.
  - now exists "".
  - discriminate.
  - now exists (String c s).
  - destruct (ascii_dec a c) as [->|]; [|discriminate].
    destruct (IH k H) as [suffix ->]. now exists suffix.
Qed.

Lemma drop_append (k suffix : str) : drop (length k) (k ++ suffix) = suffix.
Proof. induction k as [|c k IH]; simpl; [now destruct suffix | exact IH]. Qed.

Lemma take_append (k suffix : str) : take (length k) (k ++ suffix) = k.
Proof. induction k as [|c k IH]; simpl; [now destruct suffix | now rewrite IH]. Qed.

Lemma find_unfold (k s : str) :
  find k s =
  if prefix k s then Some 0
  else match s with
       | EmptyString => None
       | String _ s' => option_map S (find k s')
       end.
Proof. now destruct s. Qed.

(** [find] returns index 0 exactly on a prefix. *)
Lemma find_zero (k s : str) : find k s = Some 0 <-> prefix k s = true.
Proof.
  rewrite find_unfold.
  destruct (prefix k s); split; try reflexivity; try discriminate.
  destruct s as [|c s]; [discriminate|]. now destruct (find k s).
Qed.

(** ** The keyword test *)

(** [diff] raises exactly when its second argument does not occur in its
    first. *)
Lemma diff_defined (s1 s2 : str) :
  Filter.diff s1 s2 =
  if contains s2 s1
  then match find s2 s1 with
       | Some i => Ok (take i s1 ++ drop (i + length s2) s1)
       | None => Raise ValueError
       end
  else Raise ValueError.
Proof.
  unfold Filter.diff, index, contains. now destruct (find s2 s1).
Qed.

(** Stripping a keyword that starts the word leaves the rest of the word. *)
Lemma diff_prefix (k suffix : str) : Filter.diff (k ++ suffix) k = Ok suffix.
Proof.
  unfold Filter.diff, index.
  assert (F : find k (k ++ suffix) = Some 0) by (apply find_zero, prefix_append).
  rewrite F. simpl. now rewrite drop_append.
Qed.

(** One turn of the loop of [isKeyWord], in terms of the prefix test. *)
Lemma isKeyWord_from_cons (keyword : str) (tags : list str) (s : str) :
  Filter.isKeyWord_from (keyword :: tags) s =
  if prefix keyword s
  then if (length (drop (length keyword) s) =? 0)
          || isnumeric (drop (length keyword) s)
       then Ok true
       else Filter.isKeyWord_from tags s
  else Filter.isKeyWord_from tags s.
Proof.
  simpl. unfold contains, index.
  destruct (find keyword s) as [i|] eqn:F.
  - simpl. destruct i as [|i]; simpl.
    + apply find_zero in F. rewrite F.
      destruct (prefix_split _ _ F) as [suffix ->].
      now rewrite diff_prefix, drop_append.
    + destruct (prefix keyword s) eqn:P; [|reflexivity].
      apply find_zero in P. congruence.
  - destruct (prefix keyword s) eqn:P; [|reflexivity].
    apply find_zero in P. congruence.
Qed.

(** The loop of [isKeyWord] returns, and returns the test of the keywords in
    their order. *)
Lemma isKeyWord_from_value (tags : list str) (s : str) :
  Filter.isKeyWord_from tags s = Ok (existsb (keyword_of s) tags).
Proof.
  induction tags as [|keyword tags IH]; [reflexivity|].
  rewrite isKeyWord_from_cons. cbn [existsb]. unfold keyword_of at 1.
  destruct (prefix keyword s); [|exact IH]. cbn [andb].
  destruct ((length (drop (length keyword) s) =? 0)
            || isnumeric (drop (length keyword) s)); [reflexivity | exact IH].
Qed.

(** C10: [isKeyWord] never raises: on every list of keywords and every
    string it returns a boolean.  [diff] raises when its second argument
    does not occur in its first ([diff_defined]), but [isKeyWord] calls it
    only on a keyword found at position 0, where it returns the rest of the
    word ([diff_prefix]). *)
Theorem isKeyWord_total (cfg : Sintax) (s : str) :
  exists b : bool, Filter.isKeyWord cfg s = Ok b.
Proof.
  unfold Filter.isKeyWord.
  induction (TAGS cfg) as [|keyword tags [b IH]].
  - now exists false.
  - rewrite isKeyWord_from_cons.
    destruct (prefix keyword s) eqn:P; [|now exists b].
    destruct (prefix_split _ _ P) as [suffix ->].
    rewrite drop_append.
    destruct ((length suffix =? 0) || isnumeric suffix);
      [now exists true | now exists b].
Qed.

Lemma length_zero (s : str) : (length s =? 0) = true <-> s = "".
Proof. destruct s; simpl; split; congruence. Qed.

Lemma isKeyWord_from_true (tags : list str) (s : str) :
  Filter.isKeyWord_from tags s = Ok true <->
  exists keyword suffix,
    In keyword tags /\ s = keyword ++ suffix
    /\ (suffix = "" \/ isnumeric suffix = true).
Proof.
  induction tags as [|keyword tags IH].
  - simpl. split; [discriminate | now intros (? & ? & [] & _)].
  - rewrite isKeyWord_from_cons. split.
    + destruct (prefix keyword s) eqn:P.
      * destruct (prefix_split _ _ P) as [suffix ->].
        rewrite drop_append.
        destruct ((length suffix =? 0) || isnumeric suffix) eqn:E.
        -- intros _. exists keyword, suffix. split; [now left|]. split; [reflexivity|].
           apply orb_true_iff in E as [E|E]; [left; now apply length_zero | now right].
        -- intros H. apply IH in H as (k & s' & I & E' & N).
           exists k, s'. split; [now right | now split].
      * intros H. apply IH in H as (k & s' & I & E' & N).
        exists k, s'. split; [now right | now split].
    + intros (k & suffix & [<-|I] & -> & N).
      * rewrite prefix_append, drop_append.
        assert (E : (length suffix =? 0) || isnumeric suffix = true).
        { apply orb_true_iff. destruct N as [->|N]; [now left | now right]. }
        now rewrite E.
      * assert (T : Filter.isKeyWord_from tags (k ++ suffix) = Ok true).
        { apply IH. now exists k, suffix. }
        rewrite T. destruct (prefix keyword (k ++ suffix)); [|reflexivity].
        now destruct ((length (drop (length keyword) (k ++ suffix)) =? 0)
                      || isnumeric (drop (length keyword) (k ++ suffix))).
Qed.

(** C6: [isKeyWord] answers true exactly on a keyword of [TAGS] followed by
    nothing or by a numeric string; the keyword has to start the word.  With
    the keywords of the spec, VARIABLE3 and VARIABLE are keywords, VARIABLEX
    is not, nor is a word that only contains a keyword. *)
Theorem isKeyWord_spec :
  (forall (cfg : Sintax) (word : str),
      Filter.isKeyWord cfg word = Ok true <->
      exists keyword suffix,
        In keyword (TAGS cfg) /\ word = keyword ++ suffix
        /\ (suffix = "" \/ isnumeric suffix = true))
  /\ Filter.isKeyWord sintax "VARIABLE3" = Ok true
  /\ Filter.isKeyWord sintax "VARIABLE" = Ok true
  /\ Filter.isKeyWord sintax "VARIABLEX" = Ok false
  /\ Filter.isKeyWord sintax "XVARIABLE3" = Ok false.
Proof.
  split; [intros cfg word; apply isKeyWord_from_true|].
  repeat split; vm_compute; reflexivity.
Qed.

(** ** The matcher accepts only words of the pattern *)

Lemma orelse_some {A : Type} (x : option A) (y : unit -> option A) (a : A) :
  orelse x y = Some a -> x = Some a \/ y tt = Some a.
Proof. destruct x; simpl; auto. Qed.

Lemma rep_loop_sound (r : regex)
    (body : str -> captures -> cont -> option (str * captures))
    (greedy : bool) (lo : nat) (hi : option nat) (k : cont) :
  sound_body r body ->
  forall (fuel count : nat) (s : str) (caps : captures) (res : str * captures),
    at_most hi count ->
    rep_loop body greedy lo hi k fuel count s caps = Some res ->
    exists n w s' caps',
      s = w ++ s' /\ times (matches r) n w /\ lo <= count + n
      /\ at_most hi (count + n) /\ k s' caps' = Some res.
Proof.
  intros B. induction fuel as [|fuel IH]; intros count s caps res A H;
    [discriminate|].
  cbn [rep_loop] in H.
  assert (C : (if below hi count then
                 body s caps
                   (fun s' caps' =>
                      if (count <? lo) || (length s' <? length s)
                      then rep_loop body greedy lo hi k fuel (S count) s' caps'
                      else None)
               else None) = Some res
              \/ (if lo <=? count then k s caps else None) = Some res).
  { destruct greedy; apply orelse_some in H; tauto. }
  clear H. destruct C as [H|H].
  - destruct (below hi count) eqn:Bl; [|discriminate].
    apply B in H as (w1 & s1 & caps1 & -> & M1 & H).
    destruct ((count <? lo) || (length s1 <? length (w1 ++ s1)));
      [|discriminate].
    apply IH in H as (n & w2 & s' & caps' & -> & T & L & A' & K).
    + exists (S n), (w1 ++ w2), s', caps'. rewrite append_assoc.
      split; [reflexivity|]. split; [now constructor|].
      replace (count + S n) with (S count + n) by lia. now split.
    + destruct hi as [h|]; [|exact I]. cbn in *.
      apply Nat.ltb_lt in Bl. lia.
  - destruct (lo <=? count) eqn:L; [|discriminate].
    apply Nat.leb_le in L. exists 0, "", s, caps.
    rewrite Nat.add_0_r. repeat split; auto. constructor.
Qed.

(** Soundness of the matcher: when [exec r s caps k] succeeds, [s] starts
    with a word of [r] and [k] accepted what follows it. *)
Lemma exec_sound (r : regex) : sound_body r (exec r).
Proof.
  induction r as [|a|r1 IH1 r2 IH2|r1 IH1 r2 IH2|greedy lo hi r IH|n r IH];
    intros s caps k res H; cbn [exec] in H.
  - exists "", s, caps. repeat split; [constructor | exact H].
  - destruct s as [|c s']; [discriminate|].
    destruct (atom_match a c) eqn:A; [|discriminate].
    exists (String c ""), s', caps. repeat split; [now constructor | exact H].
  - apply IH1 in H as (w1 & s1 & caps1 & -> & M1 & H).
    apply IH2 in H as (w2 & s2 & caps2 & -> & M2 & H).
    exists (w1 ++ w2), s2, caps2. rewrite append_assoc.
    repeat split; [now constructor | exact H].
  - apply orelse_some in H as [H|H].
    + apply IH1 in H as (w & s' & caps' & -> & M & H).
      exists w, s', caps'. repeat split; [now apply matches_alt_l | exact H].
    + apply IH2 in H as (w & s' & caps' & -> & M & H).
      exists w, s', caps'. repeat split; [now apply matches_alt_r | exact H].
  - apply (rep_loop_sound r) in H as (n & w & s' & caps' & -> & T & L & A & K).
    + exists w, s', caps'. repeat split; [|exact K].
      now apply matches_rep with (n := n).
    + exact IH.
    + destruct hi; cbn; [lia | exact I].
  - apply IH in H as (w & s' & caps' & -> & M & H).
    eexists w, s', _. repeat split; [now constructor | exact H].
Qed.

(** A match found at the start of [s] is a word of the pattern that starts
    [s]. *)
Lemma match_at_sound (r : regex) (must_advance : bool) (s : str) (n : nat)
    (caps : captures) :
  match_at r must_advance s = Some (n, caps) ->
  exists w rest, s = w ++ rest /\ matches r w /\ n = length w.
Proof.
  unfold match_at. destruct (exec r s [] _) as [[s' caps']|] eqn:E; [|discriminate].
  intros H. injection H as <- <-.
  apply exec_sound in E as (w & rest & caps'' & -> & M & K).
  destruct (must_advance && _); [discriminate|]. injection K as -> ->.
  exists w, s'. repeat split; [exact M|]. rewrite length_append. lia.
Qed.

(** ** The fuel of a repetition *)

Lemma rep_loop_local
    (body : str -> captures -> cont -> option (str * captures))
    (greedy : bool) (lo : nat) (hi : option nat) :
  local_body body ->
  forall (fuel count : nat) (s : str) (caps : captures) (k1 k2 : cont),
    (forall s' caps', length s' <= length s -> k1 s' caps' = k2 s' caps') ->
    rep_loop body greedy lo hi k1 fuel count s caps
    = rep_loop body greedy lo hi k2 fuel count s caps.
Proof.
  intros B. induction fuel as [|fuel IH]; intros count s caps k1 k2 K;
    [reflexivity|].
  cbn [rep_loop]. rewrite (K s caps (le_n _)).
  assert (E : body s caps
                (fun s' caps' =>
                   if (count <? lo) || (length s' <? length s)
                   then rep_loop body greedy lo hi k1 fuel (S count) s' caps'
                   else None)
              = body s caps
                  (fun s' caps' =>
                     if (count <? lo) || (length s' <? length s)
                     then rep_loop body greedy lo hi k2 fuel (S count) s' caps'
                     else None)).
  { apply B. intros s' caps' L.
    destruct ((count <? lo) || (length s' <? length s)); [|reflexivity].
    apply IH. intros s'' caps'' L'. apply K. lia. }
  now rewrite E.
Qed.

Lemma exec_local (r : regex) : local_body (exec r).
Proof.
  induction r as [|a|r1 IH1 r2 IH2|r1 IH1 r2 IH2|greedy lo hi r IH|n r IH];
    intros s caps k1 k2 K; cbn [exec].
  - now apply K.
  - destruct s as [|c s']; [reflexivity|].
    destruct (atom_match a c); [|reflexivity]. apply K. cbn. lia.
  - apply IH1. intros s' caps' L. apply IH2. intros s'' caps'' L'.
    apply K. lia.
  - now rewrite (IH1 s caps k1 k2 K), (IH2 s caps k1 k2 K).
  - now apply rep_loop_local.
  - apply IH. intros s' caps' L. now apply K.
Qed.

(** The loop of a repetition does not depend on its fuel, once the fuel is
    above the rounds still owed to the lower bound plus the length of the
    text: the fuel that [exec] gives it never runs out. *)
Lemma rep_loop_fuel (r : regex) (greedy : bool) (lo : nat) (hi : option nat)
    (k : cont) :
  forall (fuel1 fuel2 count : nat) (s : str) (caps : captures),
    lo - count + length s < fuel1 ->
    lo - count + length s < fuel2 ->
    rep_loop (exec r) greedy lo hi k fuel1 count s caps
    = rep_loop (exec r) greedy lo hi k fuel2 count s caps.
Proof.
  induction fuel1 as [|fuel1 IH]; intros fuel2 count s caps L1 L2; [lia|].
  destruct fuel2 as [|fuel2]; [lia|]. cbn [rep_loop].
  assert (E : exec r s caps
                (fun s' caps' =>
                   if (count <? lo) || (length s' <? length s)
                   then rep_loop (exec r) greedy lo hi k fuel1 (S count) s' caps'
                   else None)
              = exec r s caps
                  (fun s' caps' =>
                     if (count <? lo) || (length s' <? length s)
                     then rep_loop (exec r) greedy lo hi k fuel2 (S count) s' caps'
                     else None)).
  { apply exec_local. intros s' caps' L.
    destruct ((count <? lo) || (length s' <? length s)) eqn:C; [|reflexivity].
    apply orb_true_iff in C as [C|C];
      [apply Nat.ltb_lt in C | apply Nat.ltb_lt in C]; apply IH; lia. }
  now rewrite E.
Qed.

(** ** Whitespace *)

Lemma tab_isspace (c : ascii) : Ascii.eqb tab c = true -> char_isspace c = true.
Proof. intros E. apply Ascii.eqb_eq in E. now subst c. Qed.

(** One round of [(\s|\t)] on a text. *)
Lemma exec_space_or_tab (n : nat) (s : str) (caps : captures) (k : cont) :
  exec (Group n (Alt (Atom (One ISpace)) (Chr tab))) s caps k =
  match s with
  | String c s' =>
      if char_isspace c then k s' ((n, take (length s - length s') s) :: caps)
      else None
  | EmptyString => None
  end.
Proof.
  destruct s as [|c s']; [reflexivity|].
  cbn [exec Chr atom_match citem_match orelse].
  destruct (char_isspace c) eqn:W.
  - destruct (k s' _) eqn:K; [reflexivity|]. cbn [orelse].
    now destruct (Ascii.eqb tab c).
  - cbn [orelse]. destruct (Ascii.eqb tab c) eqn:T; [|reflexivity].
    apply tab_isspace in T. congruence.
Qed.

Lemma match_at_accept (r : regex) (s : str) :
  match_at r false s =
  match exec r s [] accept with
  | Some (s', caps) => Some (length s - length s', caps)
  | None => None
  end.
Proof. reflexivity. Qed.

Lemma exec_Rep (greedy : bool) (lo : nat) (hi : option nat) (r : regex)
    (s : str) (caps : captures) (k : cont) :
  exec (Rep greedy lo hi r) s caps k =
  rep_loop (exec r) greedy lo hi k (S (lo + length s)) 0 s caps.
Proof. reflexivity. Qed.

(** The loop of [(\s|\t)+] takes the whole run of whitespace. *)
Lemma rep_loop_spaces (fuel : nat) :
  forall (s : str) (count : nat) (caps : captures),
    length s < fuel ->
    exists caps',
      rep_loop (exec (Group 1 (Alt (Atom (One ISpace)) (Chr tab))))
        true 1 None accept fuel count s caps =
      if (1 <=? count) || (0 <? run s)
      then Some (drop (run s) s, caps') else None.
Proof.
  induction fuel as [|fuel IH]; intros s count caps L; [lia|].
  cbn [rep_loop below]. rewrite exec_space_or_tab.
  destruct s as [|c s'].
  - cbn [orelse run drop]. exists caps. unfold accept.
    rewrite orb_false_r. reflexivity.
  - cbn [run]. destruct (char_isspace c) eqn:W.
    + assert (Lt : (length s' <? length (String c s')) = true)
        by (apply Nat.ltb_lt; simpl; lia).
      rewrite Lt, orb_true_r.
      destruct (IH s' (S count) ((1, take (length (String c s') - length s') (String c s')) :: caps))
        as [caps' E]; [simpl in L; lia|].
      rewrite E. cbn [Nat.leb orb orelse drop]. exists caps'.
      now rewrite orb_true_r.
    + cbn [orelse drop]. exists caps. unfold accept.
      rewrite orb_false_r. reflexivity.
Qed.

Lemma length_drop_run (s : str) : length s - length (drop (run s) s) = run s.
Proof.
  induction s as [|c s IH]; [reflexivity|].
  cbn [run]. destruct (char_isspace c); cbn [drop length]; [|lia].
  assert (length (drop (run s) s) <= length s).
  { clear. generalize (run s). induction s as [|c s IH]; intros [|n]; simpl; auto. }
  lia.
Qed.

(** The match of [(\s|\t)+] at the start of a text is its run of
    whitespace. *)
Lemma match_at_long_spaces (s : str) :
  exists caps,
    match_at re_long_spaces false s =
    if 0 <? run s then Some (run s, caps) else None.
Proof.
  rewrite match_at_accept. unfold re_long_spaces, Plus. rewrite exec_Rep.
  destruct (rep_loop_spaces (S (1 + length s)) s 0 [] ltac:(lia)) as [caps E].
  rewrite E. cbn [Nat.leb orb].
  exists caps. destruct (0 <? run s); [|reflexivity].
  now rewrite length_drop_run.
Qed.

Lemma sub_scan_long_spaces (s : str) :
  sub_scan re_long_spaces [TLit " "] s 0 = collapse false s
  /\ sub_scan re_long_spaces [TLit " "] s (run s) = collapse true s.
Proof.
  induction s as [|c s [IH0 IH1]].
  - split; reflexivity.
  - cbn [run collapse]. destruct (match_at_long_spaces (String c s)) as [caps M].
    cbn [run] in M.
    destruct (char_isspace c) eqn:W.
    + split.
      * cbn [sub_scan]. rewrite M. cbn [Nat.ltb Nat.leb].
        cbn [expand expand_item append]. now rewrite IH1.
      * cbn [sub_scan]. exact IH1.
    + assert (E : sub_scan re_long_spaces [TLit " "] (String c s) 0
                  = String c (collapse false s)).
      { cbn [sub_scan]. rewrite M. cbn [Nat.ltb Nat.leb]. now rewrite IH0. }
      split; exact E.
Qed.

(** [filterLongSpaces] never raises and computes [collapse]. *)
Lemma filterLongSpaces_collapse (s : str) :
  filterLongSpaces s = Ok (collapse false s).
Proof.
  unfold filterLongSpaces, sub. cbn [groups re_long_spaces Plus].
  cbn [parse_template bind]. cbn.
  now rewrite (proj1 (sub_scan_long_spaces s)).
Qed.

Lemma space_isspace (c : ascii) : Ascii.eqb c " " = true -> char_isspace c = true.
Proof. intros E. apply Ascii.eqb_eq in E. now subst c. Qed.

Lemma collapse_single_spaced (s : str) :
  forall in_run : bool,
    single_spaced (collapse in_run s) = true
    /\ (in_run = true -> starts_space (collapse in_run s) = false).
Proof.
  induction s as [|c s IH]; intros in_run; [now split|].
  cbn [collapse]. destruct (char_isspace c) eqn:W.
  - destruct (IH true) as [S1 S2]. destruct in_run.
    + now split.
    + split; [|discriminate]. cbn [single_spaced].
      now rewrite (S2 eq_refl), S1.
  - destruct (IH false) as [S1 _].
    assert (N : Ascii.eqb c " " = false).
    { destruct (Ascii.eqb c " ") eqn:E; [|reflexivity].
      apply space_isspace in E. congruence. }
    cbn [single_spaced starts_space]. rewrite N, S1. now split.
Qed.

Lemma filterFirstAndEndSpaces_steps (s : str) :
  filterFirstAndEndSpaces s = strip_last (strip_first s).
Proof.
  unfold filterFirstAndEndSpaces, strip_first, strip_last.
  destruct s as [|c s]; [reflexivity|].
  cbn [length Nat.eqb starts_space drop].
  destruct (Ascii.eqb_spec c " ") as [->|N].
  - destruct s as [|d s]; [reflexivity|]. cbn [length Nat.eqb].
    destruct (last (String d s)) as [e|]; [|reflexivity].
    destruct (Ascii.eqb_spec e " ") as [->|Ne]; [reflexivity|].
    destruct e as [[] [] [] [] [] [] [] []]; try reflexivity; now elim Ne.
  - assert (E : match String c s with
                | String " " string' => string'
                | _ => String c s
                end = String c s).
    { destruct c as [[] [] [] [] [] [] [] []]; try reflexivity; now elim N. }
    rewrite E. cbn [length Nat.eqb].
    destruct (last (String c s)) as [e|]; [|reflexivity].
    destruct (Ascii.eqb_spec e " ") as [->|Ne]; [reflexivity|].
    destruct e as [[] [] [] [] [] [] [] []]; try reflexivity; now elim Ne.
Qed.

Lemma single_spaced_strip_first (s : str) :
  single_spaced s = true ->
  single_spaced (strip_first s) = true /\ starts_space (strip_first s) = false.
Proof.
  unfold strip_first. destruct s as [|c s]; [now split|].
  cbn [starts_space drop single_spaced].
  destruct (Ascii.eqb c " ") eqn:E; cbn [andb negb]; intros H.
  - apply andb_true_iff in H as [H1 H2]. split; [exact H2|].
    now apply negb_true_iff in H1.
  - cbn [single_spaced starts_space]. rewrite E. split; [exact H | reflexivity].
Qed.

Lemma init_cons (c d : ascii) (s : str) :
  init (String c (String d s)) = String c (init (String d s)).
Proof. reflexivity. Qed.

Lemma last_cons (c d : ascii) (s : str) :
  last (String c (String d s)) = last (String d s).
Proof. reflexivity. Qed.

Lemma starts_space_init (s : str) :
  starts_space s = false -> starts_space (init s) = false.
Proof. destruct s as [|c [|d s]]; try reflexivity. now rewrite init_cons. Qed.

Lemma single_spaced_init (s : str) :
  single_spaced s = true -> single_spaced (init s) = true.
Proof.
  induction s as [|c s IH]; [reflexivity|].
  destruct s as [|d s]; [reflexivity|].
  rewrite init_cons. intros H.
  change (single_spaced (String c (String d s)))
    with (negb (Ascii.eqb c " " && Ascii.eqb d " ")
          && single_spaced (String d s)) in H.
  apply andb_true_iff in H as [H1 H2].
  cbn [single_spaced]. rewrite (IH H2), andb_true_r.
  destruct (Ascii.eqb c " "); [|reflexivity]. cbn [andb] in *.
  apply negb_true_iff in H1. apply negb_true_iff.
  destruct s as [|e s]; [reflexivity|]. rewrite init_cons. exact H1.
Qed.

(** In a text without two spaces in a row, the character before a last
    space is not a space. *)
Lemma last_init_not_space (s : str) :
  single_spaced s = true -> last s = Some " "%char ->
  last (init s) <> Some " "%char.
Proof.
  induction s as [|c s IH]; [discriminate|].
  destruct s as [|d s]; [discriminate|].
  intros H L. rewrite last_cons in L. rewrite init_cons.
  change (single_spaced (String c (String d s)))
    with (negb (Ascii.eqb c " " && Ascii.eqb d " ")
          && single_spaced (String d s)) in H.
  apply andb_true_iff in H as [H1 H2].
  destruct s as [|e s].
  - cbn in L. injection L as ->. cbn [init last].
    rewrite andb_true_r in H1. apply negb_true_iff in H1.
    intros E. injection E as ->. discriminate.
  - rewrite init_cons. rewrite init_cons in IH.
    change (last (String c (String d (init (String e s)))))
      with (last (String d (init (String e s)))).
    now apply IH.
Qed.

Lemma last_append_char (pre : str) (c : ascii) :
  last (pre ++ String c "") = Some c.
Proof.
  induction pre as [|d pre IH]; [reflexivity|].
  cbn [append]. destruct (pre ++ String c "") eqn:E; [now destruct pre|].
  rewrite last_cons. exact IH.
Qed.

Lemma single_spaced_double (pre post : str) :
  single_spaced (pre ++ "  " ++ post) = false.
Proof.
  induction pre as [|c pre IH]; [reflexivity|].
  cbn [append single_spaced]. cbn [append] in IH. rewrite IH.
  apply andb_false_r.
Qed.

(** C7: on every input, whitespace collapsing returns a text (it does not
    raise), and the trim pass applied to that text yields a text that does
    not start with a space, does not end with a space, and has no two spaces
    in a row. *)
Theorem collapse_then_trim (s : str) :
  exists t : str,
    filterLongSpaces s = Ok t
    /\ (forall rest, filterFirstAndEndSpaces t <> " " ++ rest)
    /\ (forall pre, filterFirstAndEndSpaces t <> pre ++ " ")
    /\ (forall pre post, filterFirstAndEndSpaces t <> pre ++ "  " ++ post).
Proof.
  exists (collapse false s). split; [apply filterLongSpaces_collapse|].
  rewrite filterFirstAndEndSpaces_steps.
  destruct (collapse_single_spaced s false) as [S0 _].
  destruct (single_spaced_strip_first _ S0) as [S1 F1].
  set (t := strip_first (collapse false s)) in *.
  assert (P : starts_space (strip_last t) = false
              /\ last (strip_last t) <> Some " "%char
              /\ single_spaced (strip_last t) = true).
  { unfold strip_last. destruct (last t) as [c|] eqn:L.
    - destruct (Ascii.eqb_spec c " ") as [->|N].
      + split; [now apply starts_space_init|].
        split; [now apply last_init_not_space | now apply single_spaced_init].
      + rewrite L. split; [exact F1|]. split; [congruence | exact S1].
    - rewrite L. split; [exact F1|]. split; [discriminate | exact S1]. }
  destruct P as (P1 & P2 & P3). repeat split.
  - intros rest E. rewrite E in P1. discriminate.
  - intros pre E. rewrite E, last_append_char in P2. now elim P2.
  - intros pre post E. rewrite E, single_spaced_double in P3. discriminate.
Qed.

(** ** The stable-reduction pair *)

Lemma occurs_app (starts : str -> bool) (pre s : str) :
  starts s = true -> occurs starts (pre ++ s) = true.
Proof.
  intros H. induction pre as [|c pre IH]; cbn [append].
  - destruct s; cbn [occurs]; now rewrite H.
  - cbn [occurs]. rewrite IH. apply orb_true_r.
Qed.

Lemma occurs_true (starts : str -> bool) (s : str) :
  occurs starts s = true ->
  exists pre post, s = pre ++ post /\ starts post = true.
Proof.
  induction s as [|c s IH]; cbn [occurs]; intros H.
  - rewrite orb_false_r in H. now exists "", "".
  - apply orb_true_iff in H as [H|H].
    + now exists "", (String c s).
    + destruct (IH H) as (pre & post & -> & P). now exists (String c pre), post.
Qed.

(** [has_abbreviation] is the occurrence of a letter, a period, a letter and
    a period somewhere in the text. *)
Lemma has_abbreviation_spec (s : str) :
  has_abbreviation s = true <->
  exists pre a b post,
    s = pre ++ String a (String "." (String b (String "." post)))
    /\ is_ascii_letter a = true /\ is_ascii_letter b = true.
Proof.
  split.
  - intros H. apply occurs_true in H as (pre & w & -> & H).
    destruct w as [|a [|p [|b [|q post]]]]; try discriminate.
    cbn [abbreviation_at] in H.
    repeat (apply andb_true_iff in H as [H ?]).
    apply Ascii.eqb_eq in H0, H2. subst p q.
    now exists pre, a, b, post.
  - intros (pre & a & b & post & -> & A & B).
    apply occurs_app. cbn [abbreviation_at]. now rewrite A, B.
Qed.

(** A scan that finds no match returns the text as it is. *)
Lemma sub_scan_no_match (r : regex) (tmpl : list titem) (starts : str -> bool) :
  (forall s n caps, match_at r false s = Some (n, caps) -> starts s = true) ->
  forall s, occurs starts s = false -> sub_scan r tmpl s 0 = s.
Proof.
  intros M. induction s as [|c s IH]; cbn [occurs sub_scan]; intros H;
    apply orb_false_iff in H as [H1 H2].
  - destruct (match_at r false "") as [[n caps]|] eqn:E; [|reflexivity].
    apply M in E. congruence.
  - destruct (match_at r false (String c s)) as [[n caps]|] eqn:E.
    + apply M in E. congruence.
    + now rewrite IH.
Qed.

Lemma letter_match (c : ascii) : atom_match letter c = is_ascii_letter c.
Proof.
  unfold letter, is_ascii_letter, is_upper_az, is_lower_az, az, AZ.
  cbn. rewrite orb_false_r. apply orb_comm.
Qed.

Lemma matches_chr (c : ascii) (w : str) :
  matches (Chr c) w -> w = String c "".
Proof.
  unfold Chr. inversion 1; subst. cbn in *.
  match goal with H : Ascii.eqb _ _ = true |- _ => apply Ascii.eqb_eq in H end.
  now subst.
Qed.

Lemma matches_letter (w : str) :
  matches (Atom letter) w -> exists a, w = String a "" /\ is_ascii_letter a = true.
Proof.
  inversion 1; subst. rewrite letter_match in *. eauto.
Qed.

(** The words of the escape pattern. *)
Lemma matches_stable_reduction (w : str) :
  matches re_stable_reduction w ->
  exists a b, w = String a (String "." (String b (String "." "")))
              /\ is_ascii_letter a = true /\ is_ascii_letter b = true.
Proof.
  unfold re_stable_reduction. cbn [seq].
  intros H.
  inversion H as [| |? ? w1 x1 G1 H1| | | |]; subst; clear H.
  inversion H1 as [| |? ? w2 x2 D1 H2| | | |]; subst; clear H1.
  inversion H2 as [| |? ? w3 x3 G2 D2| | | |]; subst; clear H2.
  inversion G1; subst. inversion G2; subst.
  apply matches_chr in D1, D2. subst.
  repeat match goal with
         | H : matches (Atom letter) _ |- _ =>
             apply matches_letter in H as (? & -> & ?)
         end.
  cbn. eauto.
Qed.

Lemma stable_reduction_at (s : str) (n : nat) (caps : captures) :
  match_at re_stable_reduction false s = Some (n, caps) ->
  abbreviation_at s = true.
Proof.
  intros H. apply match_at_sound in H as (w & rest & -> & M & _).
  apply matches_stable_reduction in M as (a & b & -> & A & B).
  cbn. now rewrite A, B.
Qed.

Lemma groups_Str (p : str) : groups (Str p) = 0.
Proof. induction p as [|c p IH]; [reflexivity | exact IH]. Qed.

Lemma matches_str (p w : str) : matches (Str p) w -> w = p.
Proof.
  revert w. induction p as [|c p IH]; intros w H; cbn [Str] in H.
  - now inversion H.
  - inversion H as [| |? ? w1 w2 H1 H2| | | |]; subst.
    apply matches_chr in H1. apply IH in H2. now subst.
Qed.

Lemma matches_not_underscore (w : str) :
  matches (Atom (NoneOf [ILit "_"])) w ->
  exists c, w = String c "" /\ not_underscore c = true.
Proof.
  inversion 1 as [|? c A| | | | |]; subst. exists c. split; [reflexivity|].
  cbn in A. rewrite orb_false_r in A. unfold not_underscore.
  now rewrite Ascii.eqb_sym.
Qed.

Lemma times_not_underscore (n : nat) (w : str) :
  times (matches (Atom (NoneOf [ILit "_"]))) n w ->
  length w = n /\ all_chars not_underscore w = true.
Proof.
  induction 1 as [|n w1 w2 H1 _ [IHl IHa]]; [now split|].
  apply matches_not_underscore in H1 as (c & -> & N).
  cbn. now rewrite N, IHl, IHa.
Qed.

(** The words of one field of the restore pattern. *)
Lemma matches_field (w : str) :
  matches (Plus (Atom (NoneOf [ILit "_"]))) w ->
  0 < length w /\ all_chars not_underscore w = true.
Proof.
  unfold Plus. inversion 1; subst.
  match goal with H : times _ _ _ |- _ => apply times_not_underscore in H as [L A] end.
  split; [lia | exact A].
Qed.

Lemma span_field (x rest : str) :
  all_chars not_underscore x = true ->
  span (x ++ String "_" rest) = length x.
Proof.
  induction x as [|c x IH]; cbn; [reflexivity|].
  intros H. apply andb_true_iff in H as [N A].
  unfold not_underscore in N. apply negb_true_iff in N.
  now rewrite N, IH.
Qed.

Lemma field_append (x rest : str) :
  0 < length x -> all_chars not_underscore x = true ->
  field (x ++ String "_" rest) = Some rest.
Proof.
  intros L A. unfold field. rewrite span_field by exact A.
  destruct (0 <? length x) eqn:E; [|apply Nat.ltb_ge in E; lia].
  now rewrite drop_append.
Qed.

(** The words of the restore pattern: the token, an underscore and two
    fields, each closed by an underscore. *)
Lemma matches_unpack (cfg : Sintax) (w : str) :
  matches (re_unpack cfg) w ->
  exists x y,
    w = STABLE_REDUCTION cfg ++ String "_" (x ++ String "_" (y ++ String "_" ""))
    /\ 0 < length x /\ all_chars not_underscore x = true
    /\ 0 < length y /\ all_chars not_underscore y = true.
Proof.
  unfold re_unpack. cbn [seq]. intros H.
  inversion H as [| |? ? w1 x1 T H1| | | |]; subst; clear H.
  inversion H1 as [| |? ? w2 x2 U1 H2| | | |]; subst; clear H1.
  inversion H2 as [| |? ? w3 x3 G1 H3| | | |]; subst; clear H2.
  inversion H3 as [| |? ? w4 x4 U2 H4| | | |]; subst; clear H3.
  inversion H4 as [| |? ? w5 x5 G2 U3| | | |]; subst; clear H4.
  apply matches_str in T. apply matches_chr in U1, U2, U3. subst.
  inversion G1; subst. inversion G2; subst.
  repeat match goal with
         | H : matches (Plus _) _ |- _ => apply matches_field in H as [? ?]
         end.
  exists w3, w5. cbn [append]. rewrite ?append_assoc. cbn [append].
  repeat split; assumption.
Qed.

Lemma unpack_at (cfg : Sintax) (s : str) (n : nat) (caps : captures) :
  match_at (re_unpack cfg) false s = Some (n, caps) ->
  placeholder_at (STABLE_REDUCTION cfg) s = true.
Proof.
  intros H. apply match_at_sound in H as (w & rest & -> & M & _).
  apply matches_unpack in M as (x & y & -> & Lx & Ax & Ly & Ay).
  unfold placeholder_at. rewrite append_assoc, prefix_append, drop_append.
  cbn [append andb Ascii.eqb Bool.eqb].
  rewrite !append_assoc. cbn [append].
  rewrite (field_append x _ Lx Ax).
  rewrite !append_assoc. cbn [append].
  now rewrite (field_append y _ Ly Ay).
Qed.

(** A template whose start has no backslash starts with those characters as
    literals. *)
Lemma parse_template_plain (ngroups : nat) (plain t : str) (rest : list titem) :
  no_backslash plain = true ->
  parse_template ngroups None t = Ok rest ->
  exists tmpl, parse_template ngroups None (plain ++ t) = Ok tmpl.
Proof.
  intros A T. induction plain as [|c plain IH]; cbn [append].
  - now exists rest.
  - cbn [all_chars] in A. apply andb_true_iff in A as [N A].
    destruct (IH A) as [tmpl E].
    cbn [parse_template]. rewrite N, E. cbn. eauto.
Qed.

Lemma word_no_backslash (s : str) :
  all_chars char_isword s = true ->
  no_backslash s = true.
Proof.
  unfold no_backslash.
  induction s as [|c s IH]; [reflexivity|]. cbn [all_chars].
  intros H. apply andb_true_iff in H as [W A]. rewrite (IH A), andb_true_r.
  destruct (Ascii.eqb_spec c backslash) as [->|]; [discriminate | reflexivity].
Qed.

Lemma filterStableReduction_id (cfg : Sintax) (s : str) :
  all_chars char_isword (STABLE_REDUCTION cfg) = true ->
  has_abbreviation s = false ->
  filterStableReduction cfg s = Ok s.
Proof.
  intros W H. unfold filterStableReduction, sub.
  destruct (parse_template_plain (groups re_stable_reduction)
              (" " ++ STABLE_REDUCTION cfg) "_\1_\2_ "
              [TLit "_"; TGroup 1; TLit "_"; TGroup 2; TLit "_"; TLit " "]%char)
    as [tmpl E].
  - unfold no_backslash. cbn [append all_chars].
    now apply word_no_backslash.
  - vm_compute; reflexivity.
  - rewrite append_assoc in E. cbn [append] in *. rewrite E. cbn [bind].
    f_equal. apply sub_scan_no_match with (starts := abbreviation_at); [|exact H].
    apply stable_reduction_at.
Qed.

Lemma unpackStableReduction_id (cfg : Sintax) (s : str) :
  has_placeholder cfg s = false ->
  unpackStableReduction cfg s = Ok s.
Proof.
  intros H. unfold unpackStableReduction, sub.
  assert (G : groups (re_unpack cfg) = 2).
  { unfold re_unpack. cbn [seq groups]. now rewrite groups_Str. }
  rewrite G.
  assert (T : parse_template 2 None " \1.\2. "
              = Ok [TLit " "; TGroup 1; TLit "."; TGroup 2; TLit "."; TLit " "]%char)
    by (vm_compute; reflexivity).
  rewrite T. cbn [bind]. f_equal.
  apply sub_scan_no_match with (starts := placeholder_at (STABLE_REDUCTION cfg));
    [|exact H].
  apply unpack_at.
Qed.

(** C5, amended: on a text with no abbreviation [x.y.] and no occurrence of
    the escape placeholder (the token, an underscore and two fields each
    closed by an underscore), the escape pass followed by the restore pass
    returns the text unchanged.  The token is made of word characters. *)
Theorem escape_restore_unchanged (cfg : Sintax) (s : str) :
  all_chars char_isword (STABLE_REDUCTION cfg) = true ->
  has_abbreviation s = false ->
  has_placeholder cfg s = false ->
  escape_restore cfg s = Ok s.
Proof.
  intros W A P. unfold escape_restore.
  rewrite (filterStableReduction_id cfg s W A). cbn [bind].
  now apply unpackStableReduction_id.
Qed.

(** The pair on a text whose only abbreviation has more than one letter. *)
Lemma escape_restore_unchanged_witness :
  all_chars char_isword (STABLE_REDUCTION sintax) = true
  /\ has_abbreviation "see the list, etc. and so on" = false
  /\ has_placeholder sintax "see the list, etc. and so on" = false
  /\ escape_restore sintax "see the list, etc. and so on"
     = Ok "see the list, etc. and so on".
Proof.
  split; [vm_compute; reflexivity|].
  split; [vm_compute; reflexivity|].
  split; [vm_compute; reflexivity|].
  apply (escape_restore_unchanged sintax); vm_compute; reflexivity.
Defined.

(** C5 as stated fails: this text holds no abbreviation [x.y.], and the
    escape pass leaves it as it is, but the restore pass finds the escape
    placeholder in it and rewrites it. *)
Lemma escape_restore_changes_placeholder :
  has_abbreviation "STABLE_REDUCTION_a_b_" = false
  /\ escape_restore sintax "STABLE_REDUCTION_a_b_" = Ok " a.b. "
  /\ escape_restore sintax "STABLE_REDUCTION_a_b_" <> Ok "STABLE_REDUCTION_a_b_".
Proof.
  repeat split; try (vm_compute; reflexivity).
  vm_compute. discriminate.
Qed.

(** ** The escape placeholder, as an occurrence *)

Lemma take_drop (n : nat) (s : str) : take n s ++ drop n s = s.
Proof.
  revert n. induction s as [|c s IH]; intros [|n]; cbn; try reflexivity.
  now rewrite IH.
Qed.

Lemma span_take (s : str) :
  all_chars not_underscore (take (span s) s) = true
  /\ length (take (span s) s) = span s
  /\ (drop (span s) s = "" \/ exists rest, drop (span s) s = String "_" rest).
Proof.
  induction s as [|c s (A & L & D)]; cbn [span].
  - repeat split. now left.
  - destruct (Ascii.eqb_spec c "_") as [->|N].
    + repeat split. right. now exists s.
    + cbn [take drop all_chars length]. unfold not_underscore at 1.
      apply Ascii.eqb_neq in N. rewrite N, A, L. now repeat split.
Qed.

Lemma field_some (s rest : str) :
  field s = Some rest ->
  exists x, s = x ++ String "_" rest
            /\ 0 < length x /\ all_chars not_underscore x = true.
Proof.
  unfold field. destruct (0 <? span s) eqn:P; [|discriminate].
  apply Nat.ltb_lt in P. destruct (span_take s) as (A & L & D).
  destruct (drop (span s) s) as [|c r] eqn:E; [discriminate|].
  intros H. injection H as ->.
  destruct D as [D|[r' D]]; [discriminate|]. injection D as -> ->.
  exists (take (span s) s). rewrite <- E, take_drop. rewrite L. now repeat split.
Qed.

(** [has_placeholder] is the occurrence, somewhere in the text, of the
    token, an underscore and two fields: a field is one or more characters
    other than the underscore, closed by an underscore. *)
Lemma has_placeholder_spec (cfg : Sintax) (s : str) :
  has_placeholder cfg s = true <->
  exists pre x y post,
    s = pre ++ STABLE_REDUCTION cfg
            ++ String "_" (x ++ String "_" (y ++ String "_" post))
    /\ 0 < length x /\ all_chars not_underscore x = true
    /\ 0 < length y /\ all_chars not_underscore y = true.
Proof.
  unfold has_placeholder. split.
  - intros H. apply occurs_true in H as (pre & w & -> & H).
    unfold placeholder_at in H. apply andb_true_iff in H as [P H].
    apply prefix_split in P as [r ->]. rewrite drop_append in H.
    destruct r as [|c s1]; [discriminate|].
    apply andb_true_iff in H as [U H]. apply Ascii.eqb_eq in U. subst c.
    destruct (field s1) as [s2|] eqn:F1; [|discriminate].
    destruct (field s2) as [post|] eqn:F2; [|discriminate].
    apply field_some in F1 as (x & -> & Lx & Ax).
    apply field_some in F2 as (y & -> & Ly & Ay).
    exists pre, x, y, post. now repeat split.
  - intros (pre & x & y & post & -> & Lx & Ax & Ly & Ay).
    apply occurs_app. unfold placeholder_at.
    rewrite prefix_append, drop_append. cbn [andb Ascii.eqb Bool.eqb].
    rewrite (field_append x _ Lx Ax). now rewrite (field_append y _ Ly Ay).
Qed.

(** ** Parameter names *)

Lemma prefix_unfold_cons (old : str) (c : ascii) (s : str) :
  prefix old (String c s) =
  match old with
  | EmptyString => true
  | String a old' => if ascii_dec a c then prefix old' s else false
  end.
Proof. reflexivity. Qed.

Lemma replace_scan_skip (old new w s : str) :
  replace_scan old new (w ++ s) (length w) = replace_scan old new s 0.
Proof. induction w as [|c w IH]; [reflexivity | exact IH]. Qed.

(** An occurrence of [old] at the start of the text is replaced, and the scan
    goes on behind it. *)
Lemma replace_scan_hit (o : ascii) (old' new rest : str) :
  replace_scan (String o old') new (String o old' ++ rest) 0 =
  new ++ replace_scan (String o old') new rest 0.
Proof.
  cbn [append replace_scan].
  change (String o (old' ++ rest)) with (String o old' ++ rest).
  rewrite prefix_append. cbn [length Nat.sub].
  now rewrite Nat.sub_0_r, replace_scan_skip.
Qed.

(** The leftmost occurrence of [old] is replaced, what stands before it is
    kept, and what follows it is scanned in turn. *)
Lemma replace_leftmost (old new pre post : str) :
  old <> "" ->
  find old (pre ++ old ++ post) = Some (length pre) ->
  replace (pre ++ old ++ post) old new = pre ++ new ++ replace post old new.
Proof.
  intros N. destruct old as [|o old']; [now elim N|]. unfold replace.
  induction pre as [|c pre IH]; intros F.
  - cbn [append]. change (String o (old' ++ post)) with (String o old' ++ post).
    apply replace_scan_hit.
  - cbn [append length] in *. rewrite find_unfold in F.
    destruct (prefix (String o old') (String c (pre ++ String o (old' ++ post))))
      eqn:P; [discriminate|].
    cbn [replace_scan]. rewrite P. f_equal. apply IH.
    destruct (find (String o old') (pre ++ String o (old' ++ post)));
      [now injection F as -> | discriminate].
Qed.

Lemma filterParamNames_from_app (cfg : Sintax) (l1 l2 : list str) :
  forall (i : nat) (text : str),
    filterParamNames_from cfg i text (l1 ++ l2) =
    filterParamNames_from cfg (i + List.length l1)
      (filterParamNames_from cfg i text l1) l2.
Proof.
  induction l1 as [|p l1 IH]; intros i text; cbn [filterParamNames_from app List.length].
  - now rewrite Nat.add_0_r.
  - rewrite IH. f_equal. lia.
Qed.

Lemma nth_error_split_at (A : Type) (l : list A) (i : nat) (x : A) :
  nth_error l i = Some x ->
  l = (firstn i l ++ x :: skipn (S i) l)%list /\ List.length (firstn i l) = i.
Proof.
  revert i. induction l as [|y l IH]; intros [|i] H; try discriminate.
  - injection H as ->. now split.
  - cbn in H. destruct (IH i H) as [E L].
    change (skipn (S (S i)) (y :: l)) with (skipn (S i) l).
    cbn [firstn app List.length].
    split; [now rewrite <- E | now rewrite L].
Qed.

(** C3, amended: for every parameter list and every index [i], let the text
    be as the parameters before [i] left it.  When parameter [i] occurs in it
    between two spaces, the leftmost such occurrence is rewritten to
    VARIABLE<i> between the two spaces: what stands before it is kept, what
    follows it is rewritten in the same way, and the later parameters are
    substituted in the result. *)
Theorem filterParamNames_occurrence (cfg : Sintax) (params : list str) (i : nat)
    (param text pre post : str) :
  nth_error params i = Some param ->
  filterParamNames_from cfg 0 text (firstn i params)
    = pre ++ spaced param ++ post ->
  find (spaced param) (pre ++ spaced param ++ post) = Some (length pre) ->
  filterParamNames cfg text params =
  filterParamNames_from cfg (S i)
    (pre ++ spaced (VARIABLE cfg ++ str_of_nat i)
         ++ replace post (spaced param) (spaced (VARIABLE cfg ++ str_of_nat i)))
    (skipn (S i) params).
Proof.
  intros N E F. unfold filterParamNames.
  destruct (nth_error_split_at _ params i param N) as [S L].
  rewrite S at 1. rewrite filterParamNames_from_app, L, E.
  cbn [filterParamNames_from Nat.add]. f_equal.
  apply replace_leftmost; [discriminate | exact F].
Qed.

(** The second of two parameters, in the text as the first has left it. *)
Lemma filterParamNames_occurrence_witness :
  nth_error ["src"; "dst"] 1 = Some "dst"
  /\ filterParamNames_from sintax 0 "copies src to dst and dst again"
       (firstn 1 ["src"; "dst"])
     = "copies VARIABLE0 to" ++ spaced "dst" ++ "and dst again"
  /\ find (spaced "dst") ("copies VARIABLE0 to" ++ spaced "dst" ++ "and dst again")
     = Some (length "copies VARIABLE0 to")
  /\ filterParamNames sintax "copies src to dst and dst again" ["src"; "dst"]
     = "copies VARIABLE0 to VARIABLE1 and VARIABLE1 again".
Proof.
  split; [reflexivity|].
  split; [vm_compute; reflexivity|].
  split; [vm_compute; reflexivity|].
  rewrite (filterParamNames_occurrence sintax ["src"; "dst"] 1 "dst"
             "copies src to dst and dst again" "copies VARIABLE0 to"
             "and dst again");
    vm_compute; reflexivity.
Defined.

(** C3 as stated fails at the start and at the end of the text: the
    parameter is a word of its own there, with no space on one side, and
    it is left as it is, by the substitution and by the whole pipeline. *)
Lemma filterParamNames_text_boundary :
  filterParamNames sintax "x" ["x"] = "x"
  /\ filterParamNames sintax "x is added to x" ["x"] = "x is added to x"
  /\ applyFiltersForString sintax "x is added to x" ["x"] = Ok "x is added to x".
Proof. repeat split; vm_compute; reflexivity. Qed.

(** ** Records *)

Lemma mapM_ok (A B : Type) (f : A -> result B) (xs : list A) (ys : list B) :
  mapM f xs = Ok ys ->
  List.length ys = List.length xs
  /\ forall i x, nth_error xs i = Some x ->
                 exists y, f x = Ok y /\ nth_error ys i = Some y.
Proof.
  revert ys. induction xs as [|x xs IH]; intros ys H; cbn [mapM] in H.
  - injection H as <-. split; [reflexivity|]. now intros [|i].
  - destruct (f x) as [y|e] eqn:F; [|discriminate]. cbn [bind] in H.
    destruct (mapM f xs) as [ys'|e] eqn:M; [|discriminate]. cbn [bind] in H.
    injection H as <-. destruct (IH ys' eq_refl) as [L N].
    split; [cbn; now rewrite L|].
    intros [|i] x' E; cbn in E.
    + injection E as <-. now exists y.
    + now apply N.
Qed.

Lemma variables_from_form (cfg : Sintax) (all : list str) (names : list str) :
  forall (i : nat) (vars : list str),
    variables_from cfg i names all = Ok vars ->
    List.length vars = List.length names
    /\ forall j entry,
         nth_error vars j = Some entry ->
         exists name converted filtered,
           nth_error names j = Some name
           /\ convert name = Ok converted
           /\ applyFiltersForString cfg (replace converted "_" " ") all
              = Ok filtered
           /\ entry = "@variable" ++ str_of_nat (i + j) ++ " " ++ filtered.
Proof.
  induction names as [|name names IH]; intros i vars H; cbn [variables_from] in H.
  - injection H as <-. split; [reflexivity|]. now intros [|j].
  - destruct (convert name) as [converted|e] eqn:C; [|discriminate].
    cbn [bind] in H.
    destruct (applyFiltersForString cfg (replace converted "_" " ") all)
      as [filtered|e] eqn:F; [|discriminate].
    cbn [bind] in H.
    destruct (variables_from cfg (S i) names all) as [rest|e] eqn:V;
      [|discriminate].
    cbn [bind] in H. injection H as <-.
    destruct (IH (S i) rest V) as [L N]. split; [cbn; now rewrite L|].
    intros [|j] entry E; cbn in E.
    + injection E as <-. exists name, converted, filtered.
      rewrite Nat.add_0_r. now repeat split.
    + destruct (N j entry E) as (nm & cv & fl & E1 & E2 & E3 & ->).
      exists nm, cv, fl. replace (i + S j) with (S i + j) by lia.
      now repeat split.
Qed.

Lemma applyFiltersForMethod_variables (cfg : Sintax) (method method' : Method) :
  applyFiltersForMethod cfg method = Ok method' ->
  variables_from cfg 0
    (map name (Description.params (description method)))
    (map name (Description.params (description method)))
  = Ok (variables (javaDoc method')).
Proof.
  unfold applyFiltersForMethod.
  destruct (variables_from cfg 0 _ _) as [vars|e]; [|discriminate]. cbn [bind].
  destruct (applyFiltersForString cfg (head (javaDoc method)) _) as [h|e];
    [|discriminate]. cbn [bind].
  repeat match goal with
         | |- context [mapM ?f ?l] =>
             destruct (mapM f l) as [?|?]; [|discriminate]; cbn [bind]
         end.
  intros H. injection H as <-. reflexivity.
Qed.

(** C9: every entry that [applyFiltersForMethod] writes into the variables
    of a record is, at position [i], the text @variable<i>, a space, and
    the pipeline applied to the converted name of parameter [i] with its
    underscores turned into spaces; there is one entry for each parameter.
    The entry starts with the lowercase @variable, so no token of the
    vocabulary starts it. *)
Theorem derived_variable_entries (cfg : Sintax) (method method' : Method) :
  applyFiltersForMethod cfg method = Ok method' ->
  List.length (variables (javaDoc method'))
  = List.length (Description.params (description method))
  /\ forall i entry,
       nth_error (variables (javaDoc method')) i = Some entry ->
       exists param converted filtered,
         nth_error (Description.params (description method)) i = Some param
         /\ convert (name param) = Ok converted
         /\ applyFiltersForString cfg (replace converted "_" " ")
              (map name (Description.params (description method)))
            = Ok filtered
         /\ entry = "@variable" ++ str_of_nat i ++ " " ++ filtered
         /\ forall token, In token tokens -> prefix token entry = false.
Proof.
  intros H. apply applyFiltersForMethod_variables in H.
  apply variables_from_form in H as [L N].
  split; [now rewrite L, length_map|].
  intros i entry E. destruct (N i entry E) as (nm & cv & fl & E1 & E2 & E3 & ->).
  rewrite nth_error_map in E1.
  destruct (nth_error (Description.params (description method)) i) as [param|];
    [|discriminate].
  injection E1 as <-. exists param, cv, fl.
  repeat split; try assumption.
  intros token T. cbn [append].
  repeat (destruct T as [<-|T]; [reflexivity|]). destruct T.
Qed.

(** The record of the examples through [applyFiltersForMethod]. *)
Lemma applyFiltersForMethod_example :
  applyFiltersForMethod sintax example_method = Ok example_method'.
Proof. vm_compute. reflexivity. Qed.

(** The entries of the record of the examples. *)
Lemma derived_variable_entries_witness :
  applyFiltersForMethod sintax example_method = Ok example_method'
  /\ List.length (variables (javaDoc example_method')) = 2
  /\ nth_error (variables (javaDoc example_method')) 0
     = Some ("@variable" ++ str_of_nat 0 ++ " " ++ "src file").
Proof.
  split; [vm_compute; reflexivity|].
  split.
  - exact (proj1 (derived_variable_entries sintax example_method example_method'
                    applyFiltersForMethod_example)).
  - reflexivity.
Defined.

(** ** The orchestrator *)

Lemma mapM_raise (A B : Type) (f : A -> result B) (xs : list A) (e : exn) :
  mapM f xs = Raise e ->
  exists i x, nth_error xs i = Some x /\ f x = Raise e.
Proof.
  induction xs as [|x xs IH]; cbn [mapM]; [discriminate|].
  destruct (f x) as [y|e'] eqn:F; cbn [bind].
  - destruct (mapM f xs) as [ys|e'] eqn:M; cbn [bind]; [discriminate|].
    intros H. injection H as ->. destruct (IH eq_refl) as (i & x' & N & R).
    now exists (S i), x'.
  - intros H. injection H as ->. now exists 0, x.
Qed.

(** C4: [pool.map] keeps the order: when no record raises, the transformed
    records are as many as the input records and the record at position [i]
    is the transformed input record [i]; the records that pass the filter
    are then flattened, in that order, each into the four pairs head (the
    summary as it is), params, variables and results, the last three joined
    with the NEXT token between two spaces.  When a record raises, so does
    the orchestrator. *)
Theorem applyFiltersForMethods_order (cfg : Sintax) (methods : list Method)
    (filtrator : Method -> bool) :
  match mapped cfg methods with
  | Ok transformed =>
      List.length transformed = List.length methods
      /\ (forall i method,
            nth_error methods i = Some method ->
            exists method',
              applyFiltersForMethod cfg method = Ok method'
              /\ nth_error transformed i = Some method')
      /\ applyFiltersForMethods cfg methods filtrator =
         Ok (map (fun method =>
                    [ ("head", head (javaDoc method));
                      ("params",
                       String.concat (" " ++ NEXT cfg ++ " ") (params (javaDoc method)));
                      ("variables",
                       String.concat (" " ++ NEXT cfg ++ " ") (variables (javaDoc method)));
                      ("results",
                       String.concat (" " ++ NEXT cfg ++ " ") (results (javaDoc method))) ])
                 (filter filtrator transformed))
  | Raise e =>
      applyFiltersForMethods cfg methods filtrator = Raise e
      /\ exists i method,
           nth_error methods i = Some method
           /\ applyFiltersForMethod cfg method = Raise e
  end.
Proof.
  unfold applyFiltersForMethods.
  destruct (mapped cfg methods) as [transformed|e] eqn:M; cbn [bind].
  - destruct (mapM_ok _ _ _ _ _ M) as [L N].
    split; [exact L|]. split; [exact N|].
    now rewrite map_map.
  - split; [reflexivity|]. now apply mapM_raise.
Qed.

(** An empty record between two others is dropped; the others keep their
    order. *)
Lemma applyFiltersForMethods_example :
  applyFiltersForMethods sintax [example_method; empty_method; example_method]
    isNotEmpty
  = Ok [ join sintax (javaDoc example_method');
         join sintax (javaDoc example_method') ]
  /\ join sintax (javaDoc example_method')
     = [ ("head", "copies srcfile , VARIABLE1 times .");
         ("params", "the srcfile to read NEXT how many times");
         ("variables", "@variable0 src file NEXT @variable1 count");
         ("results", "TRUE on success") ].
Proof. split; vm_compute; reflexivity. Qed.

(** ** The sentence filter *)

Lemma wordsNumber_total (cfg : Sintax) (words : list str) :
  exists n, Filter.wordsNumber cfg words = Ok n.
Proof.
  induction words as [|word words [n IH]]; [now exists 0|].
  cbn [Filter.wordsNumber]. unfold Filter.isKeyWord.
  rewrite isKeyWord_from_value. cbn [bind]. rewrite IH. cbn [bind]. eauto.
Qed.

Lemma split_cons (sep : ascii) (s : str) :
  exists w ws, split sep s = w :: ws.
Proof.
  induction s as [|c s (w & ws & IH)]; cbn [split]; [eauto|].
  destruct (Ascii.eqb c sep); [eauto|]. rewrite IH. eauto.
Qed.

(** A text that is not made of spaces alone has a word. *)
Lemma sentence_words_cons (s : str) :
  all_chars (fun c => Ascii.eqb c " ") s = false ->
  exists word words, sentence_words s = word :: words.
Proof.
  unfold sentence_words.
  induction s as [|c s IH]; cbn [all_chars split]; [discriminate|].
  destruct (Ascii.eqb c " ") eqn:E; cbn [andb]; intros H.
  - cbn [filter length Nat.ltb Nat.leb]. now apply IH.
  - destruct (split_cons " " s) as (w & ws & ->). cbn [filter length].
    cbn [Nat.ltb Nat.leb]. eauto.
Qed.

Lemma all_spaces_append (s t : str) :
  all_chars (fun c => Ascii.eqb c " ") t = false ->
  all_chars (fun c => Ascii.eqb c " ") (s ++ t) = false.
Proof.
  intros H. induction s as [|c s IH]; [exact H|].
  cbn [append all_chars]. rewrite IH. apply andb_false_r.
Qed.

(** The concentration of a sentence that ends with a period is defined: the
    division is never by zero. *)
Lemma concentration_total (cfg : Sintax) (sentence : str) :
  exists ratio, concentration cfg (sentence ++ ".") = Ok ratio.
Proof.
  unfold concentration.
  destruct (sentence_words_cons (sentence ++ "."))
    as (word & words & ->); [now apply all_spaces_append|].
  destruct (wordsNumber_total cfg (word :: words)) as [n ->].
  cbn [bind]. unfold truediv. cbn [List.length Nat.eqb]. eauto.
Qed.

Lemma concat_empty_cons (x : str) (l : list str) :
  String.concat "" (x :: l) = x ++ String.concat "" l.
Proof. destruct l; cbn [String.concat append]; now rewrite ?append_nil_r. Qed.

Lemma concat_empty_app (l1 l2 : list str) :
  String.concat "" (l1 ++ l2) = String.concat "" l1 ++ String.concat "" l2.
Proof.
  induction l1 as [|x l1 IH]; [reflexivity|].
  cbn [app]. now rewrite !concat_empty_cons, IH, append_assoc.
Qed.

(** The loop of the filter, from any state: the sentences it closes are
    those of [sentences_from]; each goes to the text when [kept], to the
    printed lines otherwise. *)
Lemma sentences_loop_spec (cfg : Sintax) (s : str) :
  forall (text : list str) (sentence : str) (printed : list str),
    sentences_loop cfg s text sentence printed =
    Ok (String.concat ""
          (text ++ filter (kept cfg) (sentences_from sentence s))%list,
        (printed
         ++ filter (fun x => negb (kept cfg x)) (sentences_from sentence s))%list).
Proof.
  induction s as [|ch s IH]; intros text sentence printed.
  - cbn [sentences_loop sentences_from filter]. now rewrite !app_nil_r.
  - cbn [sentences_loop sentences_from].
    rewrite length_append. cbn [length]. rewrite Nat.add_1_r.
    change (1 <? S (length sentence)) with (0 <? length sentence).
    destruct (Ascii.eqb ch "." && (0 <? length sentence)) eqn:E.
    + apply andb_true_iff in E as [E _]. apply Ascii.eqb_eq in E. subst ch.
      destruct (concentration_total cfg sentence) as [ratio C].
      assert (K : kept cfg (sentence ++ ".")
                  = (NORMAL_CONCENTRATION_OF_WORDS cfg <? ratio)%float)
        by (unfold kept; now rewrite C).
      cbn [filter]. rewrite C, K. cbn [bind].
      destruct (NORMAL_CONCENTRATION_OF_WORDS cfg <? ratio)%float;
        cbn [negb]; rewrite IH; now rewrite <- ?app_assoc.
    + apply IH.
Qed.

Lemma no_period_append (s t : str) :
  no_period (s ++ t) = no_period s && no_period t.
Proof.
  unfold no_period. induction s as [|c s IH]; [reflexivity|].
  cbn [append all_chars]. now rewrite IH, andb_assoc.
Qed.

(** The sentences are closed sentences, and the text is its sentences, one
    after the other, and a last sentence left under way. *)
Lemma sentences_from_split (s : str) :
  forall sentence : str,
    under_way sentence ->
    Forall closed (sentences_from sentence s)
    /\ exists rest,
         under_way rest
         /\ sentence ++ s = String.concat "" (sentences_from sentence s) ++ rest.
Proof.
  induction s as [|ch s IH]; intros sentence U.
  - split; [constructor|]. exists sentence. now rewrite append_nil_r.
  - cbn [sentences_from].
    replace (sentence ++ String ch s) with ((sentence ++ String ch "") ++ s)
      by now rewrite append_assoc.
    destruct (Ascii.eqb ch "." && (0 <? length sentence)) eqn:E.
    + apply andb_true_iff in E as [E L]. apply Ascii.eqb_eq in E. subst ch.
      destruct U as [->|(c & body & -> & N)]; [discriminate|].
      destruct (IH "" (or_introl eq_refl)) as [F (rest & R & S)].
      split.
      * constructor; [|exact F]. now exists c, body.
      * exists rest. split; [exact R|]. cbn [append] in S.
        rewrite concat_empty_cons.
        rewrite (append_assoc _ (String.concat "" _) rest). now rewrite <- S.
    + apply IH. destruct U as [->|(c & body & -> & N)].
      * right. exists ch, "". now split.
      * right. exists c, (body ++ String ch ""). split; [reflexivity|].
        rewrite no_period_append, N. cbn. rewrite andb_true_r.
        cbn [length Nat.ltb Nat.leb] in E. rewrite andb_true_r in E.
        now rewrite E.
Qed.

(** C8, amended: the filter never raises; it splits the text into sentences,
    each closed by a period that follows at least one character, keeps
    exactly the sentences whose ratio of words is strictly above the
    threshold, in their order, and prints each of the others.  The ratio of
    a sentence is always defined.  What follows the last period is in no
    sentence: it is neither kept nor printed. *)
Theorem filterMeaninglessSentences_strict (cfg : Sintax) (s : str) :
  filterMeaninglessSentences cfg s =
    Ok (String.concat "" (filter (kept cfg) (sentences s)),
        filter (fun sentence => negb (kept cfg sentence)) (sentences s))
  /\ Forall (fun sentence =>
               closed sentence
               /\ exists ratio,
                    concentration cfg sentence = Ok ratio
                    /\ kept cfg sentence
                       = (NORMAL_CONCENTRATION_OF_WORDS cfg <? ratio)%float)
            (sentences s)
  /\ exists rest,
       under_way rest /\ s = String.concat "" (sentences s) ++ rest.
Proof.
  split; [apply sentences_loop_spec|].
  destruct (sentences_from_split s "" (or_introl eq_refl)) as [F R].
  split; [|exact R].
  apply Forall_impl with (2 := F). intros sentence C. split; [exact C|].
  destruct C as (c & body & -> & _).
  change (String c (body ++ ".")) with (String c body ++ ".").
  destruct (concentration_total cfg (String c body)) as [ratio E].
  exists ratio. split; [exact E|]. unfold kept. now rewrite E.
Qed.

(** C8 as stated fails at the threshold: this sentence has one word out of
    two, its ratio is the threshold of the example vocabulary, and the
    filter prints it and keeps nothing. *)
Lemma sentence_at_threshold_rejected :
  concentration sintax "a ." = Ok 0.5%float
  /\ (NORMAL_CONCENTRATION_OF_WORDS sintax <=? 0.5)%float = true
  /\ filterMeaninglessSentences sintax "a ." = Ok ("", ["a ."]).
Proof. repeat split; vm_compute; reflexivity. Qed.

(** ** Texts that a pattern does not match *)

Lemma for_all_chars_spec (p : ascii -> bool) :
  for_all_chars p = true -> forall c, p c = true.
Proof.
  unfold for_all_chars, all_ascii. intros H c.
  rewrite forallb_forall in H. apply H.
  rewrite <- (ascii_nat_embedding c). apply in_map, in_seq.
  pose proof (nat_ascii_bounded c). lia.
Qed.

Lemma all_chars_append (p : ascii -> bool) (s t : str) :
  all_chars p (s ++ t) = all_chars p s && all_chars p t.
Proof.
  induction s as [|c s IH]; [reflexivity|].
  cbn [append all_chars]. now rewrite IH, andb_assoc.
Qed.

(** A word of a pattern that avoids the allowed characters is not made of
    allowed characters. *)
Lemma avoids_matches (allowed : ascii -> bool) (r : regex) :
  avoids allowed r = true ->
  forall w, matches r w -> all_chars allowed w = false.
Proof.
  induction r as [|a|r1 IH1 r2 IH2|r1 IH1 r2 IH2|greedy lo hi r IH|n r IH];
    cbn [avoids]; intros A w M.
  - discriminate.
  - inversion M as [|? c H| | | | |]; subst. cbn [all_chars].
    apply for_all_chars_spec with (c := c) in A.
    rewrite H, andb_true_r in A. apply negb_true_iff in A. now rewrite A.
  - inversion M as [| |? ? w1 w2 M1 M2| | | |]; subst.
    rewrite all_chars_append. apply orb_true_iff in A as [A|A].
    + now rewrite (IH1 A w1 M1).
    + rewrite (IH2 A w2 M2). apply andb_false_r.
  - apply andb_true_iff in A as [A1 A2].
    inversion M; subst; [now apply IH1 | now apply IH2].
  - apply andb_true_iff in A as [L A]. apply Nat.ltb_lt in L.
    inversion M as [| | | | | |? ? ? ? k ? T Lo Hi]; subst.
    destruct T as [|k w1 w2 M1 T]; [lia|].
    rewrite all_chars_append, (IH A w1 M1). reflexivity.
  - inversion M; subst. now apply IH.
Qed.

(** [re.sub] leaves a text of allowed characters as it is when the pattern
    avoids them. *)
Lemma sub_scan_avoids (allowed : ascii -> bool) (r : regex) (tmpl : list titem) :
  avoids allowed r = true ->
  forall s, all_chars allowed s = true -> sub_scan r tmpl s 0 = s.
Proof.
  intros A.
  assert (N : forall s, all_chars allowed s = true -> match_at r false s = None).
  { intros s H. destruct (match_at r false s) as [[n caps]|] eqn:E; [|reflexivity].
    apply match_at_sound in E as (w & rest & -> & M & _).
    rewrite all_chars_append, (avoids_matches allowed r A w M) in H.
    discriminate. }
  induction s as [|c s IH]; intros H; cbn [sub_scan]; rewrite (N _ H);
    [reflexivity|].
  cbn [all_chars] in H. apply andb_true_iff in H as [_ H]. now rewrite IH.
Qed.

Lemma sub_avoids (allowed : ascii -> bool) (r : regex) (repl s : str)
    (tmpl : list titem) :
  avoids allowed r = true ->
  parse_template (groups r) None repl = Ok tmpl ->
  all_chars allowed s = true ->
  sub r repl s = Ok s.
Proof.
  intros A T H. unfold sub. rewrite T. cbn [bind].
  now rewrite (sub_scan_avoids allowed r tmpl A s H).
Qed.

Lemma find_none_occurs (p s : str) :
  find p s = None -> occurs (prefix p) s = false.
Proof.
  induction s as [|c s IH]; rewrite find_unfold; cbn [occurs];
    destruct (prefix p _); try discriminate; [reflexivity|].
  destruct (find p s); [discriminate|]. intros _. now rewrite IH.
Qed.

(** [re.sub] of a literal word leaves a text without the word as it is. *)
Lemma sub_str_absent (p repl s : str) (tmpl : list titem) :
  parse_template 0 None repl = Ok tmpl ->
  contains p s = false ->
  sub (Str p) repl s = Ok s.
Proof.
  intros T C. unfold sub.
  rewrite groups_Str, T. cbn [bind]. f_equal.
  apply sub_scan_no_match with (starts := prefix p).
  - intros s' n caps M.
    apply match_at_sound in M as (w & rest & -> & M & _).
    apply matches_str in M. subst w. apply prefix_append.
  - apply find_none_occurs. unfold contains in C.
    now destruct (find p s).
Qed.

(** A token without a backslash, between two spaces, is a template. *)
Lemma spaced_template (ngroups : nat) (token : str) :
  no_backslash token = true ->
  exists tmpl, parse_template ngroups None (spaced token) = Ok tmpl.
Proof.
  intros H. unfold spaced. rewrite <- append_assoc.
  apply parse_template_plain with (rest := [TLit " "%char]); [|reflexivity].
  cbn [append all_chars]. exact H.
Qed.

Lemma groups_alt_chr (p : ascii) (ps : list ascii) :
  groups (alt (Chr p) (map Chr ps)) = 0.
Proof.
  revert p. induction ps as [|q ps IH]; intros p; [reflexivity|].
  cbn [map alt groups]. now rewrite IH.
Qed.

(** ** The pipeline on quoted text *)

(** A text without a backslash is, as a template, the text itself. *)
Lemma parse_template_literal (ngroups : nat) (s : str) :
  no_backslash s = true -> parse_template ngroups None s = Ok (literal s).
Proof.
  unfold no_backslash. induction s as [|c s IH]; [reflexivity|].
  cbn [all_chars]. intros H. apply andb_true_iff in H as [N H].
  cbn [parse_template literal]. rewrite N, (IH H). reflexivity.
Qed.

(** C2 fails on the code: [filterStrings] puts the whole text, between two
    spaces, in the place of a quoted literal, where the spec has a STRING
    token.  On every text without a backslash the replacement is the text
    itself; on the text of the example the quoted literal is still in the
    output of the pass and of the pipeline. *)
Theorem filterStrings_inserts_text :
  (forall text : str,
      no_backslash text = true ->
      filterStrings text
      = Ok (sub_scan re_strings (literal (" " ++ text ++ " ")) text 0))
  /\ filterStrings ("say " ++ quoted "foo")
     = Ok ("say " ++ " " ++ ("say " ++ quoted "foo") ++ " ")
  /\ applyFiltersForString sintax ("say " ++ quoted "foo") []
     = Ok ("say say " ++ quoted "foo").
Proof.
  split.
  - intros text H. unfold filterStrings, sub, spaced.
    rewrite parse_template_literal; [reflexivity|].
    unfold no_backslash in *. cbn [append all_chars].
    now rewrite all_chars_append, H.
  - split; vm_compute; reflexivity.
Qed.

(** ** The matcher finds every word of the pattern *)

Lemma orelse_left {A : Type} (x : option A) (y : unit -> option A) :
  x <> None -> orelse x y <> None.
Proof. destruct x; simpl; congruence. Qed.

Lemma orelse_right {A : Type} (x : option A) (y : unit -> option A) :
  y tt <> None -> orelse x y <> None.
Proof. destruct x; simpl; congruence. Qed.

Lemma rep_loop_complete (r : regex)
    (body : str -> captures -> cont -> option (str * captures))
    (greedy : bool) (lo : nat) (hi : option nat) (k : cont) (rest : str) :
  complete_body r body ->
  (forall caps', k rest caps' <> None) ->
  forall (n : nat) (w : str),
    times (matches r) n w ->
    forall (fuel count : nat) (caps : captures),
      lo <= count + n -> at_most hi (count + n) ->
      lo - count + length (w ++ rest) < fuel ->
      rep_loop body greedy lo hi k fuel count (w ++ rest) caps <> None.
Proof.
  intros Hbody Hk n w T.
  induction T as [|n w1 w2 M1 T IH]; intros fuel count caps Hlo Hhi Hfuel.
  - destruct fuel as [|fuel]; [lia|].
    cbn [rep_loop].
    assert (Hstop : (if lo <=? count then k ("" ++ rest) caps else None) <> None).
    { replace (lo <=? count) with true by (symmetry; apply Nat.leb_le; lia).
      apply Hk. }
    destruct greedy.
    + apply orelse_right. exact Hstop.
    + apply orelse_left. exact Hstop.
  - destruct (orb ((count <? lo)) (0 <? length w1)) eqn:Progress.
    + destruct fuel as [|fuel]; [lia|].
      cbn [rep_loop].
      assert (Hagain :
        (if below hi count
         then body ((w1 ++ w2) ++ rest) caps
                (fun s' caps' =>
                   if (count <? lo) || (length s' <? length ((w1 ++ w2) ++ rest))
                   then rep_loop body greedy lo hi k fuel (S count) s' caps'
                   else None)
         else None) <> None).
      { replace (below hi count) with true.
        2:{ symmetry. unfold below. destruct hi as [h|]; [|reflexivity].
            simpl in Hhi. apply Nat.ltb_lt. lia. }
        rewrite append_assoc. apply Hbody; [exact M1|].
        intro caps'.
        rewrite !length_append in Hfuel.
        replace ((count <? lo) || (length (w2 ++ rest) <? length (w1 ++ w2 ++ rest)))
          with true.
        2:{ symmetry. apply orb_true_iff. apply orb_true_iff in Progress.
            destruct Progress as [P|P]; [left; exact P|right].
            apply Nat.ltb_lt in P. apply Nat.ltb_lt.
            rewrite !length_append. lia. }
        apply IH.
        - lia.
        - replace (S count + n) with (count + S n) by lia. exact Hhi.
        - rewrite length_append.
          apply orb_true_iff in Progress. destruct Progress as [P|P].
          + apply Nat.ltb_lt in P. lia.
          + apply Nat.ltb_lt in P. lia. }
      destruct greedy.
      * apply orelse_left. exact Hagain.
      * apply orelse_right. exact Hagain.
    + apply orb_false_iff in Progress. destruct Progress as [P1 P2].
      apply Nat.ltb_ge in P1. apply Nat.ltb_ge in P2.
      assert (E : w1 = "") by (destruct w1; [reflexivity | simpl in P2; lia]).
      subst w1. simpl append at 1.
      apply IH.
      * lia.
      * destruct hi as [h|]; simpl in *; [lia | exact I].
      * simpl in Hfuel. exact Hfuel.
Qed.

Lemma exec_complete (r : regex) : complete_body r (exec r).
Proof.
  induction r as [|a|r1 IH1 r2 IH2|r1 IH1 r2 IH2|greedy lo hi r1 IH1|n r1 IH1];
    intros w rest caps k M Hk.
  - inversion M; subst. simpl. apply Hk.
  - inversion M as [|a' c Hc| | | | |]; subst. simpl. rewrite Hc. apply Hk.
  - inversion M as [| |r1' r2' w1 w2 M1 M2| | | |]; subst.
    cbn [exec]. rewrite append_assoc.
    apply IH1; [exact M1|]. intro caps'. apply IH2; assumption.
  - inversion M as [| | |r1' r2' w' M1|r1' r2' w' M2| |]; subst; cbn [exec].
    + apply orelse_left. apply IH1; assumption.
    + apply orelse_right. apply IH2; assumption.
  - inversion M as [| | | | | |g lo' hi' r' n w' T Hlo Hhi]; subst.
    rewrite exec_Rep.
    apply (rep_loop_complete r1 (exec r1) greedy lo hi k rest IH1 Hk n w T).
    + simpl. exact Hlo.
    + simpl. exact Hhi.
    + lia.
  - inversion M as [| | | | |n' r' w' M1|]; subst.
    cbn [exec]. apply IH1; [exact M1|]. intro caps'. apply Hk.
Qed.

(** A text that starts with a word of the pattern is matched at its
    start. *)
Lemma match_at_complete (r : regex) (w rest : str) :
  matches r w -> match_at r false (w ++ rest) <> None.
Proof.
  intro M. rewrite match_at_accept.
  pose proof (exec_complete r w rest [] accept M) as H.
  destruct (exec r (w ++ rest) [] accept) as [[s' caps]|]; [discriminate|].
  exfalso. apply H; [|reflexivity]. intro caps'. discriminate.
Qed.

(** ** The scan of [re.sub], one match at a time *)

Lemma never_empty_matches (r : regex) (w : str) :
  never_empty r = true -> matches r w -> w <> "".
Proof.
  intros NE M E. subst w.
  pose proof (avoids_matches (fun _ => false) r NE "" M) as H.
  simpl in H. discriminate.
Qed.

Lemma drop_length_le (n : nat) (s : str) : length (drop n s) <= length s.
Proof.
  revert s. induction n as [|n IH]; intros [|c s]; simpl; try lia.
  specialize (IH s). lia.
Qed.

Lemma sub_scan_skip (r : regex) (tmpl : list titem) (n : nat) :
  forall s : str,
    n <= length s -> sub_scan r tmpl s n = sub_scan r tmpl (drop n s) 0.
Proof.
  induction n as [|n IH]; intros s L.
  - destruct s; reflexivity.
  - destruct s as [|c s]; simpl in L; [lia|].
    simpl. apply IH. lia.
Qed.

Lemma match_at_empty_text (r : regex) :
  never_empty r = true -> match_at r false "" = None.
Proof.
  intro NE. destruct (match_at r false "") as [[n caps]|] eqn:E; [|reflexivity].
  apply match_at_sound in E. destruct E as (w & rest & E & M & _).
  destruct w; [|discriminate].
  exfalso. exact (never_empty_matches r "" NE M eq_refl).
Qed.

(** The scan is one of three steps at a time: the end of the text, a
    character at which the pattern does not match, or a match, which is
    replaced. *)
Lemma sub_scan_ind (r : regex) (tmpl : list titem) (P : str -> str -> Prop) :
  never_empty r = true ->
  P "" "" ->
  (forall c s out,
      match_at r false (String c s) = None ->
      P s out -> P (String c s) (String c out)) ->
  (forall w rest caps out,
      matches r w -> w <> "" ->
      match_at r false (w ++ rest) = Some (length w, caps) ->
      P rest out -> P (w ++ rest) (expand tmpl w caps ++ out)) ->
  forall s, P s (sub_scan r tmpl s 0).
Proof.
  intros NE Hnil Hskip Hhit s.
  remember (length s) as m eqn:Hm.
  revert s Hm. induction m as [m IH] using lt_wf_ind. intros s Hm.
  destruct s as [|c s].
  - simpl. rewrite (match_at_empty_text r NE). exact Hnil.
  - cbn [sub_scan].
    destruct (match_at r false (String c s)) as [[n caps]|] eqn:E.
    + pose proof E as E'.
      apply match_at_sound in E'. destruct E' as (w & rest & Es & M & En).
      pose proof (never_empty_matches r w NE M) as Hw.
      destruct w as [|a w]; [congruence|].
      simpl in Es. injection Es as Ea Es. subst a.
      subst n. simpl length. cbv iota.
      replace (take (S (length w)) (String c s)) with (String c w).
      2:{ rewrite Es. simpl. now rewrite take_append. }
      rewrite sub_scan_skip by (rewrite Es, length_append; lia).
      replace (drop (length w) s) with rest by (rewrite Es; now rewrite drop_append).
      pose proof (Hhit (String c w) rest caps (sub_scan r tmpl rest 0) M Hw) as H.
      simpl append in H at 1 2. rewrite <- Es in H.
      apply H; [exact E|].
      apply (IH (length rest)); [|reflexivity].
      subst m. simpl. rewrite Es, length_append. lia.
    + apply Hskip; [exact E|].
      apply (IH (length s)); [|reflexivity]. subst m. simpl. lia.
Qed.

(** ** Templates without a group *)

Lemma expand_literal (t whole : str) (caps : captures) :
  expand (literal t) whole caps = t.
Proof.
  induction t as [|c t IH]; simpl; [reflexivity | now rewrite IH].
Qed.

Lemma sub_literal (r : regex) (t s : str) :
  no_backslash t = true ->
  sub r t s = Ok (sub_scan r (literal t) s 0).
Proof.
  intro H. unfold sub. rewrite (parse_template_literal _ _ H). reflexivity.
Qed.

Lemma no_backslash_spaced (token : str) :
  no_backslash token = true -> no_backslash (spaced token) = true.
Proof.
  unfold no_backslash, spaced. intro H.
  simpl. rewrite all_chars_append, H. reflexivity.
Qed.

(** ** [Filter.diff]: the first occurrence *)

Lemma find_some (k s : str) :
  forall i : nat,
    find k s = Some i ->
    exists pre post,
      s = pre ++ k ++ post /\ length pre = i
      /\ take i s = pre /\ drop (i + length k) s = post
      /\ forall pre' post', s = pre' ++ k ++ post' -> i <= length pre'.
Proof.
  induction s as [|c s IH]; intros i; rewrite find_unfold;
    destruct (prefix k _) eqn:P.
  - intros [= <-]. destruct k as [|a k]; [|discriminate].
    exists "", "". repeat split; try reflexivity. intros; lia.
  - discriminate.
  - intros [= <-]. apply prefix_split in P as [suffix E].
    exists "", suffix. rewrite E. simpl plus. rewrite drop_append.
    repeat split; try reflexivity. intros; lia.
  - destruct (find k s) as [j|] eqn:F; [|discriminate].
    intros [= <-].
    destruct (IH j eq_refl) as (pre & post & E & L & T & D & Min).
    exists (String c pre), post. simpl. rewrite T, D, L, <- E.
    repeat split; try reflexivity.
    intros pre' post' E'. destruct pre' as [|c' pre'].
    + simpl in E'. rewrite E', prefix_append in P. discriminate.
    + simpl in E'. injection E' as _ E'. specialize (Min _ _ E'). simpl. lia.
Qed.

Lemma find_none (k s : str) :
  find k s = None -> forall pre post, s <> pre ++ k ++ post.
Proof.
  induction s as [|c s IH]; rewrite find_unfold;
    destruct (prefix k _) eqn:P; try discriminate; intros F pre post E.
  - destruct pre; [|discriminate]. simpl in E.
    rewrite E, prefix_append in P. discriminate.
  - destruct (find k s) eqn:F'; [discriminate|].
    destruct pre as [|c' pre].
    + simpl in E. rewrite E, prefix_append in P. discriminate.
    + simpl in E. injection E as _ E. exact (IH eq_refl _ _ E).
Qed.

(** X1: [Filter.diff s1 s2] removes the first occurrence of [s2] from [s1]:
    when it returns, [s1] is [pre ++ s2 ++ post], the result is
    [pre ++ post] and no occurrence of [s2] starts before [pre] ends; it
    raises [ValueError], and nothing else, exactly when [s2] does not occur
    in [s1]. *)
Theorem diff_first_occurrence (s1 s2 : str) :
  match Filter.diff s1 s2 with
  | Ok d =>
      exists pre post,
        s1 = pre ++ s2 ++ post /\ d = pre ++ post
        /\ forall pre' post',
             s1 = pre' ++ s2 ++ post' -> length pre <= length pre'
  | Raise e =>
      e = ValueError /\ forall pre post, s1 <> pre ++ s2 ++ post
  end.
Proof.
  rewrite diff_defined. unfold contains.
  destruct (find s2 s1) as [i|] eqn:F.
  - destruct (find_some _ _ _ F) as (pre & post & E & L & T & D & Min).
    exists pre, post. rewrite T, D. repeat split; try assumption.
    intros pre' post' E'. rewrite L. exact (Min _ _ E').
  - split; [reflexivity|]. exact (find_none _ _ F).
Qed.

(** ** [Filter.wordsNumber]: a count of the words *)

(** X2: [Filter.wordsNumber] never raises; its result is at most the number
    of words, and it is that number exactly when every word is a keyword
    form or alphabetic. *)
Theorem wordsNumber_bound (cfg : Sintax) (words : list str) :
  exists n : nat,
    Filter.wordsNumber cfg words = Ok n
    /\ n <= List.length words
    /\ (n = List.length words <->
        forall word, In word words ->
          Filter.isKeyWord cfg word = Ok true \/ isalpha word = true).
Proof.
  induction words as [|word words (n & E & B & Full)].
  - exists 0. repeat split; try reflexivity. intros _ w [].
  - cbn [Filter.wordsNumber]. unfold Filter.isKeyWord in *.
    rewrite isKeyWord_from_value. cbn [bind]. rewrite E. cbn [bind].
    destruct (existsb (keyword_of word) (TAGS cfg) || isalpha word) eqn:K.
    + exists (S n). split; [reflexivity|]. split; [simpl; lia|].
      simpl List.length. split.
      * intros En w [<-|I].
        -- rewrite isKeyWord_from_value.
           apply orb_true_iff in K as [K|K]; [left; now rewrite K | now right].
        -- apply Full; [lia | exact I].
      * intros H. f_equal. apply Full. intros w I. apply H. now right.
    + exists n. split; [reflexivity|]. split; [simpl; lia|].
      simpl List.length. split; [lia|].
      intros H. exfalso.
      destruct (H word (or_introl eq_refl)) as [A|A].
      * rewrite isKeyWord_from_value in A. injection A as A.
        rewrite A in K. discriminate.
      * rewrite A, orb_true_r in K. discriminate.
Qed.

(** ** [filterFirstAndEndSpaces]: one space at each end *)

Lemma init_last (s : str) (c : ascii) :
  last s = Some c -> s = init s ++ String c "".
Proof.
  induction s as [|d s IH]; [discriminate|].
  destruct s as [|e s].
  - intros [= ->]. reflexivity.
  - rewrite last_cons, init_cons. intros L. simpl. f_equal. exact (IH L).
Qed.

Lemma append_inv_head (l s t : str) : l ++ s = l ++ t -> s = t.
Proof.
  induction l as [|c l IH]; simpl; [trivial|].
  intros [= E]. exact (IH E).
Qed.

(** X3: [filterFirstAndEndSpaces] removes at most one space at each end and
    nothing else: the text is [l ++ result ++ r] where [l] is a space when
    the text starts with one and empty otherwise, and [r] is a space when
    what follows [l] ends with one and empty otherwise. *)
Theorem filterFirstAndEndSpaces_one_each_end (s : str) :
  exists l r : str,
    s = l ++ filterFirstAndEndSpaces s ++ r
    /\ (l = "" \/ l = " ") /\ (r = "" \/ r = " ")
    /\ (l = " " <-> exists rest, s = " " ++ rest)
    /\ (r = " " <-> exists core, s = l ++ core ++ " ").
Proof.
  rewrite filterFirstAndEndSpaces_steps.
  assert (First : exists l,
             s = l ++ strip_first s /\ (l = "" \/ l = " ")
             /\ (l = " " <-> exists rest, s = " " ++ rest)).
  { unfold strip_first. destruct s as [|c s].
    - exists "". simpl. repeat split; auto; try discriminate.
      intros [rest E]. discriminate.
    - cbn [starts_space drop]. destruct (Ascii.eqb_spec c " ") as [->|N].
      + exists " ". repeat split; auto. now exists s.
      + exists "". simpl. repeat split; auto; try discriminate.
        intros [rest E]. simpl in E. injection E as E _. now elim N. }
  destruct First as (l & El & Hl & Il).
  set (t := strip_first s) in *.
  assert (Last : exists r,
             t = strip_last t ++ r /\ (r = "" \/ r = " ")
             /\ (r = " " <-> last t = Some " "%char)).
  { unfold strip_last. destruct (last t) as [c|] eqn:L.
    - destruct (Ascii.eqb_spec c " ") as [->|N].
      + exists " ". split; [now apply init_last|]. repeat split; auto.
      + exists "". rewrite append_nil_r.
        repeat split; auto; try discriminate.
        intros [= E]. now elim N.
    - exists "". rewrite append_nil_r. repeat split; auto; discriminate. }
  destruct Last as (r & Er & Hr & Ir).
  exists l, r. split; [|split; [exact Hl|split; [exact Hr|split; [exact Il|]]]].
  - rewrite <- Er. exact El.
  - rewrite Ir. split.
    + intros L. exists (init t). rewrite <- (init_last _ _ L). exact El.
    + intros [core E]. rewrite El in E at 1.
      apply append_inv_head in E. rewrite E. apply last_append_char.
Qed.

(** ** [filterLongSpaces]: idempotent, and only whitespace is touched *)

Lemma collapse_collapse (s : str) :
  forall b : bool,
    collapse false (collapse b s) = collapse b s
    /\ collapse true (collapse true s) = collapse true s.
Proof.
  induction s as [|c s IH]; intros b; [now split|].
  destruct (IH true) as [IH1 IH2]. destruct (IH false) as [IH3 _].
  cbn [collapse]. destruct (char_isspace c) eqn:W.
  - split; [|exact IH2].
    destruct b; [exact IH1|].
    cbn [collapse]. rewrite (space_isspace " " eq_refl). now rewrite IH2.
  - cbn [collapse]. rewrite W, IH3. now split.
Qed.

Lemma collapse_black (s : str) :
  forall b : bool,
    black (collapse b s) = black s
    /\ all_chars black_or_space (collapse b s) = true
    /\ length (collapse b s) <= length s.
Proof.
  induction s as [|c s IH]; intros b; [now repeat split|].
  cbn [collapse black]. destruct (char_isspace c) eqn:W.
  - destruct (IH true) as (B & A & L). destruct b.
    + repeat split; [exact B | exact A | simpl; lia].
    + cbn [black all_chars length]. rewrite (space_isspace " " eq_refl).
      repeat split; [exact B | | lia].
      rewrite A. reflexivity.
  - destruct (IH false) as (B & A & L).
    cbn [black all_chars length]. rewrite W, B, A.
    unfold black_or_space. rewrite W.
    repeat split; lia.
Qed.

(** X4: [filterLongSpaces] never raises and is idempotent; it keeps the
    characters that are no whitespace, in order, leaves no whitespace
    character other than the space, and never lengthens the text. *)
Theorem filterLongSpaces_idempotent (s : str) :
  exists t : str,
    filterLongSpaces s = Ok t
    /\ filterLongSpaces t = Ok t
    /\ black t = black s
    /\ all_chars black_or_space t = true
    /\ length t <= length s.
Proof.
  exists (collapse false s). rewrite !filterLongSpaces_collapse.
  destruct (collapse_collapse s false) as [C _].
  destruct (collapse_black s false) as (B & A & L).
  rewrite C. repeat split; assumption.
Qed.

(** ** [filterMeaninglessSentences]: the text behind the last period *)

Lemma sentences_from_tail (tail : str) :
  no_period tail = true ->
  forall sentence, sentences_from sentence tail = [].
Proof.
  unfold no_period.
  induction tail as [|c tail IH]; intros N sentence; [reflexivity|].
  simpl in N. apply andb_true_iff in N as [N1 N2].
  cbn [sentences_from]. apply negb_true_iff in N1. rewrite N1. cbn [andb].
  now apply IH.
Qed.

Lemma sentences_from_append (s tail : str) :
  no_period tail = true ->
  forall sentence,
    sentences_from sentence (s ++ tail) = sentences_from sentence s.
Proof.
  intros N. induction s as [|c s IH]; intros sentence.
  - simpl. now apply sentences_from_tail.
  - cbn [append sentences_from].
    destruct (Ascii.eqb c "." && (0 <? length sentence)); now rewrite IH.
Qed.

(** X5: what follows the last period of a text plays no part in
    [filterMeaninglessSentences]: appending a text without a period changes
    neither the returned text nor the printed lines.  A text without any
    period is returned as the empty text. *)
Theorem filterMeaninglessSentences_drops_tail (cfg : Sintax) (s tail : str) :
  no_period tail = true ->
  filterMeaninglessSentences cfg (s ++ tail) = filterMeaninglessSentences cfg s
  /\ filterMeaninglessSentences cfg tail = Ok ("", []).
Proof.
  intros N. unfold filterMeaninglessSentences.
  rewrite !sentences_loop_spec. rewrite (sentences_from_append s tail N).
  split; [reflexivity|].
  rewrite (sentences_from_tail tail N). reflexivity.
Qed.

Lemma filterMeaninglessSentences_drops_tail_witness :
  no_period " and so on" = true
  /\ filterMeaninglessSentences sintax ("It copies a file." ++ " and so on")
     = filterMeaninglessSentences sintax "It copies a file."
  /\ filterMeaninglessSentences sintax " and so on" = Ok ("", []).
Proof.
  split; [reflexivity|].
  apply (filterMeaninglessSentences_drops_tail sintax "It copies a file."
           " and so on").
  reflexivity.
Defined.

(** ** Templates of the pipeline *)

Lemma sub_ok (r : regex) (repl s : str) (tmpl : list titem) :
  parse_template (groups r) None repl = Ok tmpl ->
  sub r repl s = Ok (sub_scan r tmpl s 0).
Proof. intros E. unfold sub. now rewrite E. Qed.

Lemma parse_template_app (ngroups : nat) (plain t : str) :
  no_backslash plain = true ->
  parse_template ngroups None (plain ++ t) =
  (rest <- parse_template ngroups None t ;; Ok (literal plain ++ rest)%list).
Proof.
  unfold no_backslash. induction plain as [|c plain IH]; intros A.
  - simpl. destruct (parse_template ngroups None t); reflexivity.
  - cbn [all_chars] in A. apply andb_true_iff in A as [N A].
    cbn [append parse_template]. rewrite N, (IH A). cbn [bind].
    destruct (parse_template ngroups None t); reflexivity.
Qed.

Lemma bad_escape_facts (c : ascii) :
  bad_escape c = true ->
  Ascii.eqb c "g" = false /\ Ascii.eqb c "0" = false
  /\ is_ascii_digit c = false /\ escape c = None
  /\ is_ascii_letter c = true.
Proof.
  assert (A : for_all_chars
                (fun c => implb (bad_escape c)
                   (negb (Ascii.eqb c "g") && negb (Ascii.eqb c "0")
                    && negb (is_ascii_digit c)
                    && match escape c with Some _ => false | None => true end
                    && is_ascii_letter c)) = true)
    by (vm_compute; reflexivity).
  intros B. pose proof (for_all_chars_spec _ A c) as H. cbv beta in H.
  rewrite B in H. cbn [implb] in H.
  repeat (apply andb_true_iff in H as [H ?]).
  repeat split; try (now apply negb_true_iff); try assumption.
  now destruct (escape c).
Qed.

Lemma parse_template_bad_escape (ngroups : nat) (c : ascii) (t : str) :
  bad_escape c = true ->
  parse_template ngroups None (String backslash (String c t)) = Raise ReError.
Proof.
  intros B. destruct (bad_escape_facts c B) as (G & Z & D & E & L).
  cbn [parse_template].
  replace (Ascii.eqb backslash backslash) with true by reflexivity.
  cbn [negb]. rewrite G, Z, D, E, L. reflexivity.
Qed.

Lemma lower_append (s t : str) : lower (s ++ t) = lower s ++ lower t.
Proof. induction s as [|c s IH]; simpl; [reflexivity | now rewrite IH]. Qed.

Lemma lower_no_backslash (s : str) :
  no_backslash s = true -> no_backslash (lower s) = true.
Proof.
  assert (A : for_all_chars
                (fun c => implb (negb (Ascii.eqb c backslash))
                                (negb (Ascii.eqb (char_lower c) backslash)))
              = true) by (vm_compute; reflexivity).
  unfold no_backslash. induction s as [|c s IH]; [reflexivity|].
  cbn [all_chars lower]. intros H. apply andb_true_iff in H as [N H].
  rewrite (IH H), andb_true_r.
  pose proof (for_all_chars_spec _ A c) as I. cbv beta in I.
  rewrite N in I. exact I.
Qed.

(** X6: [applyFiltersForString] returns a text, whatever the parameters
    are, on every text without a backslash, for every vocabulary that the
    patterns read as written: the tokens that enter only a template hold no
    backslash, STABLE_REDUCTION is made of word characters, and the
    punctuation symbols, at least one, are neither ASCII letters nor ASCII
    digits. *)
Theorem applyFiltersForString_returns (cfg : Sintax) (text : str)
    (params : list str) :
  literal_vocabulary cfg = true ->
  no_backslash text = true ->
  exists out : str, applyFiltersForString cfg text params = Ok out.
Proof.
  intros V H. unfold literal_vocabulary, symbols_escaped in V.
  apply andb_true_iff in V as [V Vn]. apply andb_true_iff in Vn as [Vn _].
  apply andb_true_iff in V as [Vt Vs]. apply word_no_backslash in Vs.
  cbn [forallb] in Vt.
  repeat match type of Vt with
         | _ && _ = true => apply andb_true_iff in Vt as [? Vt]
         end.
  unfold applyFiltersForString.
  destruct (length text =? 0); [now exists text|].
  assert (P : forall r token s,
             no_backslash token = true ->
             exists tmpl, sub r (spaced token) s = Ok (sub_scan r tmpl s 0)).
  { intros r token s T.
    destruct (spaced_template (groups r) token T) as [tmpl E].
    exists tmpl. now apply sub_ok. }
  unfold filterStrings.
  destruct (P re_strings (lower text) (lower text)
              (lower_no_backslash _ H)) as [t0 ->]. cbn [bind].
  unfold filterTags.
  match goal with |- context [sub ?r (spaced ?tok) ?s] =>
    destruct (P r tok s) as [t1 ->]; [assumption|] end. cbn [bind].
  unfold filterRefs.
  match goal with |- context [sub ?r (spaced ?tok) ?s] =>
    destruct (P r tok s) as [t2 ->]; [assumption|] end. cbn [bind].
  unfold filterLinks.
  match goal with |- context [sub ?r (spaced ?tok) ?s] =>
    destruct (P r tok s) as [t3 ->]; [assumption|] end. cbn [bind].
  unfold filterStableReduction.
  destruct (parse_template_plain (groups re_stable_reduction)
              (" " ++ STABLE_REDUCTION cfg) "_\1_\2_ "
              [TLit "_"; TGroup 1; TLit "_"; TGroup 2; TLit "_"; TLit " "]%char)
    as [t4 E4]; [assumption | vm_compute; reflexivity|].
  rewrite append_assoc in E4. rewrite (sub_ok _ _ _ _ E4). cbn [bind].
  unfold filterURLs.
  match goal with |- context [sub ?r (spaced ?tok) ?s] =>
    destruct (P r tok s) as [t5 ->]; [assumption|] end. cbn [bind].
  unfold filterNumbers.
  match goal with |- context [sub ?r (spaced ?tok) ?s] =>
    destruct (P r tok s) as [t6 ->]; [assumption|] end. cbn [bind].
  unfold filterConstants.
  do 5 (match goal with |- context [sub ?r (spaced ?tok) ?s] =>
          destruct (P r tok s) as [? ->]; [assumption|] end; cbn [bind]).
  unfold filterFunctionInvocation.
  match goal with |- context [sub ?r (spaced ?tok) ?s] =>
    destruct (P r tok s) as [t7 ->]; [assumption|] end. cbn [bind].
  unfold expandWordsAndSymbols.
  destruct (PUNCTUATION cfg) as [|p ps]; [discriminate|].
  match goal with |- context [sub ?r " \1 " ?s] =>
    rewrite (sub_ok r " \1 " s [TLit " "; TGroup 1; TLit " "]%char)
      by (cbn [groups]; rewrite groups_alt_chr; vm_compute; reflexivity)
  end. cbn [bind].
  unfold unpackStableReduction.
  match goal with |- context [sub ?r " \1.\2. " ?s] =>
    rewrite (sub_ok r " \1.\2. " s
               [TLit " "; TGroup 1; TLit "."; TGroup 2; TLit "."; TLit " "]%char)
      by (unfold re_unpack; cbn [seq groups]; rewrite groups_Str;
          vm_compute; reflexivity)
  end. cbn [bind].
  rewrite filterLongSpaces_collapse. cbn [bind]. eauto.
Qed.

Lemma applyFiltersForString_returns_witness :
  literal_vocabulary sintax = true
  /\ no_backslash "Reads <b>3</b> files, e.g. from /tmp." = true
  /\ exists out : str,
       applyFiltersForString sintax "Reads <b>3</b> files, e.g. from /tmp."
         ["files"] = Ok out.
Proof.
  split; [vm_compute; reflexivity|].
  split; [vm_compute; reflexivity|].
  apply (applyFiltersForString_returns sintax
           "Reads <b>3</b> files, e.g. from /tmp." ["files"]);
    vm_compute; reflexivity.
Defined.

(** X7: a backslash in front of a letter that, once lowercased, is none of
    [a b f n r t v g] makes [applyFiltersForString] raise [re.error], when no
    backslash stands before it: [filterStrings] hands the lowercased text to
    [re.sub] as the replacement template, and such a pair is a bad escape of
    a template (Python 3.7 and later), whether or not the text holds a quoted
    literal. *)
Theorem applyFiltersForString_bad_escape (cfg : Sintax) (pre post : str)
    (c : ascii) (params : list str) :
  no_backslash pre = true ->
  bad_escape (char_lower c) = true ->
  applyFiltersForString cfg (pre ++ String backslash (String c post)) params
  = Raise ReError.
Proof.
  intros H B. unfold applyFiltersForString.
  replace (length (pre ++ String backslash (String c post)) =? 0) with false.
  2:{ symmetry. apply Nat.eqb_neq. rewrite length_append. simpl. lia. }
  rewrite lower_append. cbn [lower].
  replace (char_lower backslash) with backslash by reflexivity.
  unfold filterStrings, sub, spaced.
  replace (" " ++ (lower pre ++ String backslash (String (char_lower c) (lower post)))
             ++ " ")
    with ((" " ++ lower pre)
            ++ String backslash (String (char_lower c) (lower post ++ " "))).
  2:{ cbn [append]. f_equal. rewrite append_assoc. reflexivity. }
  rewrite parse_template_app.
  2:{ unfold no_backslash. cbn [append all_chars].
      apply (lower_no_backslash _ H). }
  rewrite (parse_template_bad_escape _ _ _ B). reflexivity.
Qed.

Lemma applyFiltersForString_bad_escape_witness :
  no_backslash "see C:" = true
  /\ bad_escape (char_lower "U") = true
  /\ applyFiltersForString sintax
       ("see C:" ++ String backslash (String "U" "sers")) []
     = Raise ReError.
Proof.
  split; [vm_compute; reflexivity|].
  split; [vm_compute; reflexivity|].
  apply (applyFiltersForString_bad_escape sintax "see C:" "sers" "U" []);
    vm_compute; reflexivity.
Defined.

(** ** The shape of what the pipeline returns *)

Lemma all_chars_init (p : ascii -> bool) (s : str) :
  all_chars p s = true -> all_chars p (init s) = true.
Proof.
  induction s as [|c s IH]; [reflexivity|].
  destruct s as [|d s]; [reflexivity|].
  rewrite init_cons. cbn [all_chars] in *. intros H.
  apply andb_true_iff in H as [C H]. rewrite C. now apply IH.
Qed.

Lemma trim_collapse_tidy (s : str) :
  tidy (filterFirstAndEndSpaces (collapse false s)) = true.
Proof.
  rewrite filterFirstAndEndSpaces_steps.
  destruct (collapse_single_spaced s false) as [S0 _].
  destruct (collapse_black s false) as (_ & A0 & _).
  destruct (single_spaced_strip_first _ S0) as [S1 F1].
  assert (A1 : all_chars black_or_space (strip_first (collapse false s)) = true).
  { unfold strip_first. destruct (collapse false s) as [|c t]; [reflexivity|].
    cbn [starts_space drop]. destruct (Ascii.eqb c " "); [|exact A0].
    cbn [all_chars] in A0. now apply andb_true_iff in A0 as [_ A0]. }
  set (t := strip_first (collapse false s)) in *.
  assert (P : starts_space (strip_last t) = false
              /\ last (strip_last t) <> Some " "%char
              /\ single_spaced (strip_last t) = true
              /\ all_chars black_or_space (strip_last t) = true).
  { unfold strip_last. destruct (last t) as [c|] eqn:L.
    - destruct (Ascii.eqb_spec c " ") as [->|N].
      + split; [now apply starts_space_init|].
        split; [now apply last_init_not_space|].
        split; [now apply single_spaced_init | now apply all_chars_init].
      + rewrite L. repeat split; try assumption. congruence.
    - rewrite L. repeat split; try assumption. discriminate. }
  destruct P as (P1 & P2 & P3 & P4).
  unfold tidy, ends_space. rewrite P1, P3, P4.
  destruct (last (strip_last t)) as [c|]; [|reflexivity].
  destruct (Ascii.eqb_spec c " ") as [->|]; [now elim P2 | reflexivity].
Qed.

(** What the pipeline returns is tidy. *)
Lemma applyFiltersForString_tidy (cfg : Sintax) (text : str)
    (params : list str) (out : str) :
  applyFiltersForString cfg text params = Ok out -> tidy out = true.
Proof.
  unfold applyFiltersForString.
  destruct (length text =? 0) eqn:NE.
  { apply length_zero in NE. subst text. now intros [= <-]. }
  repeat match goal with
         | |- bind ?m _ = Ok _ -> _ =>
             lazymatch m with
             | filterLongSpaces _ => fail
             | _ => destruct m as [?|?]; cbn [bind]; [|discriminate]
             end
         end.
  rewrite filterLongSpaces_collapse. cbn [bind]. intros [= <-].
  apply trim_collapse_tidy.
Qed.

(** X8: whenever [applyFiltersForString] returns, the text it returns does
    not start with a space, does not end with a space, has no two spaces in a
    row, and holds no whitespace character other than the space: no tab and
    no line break is left. *)
Theorem applyFiltersForString_shape (cfg : Sintax) (text : str)
    (params : list str) (out : str) :
  applyFiltersForString cfg text params = Ok out ->
  (forall rest, out <> " " ++ rest)
  /\ (forall pre, out <> pre ++ " ")
  /\ (forall pre post, out <> pre ++ "  " ++ post)
  /\ all_chars black_or_space out = true.
Proof.
  intros H. apply applyFiltersForString_tidy in H. unfold tidy in H.
  apply andb_true_iff in H as [H P4]. apply andb_true_iff in H as [H P3].
  apply andb_true_iff in H as [P1 P2].
  apply negb_true_iff in P1, P2. repeat split.
  - intros rest E. rewrite E in P1. discriminate.
  - intros pre E. unfold ends_space in P2.
    rewrite E, last_append_char in P2. discriminate.
  - intros pre post E. rewrite E, single_spaced_double in P3. discriminate.
  - exact P4.
Qed.

Lemma applyFiltersForString_shape_witness :
  applyFiltersForString sintax "  Reads  the file ,  then stops.  " []
     = Ok "reads the file , then stops ."
  /\ all_chars black_or_space "reads the file , then stops ." = true.
Proof.
  split; [vm_compute; reflexivity|].
  apply (applyFiltersForString_shape sintax
           "  Reads  the file ,  then stops.  " []
           "reads the file , then stops .").
  vm_compute; reflexivity.
Defined.

(** ** [filterParamNames]: where a parameter name is not replaced *)

Lemma replace_scan_absent (old new s : str) :
  occurs (prefix old) s = false -> replace_scan old new s 0 = s.
Proof.
  induction s as [|c s IH]; [reflexivity|].
  cbn [occurs replace_scan]. intros H. apply orb_false_iff in H as [P O].
  rewrite P, (IH O). reflexivity.
Qed.

Lemma replace_absent (s old new : str) :
  contains old s = false -> replace s old new = s.
Proof.
  unfold contains. destruct (find old s) eqn:F; [intros D; discriminate D|]. intros _.
  destruct old as [|o old'].
  - assert (Z : find "" s = Some 0) by (apply find_zero; now destruct s).
    congruence.
  - unfold replace. apply replace_scan_absent. now apply find_none_occurs.
Qed.

(** X9: a text in which no parameter name stands between two spaces comes
    out of [filterParamNames] unchanged. *)
Theorem filterParamNames_absent (cfg : Sintax) (text : str) (params : list str) :
  (forall param, In param params -> contains (spaced param) text = false) ->
  filterParamNames cfg text params = text.
Proof.
  unfold filterParamNames. generalize 0.
  induction params as [|param params IH]; intros i H; [reflexivity|].
  cbn [filterParamNames_from].
  rewrite replace_absent by (apply H; now left).
  apply IH. intros p I. apply H. now right.
Qed.

Lemma filterParamNames_absent_witness :
  (forall param, In param ["src"; "dst"] ->
     contains (spaced param) "copies src, then dst" = false)
  /\ filterParamNames sintax "copies src, then dst" ["src"; "dst"]
     = "copies src, then dst".
Proof.
  assert (H : forall param, In param ["src"; "dst"] ->
                contains (spaced param) "copies src, then dst" = false).
  { intros param [<-|[<-|[]]]; reflexivity. }
  split; [exact H|].
  apply (filterParamNames_absent sintax "copies src, then dst" ["src"; "dst"] H).
Defined.

Lemma find_short (k s : str) : length s < length k -> find k s = None.
Proof.
  intros L. destruct (find k s) as [i|] eqn:F; [|reflexivity].
  destruct (find_some _ _ _ F) as (pre & post & E & _).
  rewrite E, !length_append in L. lia.
Qed.

(** X10: two occurrences of a parameter name that share the space between
    them are not both replaced: [str.replace] goes on behind the space it
    has consumed, so in a text made of a space, the name, a space, the name
    and a space only the first name becomes the variable token. *)
Theorem filterParamNames_shared_space (cfg : Sintax) (param : str) :
  filterParamNames cfg (" " ++ param ++ " " ++ param ++ " ") [param]
  = " " ++ VARIABLE cfg ++ str_of_nat 0 ++ " " ++ param ++ " ".
Proof.
  unfold filterParamNames. cbn [filterParamNames_from].
  pose proof (replace_leftmost (spaced param)
                (spaced (VARIABLE cfg ++ str_of_nat 0)) "" (param ++ " ")) as R.
  cbn [append length] in R.
  replace (" " ++ param ++ " " ++ param ++ " ")
    with (spaced param ++ param ++ " ").
  2:{ unfold spaced. cbn [append]. f_equal. now rewrite append_assoc. }
  unfold spaced in *. cbn [append] in *. rewrite R.
  - rewrite replace_absent.
    + f_equal. rewrite !append_assoc. reflexivity.
    + unfold contains. rewrite find_short; [reflexivity|].
      cbn [length]. rewrite !length_append. simpl. lia.
  - discriminate.
  - apply find_zero. apply (prefix_append (String " " (param ++ " "))).
Qed.

(** ** Records: what [applyFiltersForMethod] keeps, and when it fails *)

Lemma mapM_Forall2 (A B : Type) (f : A -> result B) (xs : list A) :
  forall ys : list B,
    mapM f xs = Ok ys -> Forall2 (fun x y => f x = Ok y) xs ys.
Proof.
  induction xs as [|x xs IH]; intros ys H; cbn [mapM] in H.
  - injection H as <-. constructor.
  - destruct (f x) as [y|e] eqn:F; [|discriminate]. cbn [bind] in H.
    destruct (mapM f xs) as [ys'|e] eqn:M; [|discriminate]. cbn [bind] in H.
    injection H as <-. constructor; [exact F | now apply IH].
Qed.

Lemma mapM_In_raise (A B : Type) (f : A -> result B) (xs : list A) (x : A)
    (e : exn) :
  In x xs -> f x = Raise e -> exists e', mapM f xs = Raise e'.
Proof.
  intros I R. induction xs as [|a xs IH]; [now elim I|].
  cbn [mapM]. destruct (f a) as [y|e'] eqn:F; cbn [bind]; [|eauto].
  destruct I as [->|I]; [congruence|].
  destruct (IH I) as [e' ->]. cbn [bind]. eauto.
Qed.

Lemma Forall2_tidy (cfg : Sintax) (names texts outs : list str) :
  Forall2 (fun text out => applyFiltersForString cfg text names = Ok out)
    texts outs ->
  Forall (fun out => tidy out = true) outs.
Proof.
  induction 1 as [|text out texts outs H _ IH]; constructor; [|exact IH].
  exact (applyFiltersForString_tidy _ _ _ _ H).
Qed.

(** X11: when [applyFiltersForMethod] returns, the declared parameters are as
    they were, the summary is what the pipeline makes of the summary, and
    the parameter, result, exception and reference descriptions are, entry
    by entry and as many as before, what the pipeline makes of each entry,
    always with the names of all the declared parameters.  Every one of
    these texts of the returned record is tidy: no space at either end, no
    two spaces in a row, no whitespace character other than the space. *)
Theorem applyFiltersForMethod_entries (cfg : Sintax) (method method' : Method) :
  applyFiltersForMethod cfg method = Ok method' ->
  let through (text out : str) :=
    applyFiltersForString cfg text (names_of method) = Ok out in
  description method' = description method
  /\ through (head (javaDoc method)) (head (javaDoc method'))
  /\ Forall2 through (params (javaDoc method)) (params (javaDoc method'))
  /\ Forall2 through (results (javaDoc method)) (results (javaDoc method'))
  /\ Forall2 through (throws (javaDoc method)) (throws (javaDoc method'))
  /\ Forall2 through (sees (javaDoc method)) (sees (javaDoc method'))
  /\ Forall (fun out => tidy out = true) (texts (javaDoc method')).
Proof.
  unfold applyFiltersForMethod, names_of, texts. intros H.
  destruct (variables_from cfg 0 _ _) as [vs|]; [|discriminate].
  cbn [bind] in H.
  destruct (applyFiltersForString cfg (head _) _) as [h|] eqn:Eh;
    [|discriminate]. cbn [bind] in H.
  destruct (mapM _ (params _)) as [ps|] eqn:Ep; [|discriminate].
  cbn [bind] in H.
  destruct (mapM _ (results _)) as [rs|] eqn:Er; [|discriminate].
  cbn [bind] in H.
  destruct (mapM _ (throws _)) as [ts|] eqn:Et; [|discriminate].
  cbn [bind] in H.
  destruct (mapM _ (sees _)) as [ss|] eqn:Es; [|discriminate].
  cbn [bind] in H. injection H as H. subst method'. cbn.
  apply mapM_Forall2 in Ep, Er, Et, Es.
  split; [reflexivity|]. split; [reflexivity|].
  split; [exact Ep|]. split; [exact Er|]. split; [exact Et|].
  split; [exact Es|].
  constructor; [exact (applyFiltersForString_tidy _ _ _ _ Eh)|].
  repeat (apply Forall_app; split); eapply Forall2_tidy; eassumption.
Qed.

Lemma applyFiltersForMethod_entries_witness :
  applyFiltersForMethod sintax example_method = Ok example_method'
  /\ description example_method' = description example_method
  /\ Forall2 (fun text out =>
                applyFiltersForString sintax text (names_of example_method)
                = Ok out)
       (params (javaDoc example_method)) (params (javaDoc example_method'))
  /\ Forall (fun out => tidy out = true) (texts (javaDoc example_method')).
Proof.
  split; [vm_compute; reflexivity|].
  pose proof (applyFiltersForMethod_entries sintax example_method
                example_method') as H.
  split; [|split]; apply H; vm_compute; reflexivity.
Defined.

(** X12: one text on which the pipeline raises makes the whole batch fail:
    when [applyFiltersForString] raises on the summary or on any parameter,
    result, exception or reference description of a record,
    [applyFiltersForMethod] raises on that record, and
    [applyFiltersForMethods] raises on every list that holds the record,
    whatever the filter is. *)
Theorem applyFiltersForMethods_one_failure (cfg : Sintax) (method : Method)
    (text : str) (e : exn) :
  In text (texts (javaDoc method)) ->
  applyFiltersForString cfg text (names_of method) = Raise e ->
  (exists e', applyFiltersForMethod cfg method = Raise e')
  /\ forall (methods : list Method) (filtrator : Method -> bool),
       In method methods ->
       exists e', applyFiltersForMethods cfg methods filtrator = Raise e'.
Proof.
  intros I R.
  assert (M : exists e', applyFiltersForMethod cfg method = Raise e').
  { unfold applyFiltersForMethod. fold (names_of method).
    unfold texts in I.
    destruct (variables_from cfg 0 _ _) as [vs|]; cbn [bind]; [|eauto].
    destruct I as [<-|I]; [rewrite R; cbn [bind]; eauto|].
    destruct (applyFiltersForString cfg (head _) _) as [h|]; cbn [bind];
      [|eauto].
    apply in_app_or in I as [I|I].
    { destruct (mapM_In_raise _ _
                  (fun t => applyFiltersForString cfg t (names_of method))
                  _ _ _ I R) as [e' ->]. cbn [bind]. eauto. }
    destruct (mapM _ (params _)) as [ps|]; cbn [bind]; [|eauto].
    apply in_app_or in I as [I|I].
    { destruct (mapM_In_raise _ _
                  (fun t => applyFiltersForString cfg t (names_of method))
                  _ _ _ I R) as [e' ->]. cbn [bind]. eauto. }
    destruct (mapM _ (results _)) as [rs|]; cbn [bind]; [|eauto].
    apply in_app_or in I as [I|I].
    { destruct (mapM_In_raise _ _
                  (fun t => applyFiltersForString cfg t (names_of method))
                  _ _ _ I R) as [e' ->]. cbn [bind]. eauto. }
    destruct (mapM _ (throws _)) as [ts|]; cbn [bind]; [|eauto].
    destruct (mapM_In_raise _ _
                (fun t => applyFiltersForString cfg t (names_of method))
                _ _ _ I R) as [e' ->]. cbn [bind]. eauto. }
  split; [exact M|].
  intros methods filtrator J. destruct M as [e' M].
  unfold applyFiltersForMethods, mapped.
  destruct (mapM_In_raise _ _ _ _ _ _ J M) as [e'' ->]. cbn [bind]. eauto.
Qed.

Lemma applyFiltersForMethods_one_failure_witness :
  In "the files under C:\Users" (texts (javaDoc failing_method))
  /\ applyFiltersForString sintax "the files under C:\Users"
       (names_of failing_method) = Raise ReError
  /\ exists e',
       applyFiltersForMethods sintax [example_method; failing_method]
         (fun _ => false) = Raise e'.
Proof.
  assert (I : In "the files under C:\Users" (texts (javaDoc failing_method)))
    by (right; left; reflexivity).
  assert (R : applyFiltersForString sintax "the files under C:\Users"
                (names_of failing_method) = Raise ReError)
    by (vm_compute; reflexivity).
  split; [exact I|]. split; [exact R|].
  apply (applyFiltersForMethods_one_failure sintax failing_method
           "the files under C:\Users" ReError I R).
  right; left; reflexivity.
Defined.

(** ** [convert]: only underscores are added *)

Lemma rep_loop_passes
    (body : str -> captures -> cont -> option (str * captures))
    (greedy : bool) (lo : nat) (hi : option nat) (k : cont) :
  passes body ->
  forall (fuel count : nat) (s : str) (caps : captures) (res : str * captures),
    rep_loop body greedy lo hi k fuel count s caps = Some res ->
    exists w s', s = w ++ s' /\ k s' caps = Some res.
Proof.
  intros B. induction fuel as [|fuel IH]; intros count s caps res H;
    [discriminate|].
  cbn [rep_loop] in H.
  assert (C : (if below hi count then
                 body s caps
                   (fun s' caps' =>
                      if (count <? lo) || (length s' <? length s)
                      then rep_loop body greedy lo hi k fuel (S count) s' caps'
                      else None)
               else None) = Some res
              \/ (if lo <=? count then k s caps else None) = Some res).
  { destruct greedy; apply orelse_some in H; tauto. }
  clear H. destruct C as [H|H].
  - destruct (below hi count); [|discriminate].
    apply B in H as (w1 & s1 & -> & H).
    destruct ((count <? lo) || (length s1 <? length (w1 ++ s1)));
      [|discriminate].
    apply IH in H as (w2 & s' & -> & K).
    exists (w1 ++ w2), s'. now rewrite append_assoc.
  - destruct (lo <=? count); [|discriminate]. now exists "", s.
Qed.

Lemma exec_passes (r : regex) : group_free r = true -> passes (exec r).
Proof.
  induction r as [|a|r1 IH1 r2 IH2|r1 IH1 r2 IH2|greedy lo hi r IH|n r IH];
    cbn [group_free]; intros G s caps k res H; cbn [exec] in H.
  - now exists "", s.
  - destruct s as [|c s']; [discriminate|].
    destruct (atom_match a c); [|discriminate].
    now exists (String c ""), s'.
  - apply andb_true_iff in G as [G1 G2].
    apply (IH1 G1) in H as (w1 & s1 & -> & H).
    apply (IH2 G2) in H as (w2 & s2 & -> & H).
    exists (w1 ++ w2), s2. now rewrite append_assoc.
  - apply andb_true_iff in G as [G1 G2].
    apply orelse_some in H as [H|H];
      [apply (IH1 G1) in H | apply (IH2 G2) in H]; exact H.
  - apply (rep_loop_passes _ _ _ _ _ (IH G)) in H. exact H.
  - discriminate.
Qed.

Lemma length_append_sub (w s : str) : length (w ++ s) - length s = length w.
Proof. rewrite length_append. lia. Qed.

(** A match of a pattern made of two groups, one behind the other: the
    captures are the two pieces of the match. *)
Lemma match_at_two_groups (a b : regex) (s : str) (n : nat) (caps : captures) :
  group_free a = true -> group_free b = true ->
  match_at (Seq (Group 1 a) (Group 2 b)) false s = Some (n, caps) ->
  exists w1 w2 rest,
    s = w1 ++ w2 ++ rest /\ n = length (w1 ++ w2)
    /\ capture 1 caps = Some w1 /\ capture 2 caps = Some w2.
Proof.
  intros Ga Gb. rewrite match_at_accept. cbn [exec].
  destruct (exec a s [] _) as [[s' caps']|] eqn:E; [|discriminate].
  intros H. injection H as <- <-.
  apply (exec_passes a Ga) in E as (w1 & s1 & -> & E).
  apply (exec_passes b Gb) in E as (w2 & s2 & -> & E).
  unfold accept in E. injection E as <- <-.
  exists w1, w2, s2. split; [reflexivity|].
  rewrite !length_append_sub, !take_append.
  split; [rewrite <- append_assoc; apply length_append_sub|].
  split; reflexivity.
Qed.

Lemma append_eq_length (a b x y : str) :
  a ++ x = b ++ y -> length a = length b -> a = b.
Proof.
  revert b. induction a as [|c a IH]; intros [|d b]; simpl; try discriminate;
    [reflexivity|].
  intros [= -> E] [= L]. f_equal. now apply IH.
Qed.

Lemma unscored_append (s t : str) :
  unscored (s ++ t) = unscored s ++ unscored t.
Proof.
  induction s as [|c s IH]; [reflexivity|]. simpl.
  destruct (Ascii.eqb c "_"); simpl; now rewrite IH.
Qed.

Lemma sub_scan_two_groups (a b : regex) :
  group_free a = true -> group_free b = true ->
  never_empty (Seq (Group 1 a) (Group 2 b)) = true ->
  forall s : str,
    let out := sub_scan (Seq (Group 1 a) (Group 2 b))
                 [TGroup 1; TLit "_"; TGroup 2]%char s 0 in
    unscored out = unscored s /\ length s <= length out.
Proof.
  intros Ga Gb NE. cbv zeta.
  apply (sub_scan_ind _ _
           (fun s out => unscored out = unscored s /\ length s <= length out) NE).
  - now split.
  - intros c s out _ [U L]. cbn [unscored length].
    rewrite U. split; [reflexivity | lia].
  - intros w rest caps out _ _ M [U L].
    apply (match_at_two_groups a b _ _ _ Ga Gb) in M
      as (w1 & w2 & rest' & E & Len & C1 & C2).
    rewrite <- append_assoc in E.
    pose proof (append_eq_length _ _ _ _ E Len) as ->.
    cbn [expand expand_item]. rewrite C1, C2, append_nil_r.
    rewrite !unscored_append, !length_append, U. cbn [unscored length].
    replace (Ascii.eqb "_" "_") with true by reflexivity.
    cbn [append]. rewrite append_assoc. split; [reflexivity|lia].
Qed.

(** X13: [convert] never raises, and it only puts underscores into the
    name before it lowercases: the result is [inserted.lower()] for a text
    [inserted] that is not shorter than the name, that without its
    underscores is the name without its underscores, character by
    character, and that is the name itself when the name holds no letter
    [A] to [Z]. *)
Theorem convert_keeps_name (name : str) :
  exists inserted : str,
    convert name = Ok (lower inserted)
    /\ unscored inserted = unscored name
    /\ length name <= length inserted
    /\ (no_upper name = true -> inserted = name).
Proof.
  unfold convert.
  assert (T : parse_template 2 None "\1_\2"
              = Ok [TGroup 1; TLit "_"; TGroup 2]%char)
    by (vm_compute; reflexivity).
  rewrite (sub_ok re_convert1 "\1_\2" name _ T). cbn [bind].
  rewrite (sub_ok re_convert2 "\1_\2" _ _ T). cbn [bind].
  eexists. split; [reflexivity|].
  destruct (sub_scan_two_groups (Atom Dot)
              (Seq (Atom (OneOf [AZ])) (Plus (Atom (OneOf [az]))))
              eq_refl eq_refl eq_refl name) as [U1 L1].
  fold re_convert1 in U1, L1 |-.
  set (s1 := sub_scan (Seq (Group 1 (Atom Dot)) _) _ name 0) in *.
  destruct (sub_scan_two_groups (Atom (OneOf [az; IRange "0" "9"]))
              (Atom (OneOf [AZ])) eq_refl eq_refl eq_refl s1) as [U2 L2].
  change (sub_scan re_convert1 [TGroup 1; TLit "_"%char; TGroup 2] name 0)
    with s1.
  change (sub_scan re_convert2 [TGroup 1; TLit "_"%char; TGroup 2] s1 0)
    with (sub_scan (Seq (Group 1 (Atom (OneOf [az; IRange "0" "9"])))
                        (Group 2 (Atom (OneOf [AZ]))))
            [TGroup 1; TLit "_"%char; TGroup 2] s1 0).
  set (s2 := sub_scan _ _ s1 0) in *.
  split; [rewrite U2, U1; reflexivity|].
  split; [lia|].
  intros N. unfold no_upper in N. subst s2.
  assert (E1 : s1 = name).
  { apply (sub_scan_avoids (fun c => negb (is_upper_az c)) re_convert1);
      [vm_compute; reflexivity | exact N]. }
  rewrite E1.
  apply (sub_scan_avoids (fun c => negb (is_upper_az c)) re_convert2);
    [vm_compute; reflexivity | exact N].
Qed.

(** ** [expandWordsAndSymbols]: a space on each side *)

Lemma exec_alt_chr (p : ascii) (ps : list ascii) (c : ascii) (s : str)
    (caps : captures) (k : cont) :
  exec (alt (Chr p) (map Chr ps)) (String c s) caps k =
  if existsb (Ascii.eqb c) (p :: ps) then k s caps else None.
Proof.
  revert p. induction ps as [|q ps IH]; intros p.
  - cbn [map alt Chr exec atom_match citem_match existsb].
    rewrite (Ascii.eqb_sym p c), orb_false_r. reflexivity.
  - cbn [map alt exec]. rewrite IH. cbn [Chr exec atom_match citem_match].
    cbn [existsb]. rewrite (Ascii.eqb_sym p c).
    destruct (Ascii.eqb c p); cbn [orb orelse].
    + destruct (k s caps) eqn:K; [reflexivity|].
      now destruct (Ascii.eqb c q || existsb (Ascii.eqb c) ps).
    + reflexivity.
Qed.

Lemma exec_alt_chr_empty (p : ascii) (ps : list ascii) (caps : captures)
    (k : cont) :
  exec (alt (Chr p) (map Chr ps)) "" caps k = None.
Proof.
  revert p. induction ps as [|q ps IH]; intros p; [reflexivity|].
  cbn [map alt exec]. rewrite IH. reflexivity.
Qed.

Lemma sub_scan_set_apart (p : ascii) (ps : list ascii) (s : str) :
  sub_scan (Group 1 (alt (Chr p) (map Chr ps)))
    [TLit " "; TGroup 1; TLit " "]%char s 0
  = set_apart (p :: ps) s.
Proof.
  induction s as [|c s IH].
  - cbn [sub_scan]. rewrite match_at_accept. cbn [exec].
    now rewrite exec_alt_chr_empty.
  - cbn [sub_scan set_apart]. rewrite match_at_accept. cbn [exec].
    rewrite exec_alt_chr. destruct (existsb (Ascii.eqb c) (p :: ps)).
    + unfold accept.
      replace (length (String c s) - length s) with 1
        by (change (length (String c s)) with (S (length s)); lia).
      cbn [take expand expand_item capture Nat.eqb append].
      now rewrite IH.
    + now rewrite IH.
Qed.

(** X14: [expandWordsAndSymbols] puts a space on each side of every
    punctuation symbol of the text and keeps every other character as it
    is, when the symbols, at least one, are neither letters nor digits. *)
Theorem expandWordsAndSymbols_set_apart (cfg : Sintax) (s : str) :
  symbols_escaped cfg = true ->
  expandWordsAndSymbols cfg s = Ok (set_apart (PUNCTUATION cfg) s).
Proof.
  unfold symbols_escaped, expandWordsAndSymbols. intros H.
  apply andb_true_iff in H as [N _].
  destruct (PUNCTUATION cfg) as [|p ps]; [discriminate|].
  rewrite (sub_ok _ " \1 " s [TLit " "; TGroup 1; TLit " "]%char)
    by (cbn [groups]; rewrite groups_alt_chr; vm_compute; reflexivity).
  now rewrite sub_scan_set_apart.
Qed.

Lemma expandWordsAndSymbols_set_apart_witness :
  symbols_escaped sintax = true
  /\ expandWordsAndSymbols sintax "stop (now), please."
     = Ok (set_apart (PUNCTUATION sintax) "stop (now), please.")
  /\ set_apart (PUNCTUATION sintax) "stop (now), please."
     = "stop  ( now )  ,  please . ".
Proof.
  split; [vm_compute; reflexivity|].
  split; [|vm_compute; reflexivity].
  apply (expandWordsAndSymbols_set_apart sintax "stop (now), please.").
  vm_compute; reflexivity.
Defined.

(** ** What a masking pass leaves behind *)

Lemma append_split (a y b z : str) :
  a ++ y = b ++ z ->
  (exists p, a = b ++ p /\ z = p ++ y)
  \/ (exists q, q <> "" /\ b = a ++ q /\ y = q ++ z).
Proof.
  revert b. induction a as [|c a IH]; intros b E.
  - destruct b as [|d b].
    + left. exists "". now split.
    + right. exists (String d b). repeat split; [discriminate | exact E].
  - destruct b as [|d b].
    + left. exists (String c a). split; [reflexivity|]. symmetry. exact E.
    + simpl in E. injection E as -> E.
      destruct (IH b E) as [(p & -> & ->)|(q & N & -> & ->)].
      * left. now exists p.
      * right. now exists q.
Qed.

Lemma last_append (pre q : str) : q <> "" -> last (pre ++ q) = last q.
Proof.
  intros N. induction pre as [|c pre IH]; [reflexivity|].
  cbn [append]. destruct (pre ++ q) as [|d u] eqn:E.
  - destruct pre; [simpl in E; congruence | discriminate].
  - rewrite last_cons. exact IH.
Qed.

Lemma free_of_class_append (key : ascii -> bool) (s t : str) :
  free_of_class key (s ++ t) = free_of_class key s && free_of_class key t.
Proof. apply all_chars_append. Qed.

Lemma free_of_append (c : ascii) (s t : str) :
  free_of c (s ++ t) = free_of c s && free_of c t.
Proof. apply all_chars_append. Qed.

Lemma closes_append (closer : option ascii) (pre tail : str) :
  closes closer tail -> closes closer (pre ++ tail).
Proof.
  destruct closer as [c|]; [|trivial]. cbn [closes].
  rewrite free_of_append. intros ->. apply andb_false_r.
Qed.

(** The scan of a masking pass: when every match is replaced by a text
    between two spaces that holds no character of the class [key], and the
    pattern matches wherever the text given starts with a word of [F]
    followed by the closing character, what the scan returns nowhere starts
    with such a word.  The words of [F] hold no space and hold a character
    of the class. *)
Lemma sub_scan_clears (r : regex) (tmpl : list titem) (F : str -> Prop)
    (closer : option ascii) (key : ascii -> bool) :
  never_empty r = true ->
  (forall w, F w ->
     w <> "" /\ free_of " " w = true /\ free_of_class key w = false) ->
  (forall w rest caps,
     match_at r false (w ++ rest) = Some (length w, caps) ->
     masked key closer (expand tmpl w caps)) ->
  forall s : str,
    (forall pre x,
       s = pre ++ x -> starts_with F closer x -> match_at r false x <> None) ->
    forall pre x,
      starts_with F closer x -> sub_scan r tmpl s 0 <> pre ++ x.
Proof.
  intros NE HF HT s.
  pose (P := fun (s out : str) =>
    (forall pre x,
       s = pre ++ x -> starts_with F closer x -> match_at r false x <> None) ->
    (forall pre x, starts_with F closer x -> out <> pre ++ x)
    /\ (forall w tail,
          w <> "" -> free_of " " w = true -> out = w ++ tail ->
          exists tail',
            s = w ++ tail' /\ (closes closer tail -> closes closer tail'))
    /\ (closes closer out -> closes closer s)).
  assert (All : P s (sub_scan r tmpl s 0)).
  { apply (sub_scan_ind r tmpl P NE); unfold P; clear P s.
    - intros _. split; [|split].
      + intros pre x (w & tail & Fw & -> & _) E.
        destruct (HF w Fw) as (N & _).
        destruct pre; [|discriminate]. destruct w; [congruence | discriminate].
      + intros w tail N _ E. destruct w; [congruence | discriminate].
      + trivial.
    - intros c s out M IH Comp.
      destruct IH as (A & B & C).
      { intros pre x E. apply (Comp (String c pre)). simpl. now rewrite E. }
      assert (C' : closes closer (String c out) -> closes closer (String c s)).
      { destruct closer as [d|]; [|trivial]. unfold closes, free_of in *.
        cbn [all_chars]. destruct (negb (Ascii.eqb c d)); [|trivial].
        cbn [andb]. exact C. }
      assert (B' : forall w tail,
                 w <> "" -> free_of " " w = true -> String c out = w ++ tail ->
                 exists tail',
                   String c s = w ++ tail'
                   /\ (closes closer tail -> closes closer tail')).
      { intros w tail N Sp E. destruct w as [|a w]; [congruence|].
        simpl in E. injection E as <- E.
        destruct w as [|b w].
        - simpl in E. subst tail. exists s. split; [reflexivity | exact C].
        - unfold free_of in Sp. cbn [all_chars] in Sp.
          apply andb_true_iff in Sp as [_ Sp].
          destruct (B (String b w) tail) as (tail' & -> & Cl);
            [discriminate | exact Sp | exact E|].
          exists tail'. now split. }
      split; [|split; [exact B' | exact C']].
      intros pre x St E. destruct pre as [|a pre].
      + simpl in E. subst x. destruct St as (w & tail & Fw & E & Cl).
        destruct (HF w Fw) as (N & Sp & _).
        destruct (B' w tail N Sp E) as (tail' & E' & Cl').
        apply (Comp "" (String c s) eq_refl); [|exact M].
        exists w, tail'. repeat split; [exact Fw | exact E' | exact (Cl' Cl)].
      + simpl in E. injection E as _ E. exact (A pre x St E).
    - intros w0 rest caps out _ _ M IH Comp.
      destruct IH as (A & B & C).
      { intros pre x E. apply (Comp (w0 ++ pre)). now rewrite E, append_assoc. }
      destruct (HT w0 rest caps M) as ((t & ET) & Kf & Cf).
      set (T := expand tmpl w0 caps) in *.
      split; [|split].
      + intros pre x (w & tail & Fw & -> & Cl) E.
        destruct (HF w Fw) as (N & Sp & Kw).
        symmetry in E.
        apply append_split in E as [(p & -> & E)|(q & Nq & E & E2)].
        * apply (A p (w ++ tail)); [|exact E]. now exists w, tail.
        * apply append_split in E2 as [(p & -> & _)|(q2 & _ & -> & _)].
          -- assert (L : last q = Some " "%char).
             { rewrite <- (last_append pre q Nq), <- E, ET.
               change (" " ++ t ++ " ") with (String " " (t ++ " ")).
               replace (String " " (t ++ " "))
                 with (String " " t ++ " ") by reflexivity.
               apply last_append_char. }
             apply init_last in L. rewrite L in Sp.
             unfold free_of in Sp. rewrite !all_chars_append in Sp.
             cbn [all_chars] in Sp. simpl in Sp.
             rewrite andb_false_r in Sp. discriminate.
          -- rewrite E in Kf. rewrite !free_of_class_append in Kf.
             rewrite Kw in Kf. rewrite andb_false_r in Kf. discriminate.
      + intros w tail N Sp E. exfalso. rewrite ET in E.
        destruct w as [|a w]; [congruence|].
        simpl in E. injection E as <- _.
        unfold free_of in Sp. simpl in Sp. discriminate.
      + destruct closer as [d|]; [|trivial]. cbn [closes] in *.
        rewrite !free_of_append, Cf. cbn [andb]. intros Co.
        rewrite (C Co). apply andb_false_r. }
  intros Comp. exact (proj1 (All Comp)).
Qed.

(** The same for a pass whose replacement is a token between two spaces. *)
Lemma sub_clears (r : regex) (token : str) (F : str -> Prop)
    (closer : option ascii) (key : ascii -> bool) (s : str) :
  never_empty r = true ->
  no_backslash token = true ->
  (forall w, F w ->
     w <> "" /\ free_of " " w = true /\ free_of_class key w = false) ->
  masked key closer (spaced token) ->
  (forall pre x,
     s = pre ++ x -> starts_with F closer x -> match_at r false x <> None) ->
  exists out,
    sub r (spaced token) s = Ok out
    /\ out = sub_scan r (literal (spaced token)) s 0
    /\ forall pre x, starts_with F closer x -> out <> pre ++ x.
Proof.
  intros NE NB HF Mk Comp. eexists. split; [|split; [reflexivity|]].
  - apply sub_literal. now apply no_backslash_spaced.
  - apply (sub_scan_clears r _ F closer key NE HF); [|exact Comp].
    intros w rest caps _. now rewrite expand_literal.
Qed.

Lemma masked_spaced (key : ascii -> bool) (closer : option ascii) (token : str) :
  key " "%char = false ->
  free_of_class key token = true ->
  match closer with
  | Some c => Ascii.eqb " " c = false /\ free_of c token = true
  | None => True
  end ->
  masked key closer (spaced token).
Proof.
  intros K0 K C. unfold masked, spaced. split; [now exists token|].
  split.
  - unfold free_of_class in *. cbn [append all_chars].
    rewrite all_chars_append, K. cbn [all_chars]. rewrite K0. reflexivity.
  - destruct closer as [c|]; [|trivial]. destruct C as [C0 C].
    unfold free_of in *. cbn [append all_chars].
    rewrite all_chars_append, C. cbn [all_chars]. rewrite C0. reflexivity.
Qed.

(** ** Words of a pattern, built by hand *)

Lemma matches_seq_eq (r1 r2 : regex) (w1 w2 w : str) :
  matches r1 w1 -> matches r2 w2 -> w = w1 ++ w2 -> matches (Seq r1 r2) w.
Proof. intros M1 M2 ->. now constructor. Qed.

Lemma times_atoms (a : atom) (u : str) :
  all_chars (atom_match a) u = true ->
  times (matches (Atom a)) (length u) u.
Proof.
  induction u as [|c u IH]; cbn [all_chars length]; intros H.
  - constructor.
  - apply andb_true_iff in H as [C H].
    apply (times_S _ (length u) (String c "") u); [now constructor | now apply IH].
Qed.

Lemma matches_star_atoms (a : atom) (u : str) :
  all_chars (atom_match a) u = true -> matches (Star (Atom a)) u.
Proof.
  intros H. apply matches_rep with (n := length u);
    [now apply times_atoms | lia | exact I].
Qed.

Lemma matches_plus_atoms (a : atom) (c : ascii) (u : str) :
  all_chars (atom_match a) (String c u) = true ->
  matches (Plus (Atom a)) (String c u).
Proof.
  intros H. apply matches_rep with (n := length (String c u));
    [now apply times_atoms | simpl; lia | exact I].
Qed.

Lemma matches_rep_none (greedy : bool) (hi : option nat) (r : regex) :
  matches (Rep greedy 0 hi r) "".
Proof.
  apply matches_rep with (n := 0); [constructor | lia|].
  destruct hi; simpl; [lia | exact I].
Qed.

Lemma matches_rep_one (greedy : bool) (lo : nat) (hi : option nat) (r : regex)
    (w : str) :
  matches r w -> lo <= 1 -> at_most hi 1 -> matches (Rep greedy lo hi r) w.
Proof.
  intros M L A. apply matches_rep with (n := 1); [|exact L | exact A].
  rewrite <- (append_nil_r w). apply times_S; [exact M | constructor].
Qed.

Lemma matches_rep_two (greedy : bool) (lo : nat) (hi : option nat) (r : regex)
    (w1 w2 : str) :
  matches r w1 -> matches r w2 -> lo <= 2 -> at_most hi 2 ->
  matches (Rep greedy lo hi r) (w1 ++ w2).
Proof.
  intros M1 M2 L A. apply matches_rep with (n := 2); [|exact L | exact A].
  apply times_S; [exact M1|].
  rewrite <- (append_nil_r w2). apply times_S; [exact M2 | constructor].
Qed.

Lemma matches_chr_self (c : ascii) : matches (Chr c) (String c "").
Proof. constructor. simpl. apply Ascii.eqb_refl. Qed.

Lemma matches_Str_self (p : str) : matches (Str p) p.
Proof.
  induction p as [|c p IH]; cbn [Str]; [constructor|].
  apply (matches_seq _ _ (String c "") p); [apply matches_chr_self | exact IH].
Qed.

Lemma first_occurrence (c : ascii) (s : str) :
  free_of c s = false ->
  exists u v, s = u ++ String c v /\ free_of c u = true.
Proof.
  unfold free_of. induction s as [|a s IH]; [discriminate|].
  cbn [all_chars]. destruct (Ascii.eqb_spec a c) as [->|N]; cbn [negb andb].
  - intros _. now exists "", s.
  - intros H. destruct (IH H) as (u & v & -> & Fu).
    exists (String a u), v. split; [reflexivity|].
    cbn [all_chars]. rewrite Fu.
    destruct (Ascii.eqb_spec a c); [contradiction | reflexivity].
Qed.

Lemma no_occurrence_class (key : ascii -> bool) (s : str) :
  (forall pre c post, key c = true -> s <> pre ++ String c post) ->
  free_of_class key s = true.
Proof.
  unfold free_of_class. induction s as [|a s IH]; [reflexivity|].
  intros H. cbn [all_chars]. destruct (key a) eqn:K.
  - exfalso. exact (H "" a s K eq_refl).
  - cbn [negb andb]. apply IH. intros pre c post Kc E.
    apply (H (String a pre) c post Kc). simpl. now rewrite E.
Qed.

Lemma all_chars_ext (p q : ascii -> bool) (s : str) :
  (forall c, p c = q c) -> all_chars p s = all_chars q s.
Proof.
  intros H. induction s as [|c s IH]; [reflexivity|].
  cbn [all_chars]. now rewrite H, IH.
Qed.

Lemma sub_scan_free_of_class (key : ascii -> bool) (r : regex)
    (tmpl : list titem) (s : str) :
  avoids (fun c => negb (key c)) r = true ->
  free_of_class key s = true -> sub_scan r tmpl s 0 = s.
Proof. intros A H. exact (sub_scan_avoids _ r tmpl A s H). Qed.

(** ** [filterNumbers]: no digit is left *)

(** X15: when the NUMBER token holds no backslash and no digit,
    [filterNumbers] returns a text without any digit, and returns a text
    without any digit as it is. *)
Theorem filterNumbers_no_digit (cfg : Sintax) (s : str) :
  no_backslash (NUMBER cfg) = true ->
  free_of_class is_ascii_digit (NUMBER cfg) = true ->
  exists out : str,
    filterNumbers cfg s = Ok out
    /\ free_of_class is_ascii_digit out = true
    /\ (free_of_class is_ascii_digit s = true -> out = s).
Proof.
  intros NB NK. unfold filterNumbers.
  destruct (sub_clears re_numbers (NUMBER cfg)
              (fun w => exists d, is_ascii_digit d = true /\ w = String d "")
              None is_ascii_digit s) as (out & E & Eo & Clear).
  - vm_compute; reflexivity.
  - exact NB.
  - intros w (d & D & ->). split; [discriminate|].
    unfold free_of, free_of_class. cbn [all_chars]. rewrite D.
    split; [|reflexivity].
    destruct (Ascii.eqb_spec d " ") as [->|]; [discriminate D | reflexivity].
  - apply masked_spaced; [reflexivity | exact NK | exact I].
  - intros pre x _ (w & tail & (d & D & ->) & -> & _).
    apply match_at_complete.
    unfold re_numbers. cbn [seq].
    apply (matches_seq_eq _ _ "" (String d ""));
      [apply matches_rep_none | | reflexivity].
    apply matches_group, matches_alt_r.
    apply matches_plus_atoms. cbn [all_chars atom_match citem_match].
    now rewrite D.
  - exists out. split; [exact E|]. split.
    + apply no_occurrence_class. intros pre c post D.
      apply Clear. exists (String c ""), post.
      repeat split. now exists c.
    + intros H. rewrite Eo.
      apply (sub_scan_free_of_class is_ascii_digit);
        [vm_compute; reflexivity | exact H].
Qed.

Lemma filterNumbers_no_digit_witness :
  no_backslash (NUMBER sintax) = true
  /\ free_of_class is_ascii_digit (NUMBER sintax) = true
  /\ exists out : str,
       filterNumbers sintax "took 3,5 s (-12%) on 2 of 10 runs" = Ok out
       /\ free_of_class is_ascii_digit out = true
       /\ (free_of_class is_ascii_digit "took 3,5 s (-12%) on 2 of 10 runs"
           = true -> out = "took 3,5 s (-12%) on 2 of 10 runs").
Proof.
  split; [vm_compute; reflexivity|].
  split; [vm_compute; reflexivity|].
  apply (filterNumbers_no_digit sintax "took 3,5 s (-12%) on 2 of 10 runs");
    vm_compute; reflexivity.
Defined.

(** ** [filterTags]: no tag is left *)

Lemma matches_tags (w : str) :
  matches re_tags w -> exists u, w = "<" ++ u ++ ">".
Proof.
  unfold re_tags. cbn [seq]. intros M.
  inversion M as [| |r1 r2 w1 w23 M1 M23| | | |]; subst.
  inversion M23 as [| |r1 r2 w2 w3 M2 M3| | | |]; subst.
  apply matches_chr in M1. apply matches_chr in M3. subst.
  now exists w2.
Qed.

Lemma tags_at (s : str) (n : nat) (caps : captures) :
  match_at re_tags false s = Some (n, caps) -> tag_at s = true.
Proof.
  intros H. apply match_at_sound in H as (w & rest & -> & M & _).
  apply matches_tags in M as [u ->].
  cbn [append tag_at]. unfold free_of.
  rewrite !all_chars_append. cbn [all_chars].
  replace (Ascii.eqb ">" ">") with true by reflexivity.
  cbn. now rewrite andb_false_r.
Qed.

(** X16: when the HTML token holds no backslash and no angle bracket,
    [filterTags] returns a text in which no opening angle bracket is
    followed, anywhere behind it, by a closing one: no tag is left.  The
    pass is then idempotent, and a text without an opening angle bracket is
    returned as it is. *)
Theorem filterTags_no_tag (cfg : Sintax) (s : str) :
  no_backslash (HTML cfg) = true ->
  free_of "<" (HTML cfg) = true -> free_of ">" (HTML cfg) = true ->
  exists out : str,
    filterTags cfg s = Ok out
    /\ (forall pre mid post, out <> pre ++ "<" ++ mid ++ ">" ++ post)
    /\ filterTags cfg out = Ok out
    /\ (free_of "<" s = true -> out = s).
Proof.
  intros NB NL NG. unfold filterTags.
  destruct (sub_clears re_tags (HTML cfg) (fun w => w = "<") (Some ">"%char)
              (fun c => Ascii.eqb c "<") s) as (out & E & Eo & Clear).
  - vm_compute; reflexivity.
  - exact NB.
  - intros w ->. repeat split. discriminate.
  - apply masked_spaced; [reflexivity | exact NL | now split].
  - intros pre x _ (w & tail & -> & -> & Cl).
    cbn [closes] in Cl. apply first_occurrence in Cl as (u & v & -> & Fu).
    replace ("<" ++ u ++ String ">" v) with (("<" ++ u ++ ">") ++ v).
    2:{ cbn [append]. f_equal. now rewrite append_assoc. }
    apply match_at_complete. unfold re_tags. cbn [seq].
    apply matches_seq; [apply matches_chr_self|].
    apply matches_seq; [|apply matches_chr_self].
    apply matches_star_atoms.
    unfold free_of in Fu.
    rewrite (all_chars_ext (atom_match (NoneOf [ILit ">"]))
               (fun a => negb (Ascii.eqb a ">")) u); [exact Fu|].
    intros c. cbn [atom_match existsb citem_match].
    rewrite (Ascii.eqb_sym c ">"). now destruct (Ascii.eqb ">" c).
  - assert (NoTag : forall pre mid post, out <> pre ++ "<" ++ mid ++ ">" ++ post).
    { intros pre mid post. apply Clear. exists "<", (mid ++ ">" ++ post).
      repeat split. cbn [closes]. unfold free_of.
      rewrite all_chars_append. cbn [append all_chars].
      replace (Ascii.eqb ">" ">") with true by reflexivity.
      cbn [negb andb]. apply andb_false_r. }
    exists out. split; [exact E|]. split; [exact NoTag|]. split.
    + rewrite sub_literal by now apply no_backslash_spaced.
      f_equal. apply sub_scan_no_match with (starts := tag_at);
        [intros x n caps; apply tags_at|].
      destruct (occurs tag_at out) eqn:O; [|reflexivity]. exfalso.
      apply occurs_true in O as (pre & post & Eq & T).
      destruct post as [|c tail]; [discriminate|]. cbn [tag_at] in T.
      apply andb_true_iff in T as [C T]. apply Ascii.eqb_eq in C. subst c.
      apply negb_true_iff in T.
      apply first_occurrence in T as (u & v & -> & _).
      exact (NoTag pre u v Eq).
    + intros H. rewrite Eo.
      apply (sub_scan_free_of_class (fun c => Ascii.eqb c "<"));
        [vm_compute; reflexivity | exact H].
Qed.

Lemma filterTags_no_tag_witness :
  no_backslash (HTML sintax) = true
  /\ free_of "<" (HTML sintax) = true /\ free_of ">" (HTML sintax) = true
  /\ exists out : str,
       filterTags sintax "a <b>bold</b> word, if x < y" = Ok out
       /\ (forall pre mid post, out <> pre ++ "<" ++ mid ++ ">" ++ post)
       /\ filterTags sintax out = Ok out
       /\ (free_of "<" "a <b>bold</b> word, if x < y" = true ->
           out = "a <b>bold</b> word, if x < y").
Proof.
  split; [vm_compute; reflexivity|].
  split; [vm_compute; reflexivity|].
  split; [vm_compute; reflexivity|].
  apply (filterTags_no_tag sintax "a <b>bold</b> word, if x < y");
    vm_compute; reflexivity.
Defined.

(** ** [filterRefs]: no character reference is left *)

Lemma word_not_space (c : ascii) :
  char_isword c = true -> Ascii.eqb c " " = false.
Proof.
  intros W. destruct (Ascii.eqb_spec c " ") as [->|]; [discriminate W | reflexivity].
Qed.

Lemma letter_word (c : ascii) : is_ascii_letter c = true -> char_isword c = true.
Proof.
  assert (A : for_all_chars (fun c => implb (is_ascii_letter c) (char_isword c))
              = true) by (vm_compute; reflexivity).
  intros L. pose proof (for_all_chars_spec _ A c) as H. cbv beta in H.
  now rewrite L in H.
Qed.

(** X17: when the REFERENCE token holds no backslash and no ampersand,
    [filterRefs] returns a text in which no ampersand stands in front of a
    word character: no character reference is left.  A text without an
    ampersand is returned as it is. *)
Theorem filterRefs_no_reference (cfg : Sintax) (s : str) :
  no_backslash (REFERENCE cfg) = true ->
  free_of "&" (REFERENCE cfg) = true ->
  exists out : str,
    filterRefs cfg s = Ok out
    /\ (forall pre c post,
          char_isword c = true -> out <> pre ++ "&" ++ String c post)
    /\ (free_of "&" s = true -> out = s).
Proof.
  intros NB NK. unfold filterRefs.
  destruct (sub_clears re_refs (REFERENCE cfg)
              (fun w => exists c, char_isword c = true
                                  /\ w = String "&" (String c ""))
              None (fun c => Ascii.eqb c "&") s) as (out & E & Eo & Clear).
  - vm_compute; reflexivity.
  - exact NB.
  - intros w (c & W & ->). split; [discriminate|].
    unfold free_of, free_of_class. cbn [all_chars].
    rewrite (word_not_space c W). split; reflexivity.
  - apply masked_spaced; [reflexivity | exact NK | exact I].
  - intros pre x _ (w & tail & (c & W & ->) & -> & _).
    apply match_at_complete. unfold re_refs. cbn [seq].
    apply (matches_seq _ _ "&" (String c "")); [apply matches_chr_self|].
    apply matches_plus_atoms. cbn [all_chars atom_match citem_match].
    now rewrite W.
  - exists out. split; [exact E|]. split.
    + intros pre c post W. apply Clear.
      exists (String "&" (String c "")), post. repeat split. now exists c.
    + intros H. rewrite Eo.
      apply (sub_scan_free_of_class (fun c => Ascii.eqb c "&"));
        [vm_compute; reflexivity | exact H].
Qed.

Lemma filterRefs_no_reference_witness :
  no_backslash (REFERENCE sintax) = true
  /\ free_of "&" (REFERENCE sintax) = true
  /\ exists out : str,
       filterRefs sintax "a &lt; b && c &amp;&amp; d" = Ok out
       /\ (forall pre c post,
             char_isword c = true -> out <> pre ++ "&" ++ String c post)
       /\ (free_of "&" "a &lt; b && c &amp;&amp; d" = true ->
           out = "a &lt; b && c &amp;&amp; d").
Proof.
  split; [vm_compute; reflexivity|].
  split; [vm_compute; reflexivity|].
  apply (filterRefs_no_reference sintax "a &lt; b && c &amp;&amp; d");
    vm_compute; reflexivity.
Defined.

(** ** [filterLinks]: no inline link is left *)

(** X18: when the LINK token holds no backslash and no brace, [filterLinks]
    returns a text in which neither of the two openers of an inline link,
    a brace with an at sign behind it or in front of it, is followed,
    anywhere behind it, by a closing brace.  A text without an opening brace
    is returned as it is. *)
Theorem filterLinks_no_link (cfg : Sintax) (s : str) :
  no_backslash (LINK cfg) = true ->
  free_of "{" (LINK cfg) = true -> free_of "}" (LINK cfg) = true ->
  exists out : str,
    filterLinks cfg s = Ok out
    /\ (forall pre mid post, out <> pre ++ "{@" ++ mid ++ "}" ++ post)
    /\ (forall pre mid post, out <> pre ++ "@{" ++ mid ++ "}" ++ post)
    /\ (free_of "{" s = true -> out = s).
Proof.
  intros NB NL NG. unfold filterLinks.
  destruct (sub_clears re_links (LINK cfg) (fun w => w = "{@" \/ w = "@{")
              (Some "}"%char) (fun c => Ascii.eqb c "{") s)
    as (out & E & Eo & Clear).
  - vm_compute; reflexivity.
  - exact NB.
  - intros w [->| ->]; repeat split; discriminate.
  - apply masked_spaced; [reflexivity | exact NL | now split].
  - intros pre x _ (w & tail & Fw & -> & Cl).
    cbn [closes] in Cl. apply first_occurrence in Cl as (u & v & -> & Fu).
    replace (w ++ u ++ String "}" v) with ((w ++ u ++ "}") ++ v).
    2:{ rewrite !append_assoc. reflexivity. }
    apply match_at_complete. unfold re_links. cbn [seq].
    apply matches_seq.
    { apply matches_group. destruct Fw as [->| ->];
        [apply matches_alt_l | apply matches_alt_r]; apply matches_Str_self. }
    apply matches_seq; [|apply matches_chr_self].
    apply matches_star_atoms. unfold free_of in Fu.
    rewrite (all_chars_ext (atom_match (NoneOf [ILit "}"]))
               (fun a => negb (Ascii.eqb a "}")) u); [exact Fu|].
    intros c. cbn [atom_match existsb citem_match].
    rewrite (Ascii.eqb_sym c "}"). now destruct (Ascii.eqb "}" c).
  - assert (Cl : forall mid post, closes (Some "}"%char) (mid ++ "}" ++ post)).
    { intros mid post. cbn [closes]. unfold free_of.
      rewrite all_chars_append. cbn [append all_chars].
      replace (Ascii.eqb "}" "}") with true by reflexivity.
      cbn [negb andb]. apply andb_false_r. }
    exists out. split; [exact E|]. split; [|split].
    + intros pre mid post. apply Clear. exists "{@", (mid ++ "}" ++ post).
      split; [now left|]. split; [reflexivity | apply Cl].
    + intros pre mid post. apply Clear. exists "@{", (mid ++ "}" ++ post).
      split; [now right|]. split; [reflexivity | apply Cl].
    + intros H. rewrite Eo.
      apply (sub_scan_free_of_class (fun c => Ascii.eqb c "{"));
        [vm_compute; reflexivity | exact H].
Qed.

Lemma filterLinks_no_link_witness :
  no_backslash (LINK sintax) = true
  /\ free_of "{" (LINK sintax) = true /\ free_of "}" (LINK sintax) = true
  /\ exists out : str,
       filterLinks sintax "see {@link List#add} or {this}" = Ok out
       /\ (forall pre mid post, out <> pre ++ "{@" ++ mid ++ "}" ++ post)
       /\ (forall pre mid post, out <> pre ++ "@{" ++ mid ++ "}" ++ post)
       /\ (free_of "{" "see {@link List#add} or {this}" = true ->
           out = "see {@link List#add} or {this}").
Proof.
  split; [vm_compute; reflexivity|].
  split; [vm_compute; reflexivity|].
  split; [vm_compute; reflexivity|].
  apply (filterLinks_no_link sintax "see {@link List#add} or {this}");
    vm_compute; reflexivity.
Defined.

(** ** [filterPaths]: no path of two components is left *)

(** X19: when the PATH token holds no backslash and no slash,
    [filterPaths] returns a text in which no slash and letter are followed
    at once by a slash and a letter: no path of two components or more is
    left.  A text without a slash is returned as it is. *)
Theorem filterPaths_no_path (cfg : Sintax) (s : str) :
  no_backslash (PATH cfg) = true ->
  free_of "/" (PATH cfg) = true ->
  exists out : str,
    filterPaths cfg s = Ok out
    /\ (forall pre a b post,
          is_ascii_letter a = true -> is_ascii_letter b = true ->
          out <> pre ++ String "/" (String a (String "/" (String b post))))
    /\ (free_of "/" s = true -> out = s).
Proof.
  intros NB NK. unfold filterPaths.
  destruct (sub_clears re_paths (PATH cfg)
              (fun w => exists a b,
                 is_ascii_letter a = true /\ is_ascii_letter b = true
                 /\ w = String "/" (String a (String "/" (String b ""))))
              None (fun c => Ascii.eqb c "/") s) as (out & E & Eo & Clear).
  - vm_compute; reflexivity.
  - exact NB.
  - intros w (a & b & La & Lb & ->). split; [discriminate|].
    unfold free_of, free_of_class. cbn [all_chars].
    rewrite (word_not_space a (letter_word a La)).
    rewrite (word_not_space b (letter_word b Lb)). split; reflexivity.
  - apply masked_spaced; [reflexivity | exact NK | exact I].
  - intros pre x _ (w & tail & (a & b & La & Lb & ->) & -> & _).
    apply match_at_complete. unfold re_paths.
    assert (C : forall c, is_ascii_letter c = true ->
              matches
                (Group 1
                   (seq [Chr "/"; Atom letter;
                         Star (Group 2
                                 (alt (Atom (One IWord))
                                    [Chr ".";
                                     Seq (Chr backslash) (Atom (One ISpace))]))]))
                (String "/" (String c ""))).
    { intros c L. apply matches_group. cbn [seq].
      apply (matches_seq _ _ "/" (String c "")); [apply matches_chr_self|].
      apply (matches_seq_eq _ _ (String c "") "");
        [|apply matches_rep_none | reflexivity].
      constructor. now rewrite letter_match. }
    apply (matches_rep_two true 2 None _ (String "/" (String a ""))
             (String "/" (String b "")) (C a La) (C b Lb)); [lia | exact I].
  - exists out. split; [exact E|]. split.
    + intros pre a b post La Lb. apply Clear.
      exists (String "/" (String a (String "/" (String b "")))), post.
      repeat split. now exists a, b.
    + intros H. rewrite Eo.
      apply (sub_scan_free_of_class (fun c => Ascii.eqb c "/"));
        [vm_compute; reflexivity | exact H].
Qed.

Lemma filterPaths_no_path_witness :
  no_backslash (PATH sintax) = true
  /\ free_of "/" (PATH sintax) = true
  /\ exists out : str,
       filterPaths sintax "reads /etc/passwd and /tmp" = Ok out
       /\ (forall pre a b post,
             is_ascii_letter a = true -> is_ascii_letter b = true ->
             out <> pre ++ String "/" (String a (String "/" (String b post))))
       /\ (free_of "/" "reads /etc/passwd and /tmp" = true ->
           out = "reads /etc/passwd and /tmp").
Proof.
  split; [vm_compute; reflexivity|].
  split; [vm_compute; reflexivity|].
  apply (filterPaths_no_path sintax "reads /etc/passwd and /tmp");
    vm_compute; reflexivity.
Defined.

(** ** [filterURLs]: no scheme and no dotted name is left *)

Lemma lower_word (c : ascii) : is_lower_az c = true -> char_isword c = true.
Proof.
  intros L. apply letter_word. unfold is_ascii_letter. rewrite L.
  apply orb_true_r.
Qed.

Lemma matches_lower (b : ascii) :
  is_lower_az b = true -> matches (Atom (OneOf [az])) (String b "").
Proof.
  intros L. apply matches_atom. cbn [atom_match existsb citem_match az].
  rewrite orb_false_r. exact L.
Qed.

(** X20: when the URL token holds no backslash, no colon and no period,
    [filterURLs] returns a text in which no word character stands in front
    of a colon and two slashes, nor in front of a period and two lowercase
    letters: no scheme and no dotted name, as of a host or a file, is left.
    A text without a colon and without a period is returned as it is. *)
Theorem filterURLs_no_url (cfg : Sintax) (s : str) :
  no_backslash (URL cfg) = true ->
  free_of_class colon_or_period (URL cfg) = true ->
  exists out : str,
    filterURLs cfg s = Ok out
    /\ (forall pre w post, url_start w -> out <> pre ++ w ++ post)
    /\ (free_of_class colon_or_period s = true -> out = s).
Proof.
  intros NB NK. unfold filterURLs.
  destruct (sub_clears re_urls (URL cfg) url_start None colon_or_period s)
    as (out & E & Eo & Clear).
  - vm_compute; reflexivity.
  - exact NB.
  - intros w [(a & W & ->)|(a & b & c & W & Lb & Lc & ->)];
      (split; [discriminate|]);
      unfold free_of, free_of_class; cbn [all_chars];
      rewrite (word_not_space a W).
    + split; [reflexivity|]. cbn. apply andb_false_r.
    + rewrite (word_not_space b (lower_word b Lb)).
      rewrite (word_not_space c (lower_word c Lc)).
      split; [reflexivity|]. cbn. apply andb_false_r.
  - apply masked_spaced; [reflexivity | exact NK | exact I].
  - intros pre x _ (w & tail & Fw & -> & _).
    apply match_at_complete. unfold re_urls.
    destruct Fw as [(a & W & ->)|(a & b & c & W & Lb & Lc & ->)].
    + apply matches_alt_r. unfold re_scheme. apply matches_group. cbn [seq].
      apply (matches_seq _ _ (String a "") "://").
      { apply matches_plus_atoms. cbn [all_chars atom_match citem_match].
        now rewrite W. }
      apply (matches_seq _ _ ":" "//"); [apply matches_chr_self|].
      apply matches_group, matches_alt_l. apply (matches_Str_self "//").
    + apply matches_alt_l, matches_group. cbn [seq].
      apply (matches_seq_eq _ _ "" (String a (String "." (String b (String c "")))));
        [apply matches_rep_none | | reflexivity].
      apply (matches_seq_eq _ _ (String a (String "." (String b (String c "")))) "");
        [| apply matches_rep_none | reflexivity].
      apply matches_group.
      apply (matches_seq _ _ (String a "") (String "." (String b (String c "")))).
      { apply matches_plus_atoms. cbn [all_chars atom_match citem_match].
        now rewrite W. }
      apply (matches_seq_eq _ _ "" (String "." (String b (String c ""))));
        [apply matches_rep_none | | reflexivity].
      apply (matches_seq _ _ "." (String b (String c "")));
        [apply matches_chr_self|].
      apply (matches_rep_two true 2 (Some 3) _ (String b "") (String c ""));
        [now apply matches_lower | now apply matches_lower | lia | simpl; lia].
  - exists out. split; [exact E|]. split.
    + intros pre w post Fw. apply Clear. exists w, post. now repeat split.
    + intros H. rewrite Eo.
      apply (sub_scan_free_of_class colon_or_period);
        [vm_compute; reflexivity | exact H].
Qed.

Lemma filterURLs_no_url_witness :
  no_backslash (URL sintax) = true
  /\ free_of_class colon_or_period (URL sintax) = true
  /\ exists out : str,
       filterURLs sintax "see http://a.org/x or Main.java" = Ok out
       /\ (forall pre w post, url_start w -> out <> pre ++ w ++ post)
       /\ (free_of_class colon_or_period "see http://a.org/x or Main.java"
           = true -> out = "see http://a.org/x or Main.java").
Proof.
  split; [vm_compute; reflexivity|].
  split; [vm_compute; reflexivity|].
  apply (filterURLs_no_url sintax "see http://a.org/x or Main.java");
    vm_compute; reflexivity.
Defined.

(** ** [filterStableReduction]: no abbreviation is left *)

Lemma expand_app (l1 l2 : list titem) (whole : str) (caps : captures) :
  expand (l1 ++ l2) whole caps = expand l1 whole caps ++ expand l2 whole caps.
Proof.
  induction l1 as [|i l1 IH]; [reflexivity|].
  cbn [List.app expand]. now rewrite IH, append_assoc.
Qed.

Lemma match_at_stable_reduction (s : str) (n : nat) (caps : captures) :
  match_at re_stable_reduction false s = Some (n, caps) ->
  exists a b rest,
    s = String a (String "." (String b (String "." rest)))
    /\ is_ascii_letter a = true /\ is_ascii_letter b = true
    /\ caps = [(2, String b ""); (1, String a "")].
Proof.
  rewrite match_at_accept. unfold re_stable_reduction.
  cbn [seq exec Chr].
  destruct s as [|a s]; [discriminate|].
  rewrite letter_match. destruct (is_ascii_letter a) eqn:La; [|discriminate].
  destruct s as [|p s]; [discriminate|].
  cbn [atom_match citem_match].
  destruct (Ascii.eqb_spec "." p) as [<-|]; [|discriminate].
  destruct s as [|b s]; [discriminate|].
  rewrite letter_match. destruct (is_ascii_letter b) eqn:Lb; [|discriminate].
  destruct s as [|q s]; [discriminate|].
  destruct (Ascii.eqb_spec "." q) as [<-|]; [|discriminate].
  unfold accept. intros [= _ <-]. exists a, b, s.
  split; [reflexivity|]. split; [exact La|]. split; [exact Lb|].
  assert (One : forall m, match m with 0 => S m | S l => m - l end = 1)
    by (intros [|l]; lia).
  rewrite !One. reflexivity.
Qed.

Lemma letter_not_period (c : ascii) :
  is_ascii_letter c = true -> Ascii.eqb c "." = false.
Proof.
  intros L. destruct (Ascii.eqb_spec c ".") as [->|]; [discriminate L | reflexivity].
Qed.

(** X21: when the STABLE_REDUCTION token holds no backslash and no period,
    [filterStableReduction] returns a text without any abbreviation, a
    letter, a period, a letter and a period in a row; a text without any
    abbreviation is returned as it is. *)
Theorem filterStableReduction_no_abbreviation (cfg : Sintax) (s : str) :
  no_backslash (STABLE_REDUCTION cfg) = true ->
  free_of "." (STABLE_REDUCTION cfg) = true ->
  exists out : str,
    filterStableReduction cfg s = Ok out
    /\ has_abbreviation out = false
    /\ (has_abbreviation s = false -> out = s).
Proof.
  intros NB NK. unfold filterStableReduction.
  set (tail := [TLit "_"; TGroup 1; TLit "_"; TGroup 2; TLit "_"; TLit " "]%char).
  assert (T : parse_template (groups re_stable_reduction) None
                (" " ++ STABLE_REDUCTION cfg ++ "_\1_\2_ ")
              = Ok (literal (" " ++ STABLE_REDUCTION cfg) ++ tail)%list).
  { rewrite <- append_assoc. rewrite parse_template_app by exact NB.
    replace (parse_template (groups re_stable_reduction) None "_\1_\2_ ")
      with (Ok tail) by (vm_compute; reflexivity).
    reflexivity. }
  rewrite (sub_ok _ _ s _ T).
  eexists. split; [reflexivity|]. split.
  - destruct (has_abbreviation _) eqn:H; [|reflexivity]. exfalso.
    apply has_abbreviation_spec in H as (pre & a & b & post & E & La & Lb).
    revert E.
    apply (sub_scan_clears re_stable_reduction _
             (fun w => exists a b,
                is_ascii_letter a = true /\ is_ascii_letter b = true
                /\ w = String a (String "." (String b (String "." ""))))
             None (fun c => Ascii.eqb c ".")).
    + vm_compute; reflexivity.
    + intros w (a' & b' & La' & Lb' & ->). split; [discriminate|].
      unfold free_of, free_of_class. cbn [all_chars].
      rewrite (word_not_space a' (letter_word a' La')).
      rewrite (word_not_space b' (letter_word b' Lb')).
      split; [reflexivity|]. cbn. apply andb_false_r.
    + intros w rest caps M.
      apply match_at_stable_reduction in M as (a' & b' & _ & _ & La' & Lb' & ->).
      rewrite expand_app, expand_literal. subst tail.
      cbn [expand expand_item capture Nat.eqb].
      unfold masked. split; [|split; [|exact I]].
      * exists (STABLE_REDUCTION cfg
                ++ String "_" (String a' (String "_" (String b' "_")))).
        cbn [append]. rewrite !append_assoc. reflexivity.
      * unfold free_of_class, free_of in *. cbn [append all_chars].
        rewrite !all_chars_append, NK. cbn [append all_chars].
        rewrite (letter_not_period a' La'), (letter_not_period b' Lb').
        reflexivity.
    + intros pre' x _ (w & tl & (a' & b' & La' & Lb' & ->) & -> & _).
      apply match_at_complete. unfold re_stable_reduction. cbn [seq].
      apply (matches_seq _ _ (String a' "") (String "." (String b' (String "." "")))).
      { apply matches_group. constructor. now rewrite letter_match. }
      apply (matches_seq _ _ "." (String b' (String "." "")));
        [apply matches_chr_self|].
      apply (matches_seq _ _ (String b' "") ".");
        [|apply matches_chr_self].
      apply matches_group. constructor. now rewrite letter_match.
    + exists (String a (String "." (String b (String "." "")))), post.
      repeat split. now exists a, b.
  - intros H.
    apply sub_scan_no_match with (starts := abbreviation_at); [|exact H].
    apply stable_reduction_at.
Qed.

Lemma filterStableReduction_no_abbreviation_witness :
  no_backslash (STABLE_REDUCTION sintax) = true
  /\ free_of "." (STABLE_REDUCTION sintax) = true
  /\ exists out : str,
       filterStableReduction sintax "lists, e.g. i.e. a.b.c.d." = Ok out
       /\ has_abbreviation out = false
       /\ (has_abbreviation "lists, e.g. i.e. a.b.c.d." = false ->
           out = "lists, e.g. i.e. a.b.c.d.").
Proof.
  split; [vm_compute; reflexivity|].
  split; [vm_compute; reflexivity|].
  apply (filterStableReduction_no_abbreviation sintax
           "lists, e.g. i.e. a.b.c.d.");
    vm_compute; reflexivity.
Defined.

(** ** [filterConstants]: none of the five words is left *)

Lemma never_empty_Str (c : ascii) (p : str) : never_empty (Str (String c p)) = true.
Proof.
  unfold never_empty. cbn [Str avoids Chr].
  replace (for_all_chars
             (fun c0 => negb (false && atom_match (One (ILit c)) c0)))
    with true by (vm_compute; reflexivity).
  reflexivity.
Qed.

Lemma no_occurrence_contains (word s : str) :
  (forall pre post, s <> pre ++ word ++ post) -> contains word s = false.
Proof.
  intros H. unfold contains. destruct (find word s) as [i|] eqn:F; [|reflexivity].
  destruct (find_some _ _ _ F) as (pre & post & E & _). now elim (H pre post).
Qed.

(** One call of [re.sub] in [filterConstants]: the word is cleared, and the
    words cleared before it stay cleared. *)
Lemma constants_step (word token : str) (done : list str) (s : str) :
  no_backslash token = true ->
  free_of_class is_lower_az token = true ->
  (forall w, In w (word :: done) ->
     w <> "" /\ free_of " " w = true /\ free_of_class is_lower_az w = false) ->
  (forall pre x, starts_with (fun w => In w done) None x -> s <> pre ++ x) ->
  exists out,
    sub (Str word) (spaced token) s = Ok out
    /\ forall pre x,
         starts_with (fun w => In w (word :: done)) None x -> out <> pre ++ x.
Proof.
  intros NB NK HF Done.
  destruct (sub_clears (Str word) token (fun w => In w (word :: done)) None
              is_lower_az s) as (out & E & _ & Clear).
  - destruct word as [|c p]; [|apply never_empty_Str].
    destruct (HF "" (or_introl eq_refl)) as [N _]. now elim N.
  - exact NB.
  - exact HF.
  - apply masked_spaced; [reflexivity | exact NK | exact I].
  - intros pre x E (w & tail & [<-|I] & -> & _).
    + apply match_at_complete. apply matches_Str_self.
    + exfalso. apply (Done pre (w ++ tail)); [|exact E].
      exists w, tail. now repeat split.
  - exists out. now split.
Qed.

(** X22: when the TRUE, FALSE and NULL tokens hold no backslash and no
    lowercase letter, [filterConstants] returns a text that holds none of
    the words true, false, null, nil and none: each call clears its word and
    brings back none of the words cleared before. *)
Theorem filterConstants_no_constant (cfg : Sintax) (s : str) :
  forallb (fun token => no_backslash token && free_of_class is_lower_az token)
    [TRUE cfg; FALSE cfg; NULL cfg] = true ->
  exists out : str,
    filterConstants cfg s = Ok out
    /\ forall word, In word constant_words -> contains word out = false.
Proof.
  cbn [forallb]. intros H.
  apply andb_true_iff in H as [Ht H]. apply andb_true_iff in Ht as [Bt Kt].
  apply andb_true_iff in H as [Hf H]. apply andb_true_iff in Hf as [Bf Kf].
  apply andb_true_iff in H as [Hn _]. apply andb_true_iff in Hn as [Bn Kn].
  assert (HF : forall w, In w ["none"; "nil"; "null"; "false"; "true"] ->
             w <> "" /\ free_of " " w = true
             /\ free_of_class is_lower_az w = false).
  { intros w I. repeat destruct I as [<-|I]; try (now elim I);
      repeat split; discriminate. }
  unfold filterConstants.
  destruct (constants_step "true" (TRUE cfg) [] s Bt Kt) as (s1 & -> & C1).
  { intros w I. apply HF. simpl in *. tauto. }
  { intros pre x (w & _ & [] & _). }
  cbn [bind].
  destruct (constants_step "false" (FALSE cfg) ["true"] s1 Bf Kf) as (s2 & -> & C2).
  { intros w I. apply HF. simpl in *. tauto. }
  { exact C1. }
  cbn [bind].
  destruct (constants_step "null" (NULL cfg) ["false"; "true"] s2 Bn Kn)
    as (s3 & -> & C3).
  { intros w I. apply HF. simpl in *. tauto. }
  { exact C2. }
  cbn [bind].
  destruct (constants_step "nil" (NULL cfg) ["null"; "false"; "true"] s3 Bn Kn)
    as (s4 & -> & C4).
  { intros w I. apply HF. simpl in *. tauto. }
  { exact C3. }
  cbn [bind].
  destruct (constants_step "none" (NULL cfg) ["nil"; "null"; "false"; "true"]
              s4 Bn Kn) as (s5 & -> & C5).
  { intros w I. apply HF. simpl in *. tauto. }
  { exact C4. }
  cbn [bind]. exists s5. split; [reflexivity|].
  intros word I. apply no_occurrence_contains. intros pre post.
  apply C5. exists word, post. split; [|now split].
  unfold constant_words in I. simpl in *. tauto.
Qed.

Lemma filterConstants_no_constant_witness :
  forallb (fun token => no_backslash token && free_of_class is_lower_az token)
    [TRUE sintax; FALSE sintax; NULL sintax] = true
  /\ exists out : str,
       filterConstants sintax "true if none is null, falsenil otherwise" = Ok out
       /\ forall word, In word constant_words -> contains word out = false.
Proof.
  split; [vm_compute; reflexivity|].
  apply (filterConstants_no_constant sintax
           "true if none is null, falsenil otherwise").
  vm_compute; reflexivity.
Defined.

(** ** [filterFunctionInvocation] and [filterDotTuple] *)

Lemma word_free_of_space (u : str) :
  all_chars char_isword u = true -> free_of " " u = true.
Proof.
  unfold free_of. induction u as [|c u IH]; [reflexivity|].
  cbn [all_chars]. intros H. apply andb_true_iff in H as [W H].
  now rewrite (word_not_space c W), (IH H).
Qed.

Lemma identifier_facts (w : str) :
  identifier w -> w <> "" /\ free_of " " w = true.
Proof.
  intros (a & u & L & W & ->). split; [discriminate|].
  apply word_free_of_space. cbn [all_chars].
  now rewrite (letter_word a L), W.
Qed.

Lemma matches_re_space (n : nat) : matches (re_space n) "".
Proof. apply matches_rep_none. Qed.

Lemma matches_re_word (n : nat) (w : str) :
  identifier w -> matches (re_word n) w.
Proof.
  intros (a & u & L & W & ->). unfold re_word.
  apply (matches_seq _ _ (String a "") u).
  - apply matches_group, matches_alt_r. constructor. now rewrite letter_match.
  - now apply matches_star_atoms.
Qed.

(** X23: when the INVOCATION token holds no backslash and no parenthesis,
    [filterFunctionInvocation] returns a text in which no name, a letter and
    then word characters, stands in front of an empty pair of parentheses,
    nor in front of a pair of parentheses that holds one name: no such call
    is left.  A text without an opening parenthesis is returned as it is. *)
Theorem filterFunctionInvocation_no_call (cfg : Sintax) (s : str) :
  no_backslash (INVOCATION cfg) = true ->
  free_of "(" (INVOCATION cfg) = true ->
  exists out : str,
    filterFunctionInvocation cfg s = Ok out
    /\ (forall pre f post, identifier f -> out <> pre ++ f ++ "()" ++ post)
    /\ (forall pre f x post,
          identifier f -> identifier x ->
          out <> pre ++ f ++ "(" ++ x ++ ")" ++ post)
    /\ (free_of "(" s = true -> out = s).
Proof.
  intros NB NK. unfold filterFunctionInvocation.
  destruct (sub_clears re_invocation (INVOCATION cfg)
              (fun w => exists f, identifier f
                 /\ (w = f ++ "()"
                     \/ exists x, identifier x /\ w = f ++ "(" ++ x ++ ")"))
              None (fun c => Ascii.eqb c "(") s) as (out & E & Eo & Clear).
  - vm_compute; reflexivity.
  - exact NB.
  - intros w (f & If & [->|(x & Ix & ->)]);
      destruct (identifier_facts f If) as [Nf Sf].
    + split; [destruct f; [congruence | discriminate]|].
      unfold free_of, free_of_class in *. rewrite !all_chars_append, Sf.
      split; [reflexivity|]. cbn. apply andb_false_r.
    + destruct (identifier_facts x Ix) as [Nx Sx].
      split; [destruct f; [congruence | discriminate]|].
      unfold free_of, free_of_class in *.
      cbn [append]. rewrite !all_chars_append. cbn [all_chars].
      rewrite all_chars_append, Sf, Sx.
      split; [reflexivity|]. cbn. apply andb_false_r.
  - apply masked_spaced; [reflexivity | exact NK | exact I].
  - intros pre x _ (w & tail & (f & If & Fw) & -> & _).
    apply match_at_complete. unfold re_invocation. cbn [seq].
    assert (Call : forall args,
               matches
                 (Opt (Group 5
                         (Seq (re_param 6)
                              (Star (Group 12
                                       (Seq (re_space 13)
                                            (Seq (Chr ",") (re_param 14))))))))
                 args ->
               matches
                 (Plus (Group 3
                          (Seq (re_space 4)
                               (Seq (Chr "(")
                                    (Seq (Opt (Group 5
                                                 (Seq (re_param 6)
                                                      (Star (Group 12
                                                               (Seq (re_space 13)
                                                                    (Seq (Chr ",") (re_param 14))))))))
                                         (Chr ")"))))))
                 ("(" ++ args ++ ")")).
    { intros args M. apply matches_rep_one; [|lia | exact I].
      apply matches_group.
      apply (matches_seq_eq _ _ "" ("(" ++ args ++ ")"));
        [apply matches_re_space | | reflexivity].
      apply (matches_seq _ _ "(" (args ++ ")")); [apply matches_chr_self|].
      apply matches_seq; [exact M | apply matches_chr_self]. }
    apply (matches_seq_eq _ _ "" w); [apply matches_re_space | | reflexivity].
    destruct Fw as [->|(y & Iy & ->)].
    + apply matches_seq; [now apply matches_re_word|].
      apply (Call ""). apply matches_rep_none.
    + apply matches_seq; [now apply matches_re_word|].
      apply (Call y). apply matches_rep_one; [|lia | simpl; lia].
      apply matches_group.
      apply (matches_seq_eq _ _ y ""); [| apply matches_rep_none
                                        | now rewrite append_nil_r].
      unfold re_param. cbn [seq].
      apply (matches_seq_eq _ _ "" y); [apply matches_rep_none | | reflexivity].
      apply (matches_seq_eq _ _ "" y); [apply matches_re_space | | reflexivity].
      now apply matches_re_word.
  - exists out. split; [exact E|]. split; [|split].
    + intros pre f post If. apply Clear. exists (f ++ "()"), post.
      split; [exists f; split; [exact If | now left]|].
      split; [now rewrite !append_assoc | exact I].
    + intros pre f x post If Ix. apply Clear.
      exists (f ++ "(" ++ x ++ ")"), post.
      split; [exists f; split; [exact If | right; now exists x]|].
      split; [|exact I]. rewrite !append_assoc. reflexivity.
    + intros H. rewrite Eo.
      apply (sub_scan_free_of_class (fun c => Ascii.eqb c "("));
        [vm_compute; reflexivity | exact H].
Qed.

Lemma filterFunctionInvocation_no_call_witness :
  no_backslash (INVOCATION sintax) = true
  /\ free_of "(" (INVOCATION sintax) = true
  /\ exists out : str,
       filterFunctionInvocation sintax "calls close() after read(buf)" = Ok out
       /\ (forall pre f post, identifier f -> out <> pre ++ f ++ "()" ++ post)
       /\ (forall pre f x post,
             identifier f -> identifier x ->
             out <> pre ++ f ++ "(" ++ x ++ ")" ++ post)
       /\ (free_of "(" "calls close() after read(buf)" = true ->
           out = "calls close() after read(buf)").
Proof.
  split; [vm_compute; reflexivity|].
  split; [vm_compute; reflexivity|].
  apply (filterFunctionInvocation_no_call sintax "calls close() after read(buf)");
    vm_compute; reflexivity.
Defined.

(** X24: when the DOT_INVOCATION token holds no backslash and no period,
    [filterDotTuple] returns a text in which no name, a letter and then word
    characters, stands in front of a period and a letter: no dotted pair of
    names is left.  A text without a period is returned as it is. *)
Theorem filterDotTuple_no_dotted_pair (cfg : Sintax) (s : str) :
  no_backslash (DOT_INVOCATION cfg) = true ->
  free_of "." (DOT_INVOCATION cfg) = true ->
  exists out : str,
    filterDotTuple cfg s = Ok out
    /\ (forall pre f b post,
          identifier f -> is_ascii_letter b = true ->
          out <> pre ++ f ++ "." ++ String b post)
    /\ (free_of "." s = true -> out = s).
Proof.
  intros NB NK. unfold filterDotTuple.
  destruct (sub_clears re_dot_tuple (DOT_INVOCATION cfg)
              (fun w => exists f b, identifier f /\ is_ascii_letter b = true
                                    /\ w = f ++ "." ++ String b "")
              None (fun c => Ascii.eqb c ".") s) as (out & E & Eo & Clear).
  - vm_compute; reflexivity.
  - exact NB.
  - intros w (f & b & If & Lb & ->).
    destruct (identifier_facts f If) as [Nf Sf].
    split; [destruct f; [congruence | discriminate]|].
    unfold free_of, free_of_class in *. rewrite !all_chars_append, Sf.
    cbn [append all_chars]. rewrite (word_not_space b (letter_word b Lb)).
    split; [reflexivity|]. cbn. apply andb_false_r.
  - apply masked_spaced; [reflexivity | exact NK | exact I].
  - intros pre x _ (w & tail & (f & b & If & Lb & ->) & -> & _).
    apply match_at_complete. unfold re_dot_tuple. cbn [seq].
    apply (matches_seq_eq _ _ "" (f ++ "." ++ String b ""));
      [apply matches_re_space | | reflexivity].
    apply matches_seq; [now apply matches_re_word|].
    apply matches_rep_one; [|lia | exact I].
    apply matches_group.
    apply (matches_seq _ _ "." (String b "")); [apply matches_chr_self|].
    apply matches_re_word. exists b, "". now repeat split.
  - exists out. split; [exact E|]. split.
    + intros pre f b post If Lb. apply Clear.
      exists (f ++ "." ++ String b ""), post.
      split; [now exists f, b|]. split; [|exact I].
      rewrite !append_assoc. reflexivity.
    + intros H. rewrite Eo.
      apply (sub_scan_free_of_class (fun c => Ascii.eqb c "."));
        [vm_compute; reflexivity | exact H].
Qed.

Lemma filterDotTuple_no_dotted_pair_witness :
  no_backslash (DOT_INVOCATION sintax) = true
  /\ free_of "." (DOT_INVOCATION sintax) = true
  /\ exists out : str,
       filterDotTuple sintax "uses java.util.List and more." = Ok out
       /\ (forall pre f b post,
             identifier f -> is_ascii_letter b = true ->
             out <> pre ++ f ++ "." ++ String b post)
       /\ (free_of "." "uses java.util.List and more." = true ->
           out = "uses java.util.List and more.").
Proof.
  split; [vm_compute; reflexivity|].
  split; [vm_compute; reflexivity|].
  apply (filterDotTuple_no_dotted_pair sintax "uses java.util.List and more.");
    vm_compute; reflexivity.
Defined.

(** ** Abbreviations through the escape and restore passes *)

Lemma sub_scan_miss (r : regex) (tmpl : list titem) (c : ascii) (s : str) :
  match_at r false (String c s) = None ->
  sub_scan r tmpl (String c s) 0 = String c (sub_scan r tmpl s 0).
Proof. intros M. cbn [sub_scan]. now rewrite M. Qed.

Lemma sub_scan_hit (r : regex) (tmpl : list titem) (w rest : str)
    (caps : captures) :
  w <> "" ->
  match_at r false (w ++ rest) = Some (length w, caps) ->
  sub_scan r tmpl (w ++ rest) 0 = expand tmpl w caps ++ sub_scan r tmpl rest 0.
Proof.
  intros N M. destruct w as [|c w]; [congruence|].
  cbn [append sub_scan]. cbn [append] in M. rewrite M. cbn [length].
  change (take (S (length w)) (String c (w ++ rest)))
    with (String c (take (length w) (w ++ rest))).
  rewrite take_append.
  rewrite sub_scan_skip by (rewrite length_append; lia).
  now rewrite drop_append.
Qed.

Lemma exec_Seq (r1 r2 : regex) (s : str) (caps : captures) (k : cont) :
  exec (Seq r1 r2) s caps k = exec r1 s caps (fun s' caps' => exec r2 s' caps' k).
Proof. reflexivity. Qed.

Lemma exec_Chr (c : ascii) (s : str) (caps : captures) (k : cont) :
  exec (Chr c) (String c s) caps k = k s caps.
Proof. cbn [Chr exec atom_match citem_match]. now rewrite Ascii.eqb_refl. Qed.

Lemma exec_Str (p rest : str) (caps : captures) (k : cont) :
  exec (Str p) (p ++ rest) caps k = k rest caps.
Proof.
  induction p as [|c p IH]; [reflexivity|].
  cbn [Str append exec Chr atom_match citem_match].
  now rewrite Ascii.eqb_refl.
Qed.

(** A greedy repetition of a one-character class takes the whole run of
    such characters when what follows the repetition accepts the rest. *)
Lemma rep_loop_run (a : atom) (lo : nat) (k : cont) (rest : str)
    (res : str * captures) :
  match rest with
  | String c _ => atom_match a c = false
  | EmptyString => True
  end ->
  forall (u : str) (fuel count : nat) (caps : captures),
    all_chars (atom_match a) u = true ->
    lo <= count + length u ->
    length (u ++ rest) < fuel ->
    k rest caps = Some res ->
    rep_loop (exec (Atom a)) true lo None k fuel count (u ++ rest) caps
    = Some res.
Proof.
  intros End. induction u as [|c u IH]; intros fuel count caps A L Fu K;
    (destruct fuel as [|fuel]; [simpl in Fu; lia|]); cbn [rep_loop below].
  - cbn [append exec]. simpl in L.
    replace (lo <=? count) with true by (symmetry; apply Nat.leb_le; lia).
    destruct rest as [|c rest']; [exact K|].
    rewrite End. exact K.
  - cbn [all_chars] in A. apply andb_true_iff in A as [Ac A].
    cbn [append exec length] in *. rewrite Ac.
    replace ((count <? lo) || (length (u ++ rest) <? S (length (u ++ rest))))
      with true.
    2:{ symmetry. apply orb_true_iff. right. apply Nat.ltb_lt. lia. }
    rewrite (IH fuel (S count) caps); [reflexivity | exact A | lia | lia | exact K].
Qed.

Lemma exec_field (n : nat) (c : ascii) (rest : str) (caps : captures)
    (k : cont) (res : str * captures) :
  not_underscore c = true ->
  k (String "_" rest) ((n, String c "") :: caps) = Some res ->
  exec (Group n (Plus (Atom (NoneOf [ILit "_"])))) (String c (String "_" rest))
    caps k = Some res.
Proof.
  intros N K. cbn [exec]. unfold Plus. rewrite exec_Rep.
  apply (rep_loop_run (NoneOf [ILit "_"]) 1 _ (String "_" rest) res
           eq_refl (String c "")).
  - cbn [all_chars atom_match existsb citem_match].
    unfold not_underscore in N. rewrite (Ascii.eqb_sym "_" c).
    apply negb_true_iff in N. now rewrite N.
  - simpl. lia.
  - simpl. lia.
  - cbn [length].
    replace (S (S (length rest)) - S (length rest)) with 1 by lia.
    exact K.
Qed.

Lemma letter_not_underscore (c : ascii) :
  is_ascii_letter c = true -> not_underscore c = true.
Proof.
  intros L. unfold not_underscore.
  destruct (Ascii.eqb_spec c "_") as [->|]; [discriminate L | reflexivity].
Qed.

(** The restore pattern matches the placeholder of an abbreviation, and the
    two fields are the two letters. *)
Lemma match_at_placeholder (cfg : Sintax) (a b : ascii) (rest : str) :
  is_ascii_letter a = true -> is_ascii_letter b = true ->
  let block :=
    STABLE_REDUCTION cfg
      ++ String "_" (String a (String "_" (String b (String "_" "")))) in
  match_at (re_unpack cfg) false (block ++ rest)
  = Some (length block, [(2, String b ""); (1, String a "")]).
Proof.
  intros La Lb. cbv zeta. rewrite match_at_accept.
  unfold re_unpack. cbn [seq].
  rewrite exec_Seq, append_assoc, exec_Str.
  cbn [append]. rewrite exec_Seq, exec_Chr, exec_Seq.
  erewrite exec_field; [| now apply letter_not_underscore |].
  2:{ rewrite exec_Seq, exec_Chr, exec_Seq.
      apply exec_field; [now apply letter_not_underscore|].
      rewrite exec_Chr. reflexivity. }
  cbv iota beta. f_equal. f_equal. rewrite !length_append. cbn [length]. lia.
Qed.

Lemma guarded_word (w x : str) :
  all_chars char_isword w = true -> guarded (w ++ String "_" x) = false.
Proof.
  induction w as [|c w IH]; [reflexivity|].
  cbn [all_chars append guarded]. intros H. apply andb_true_iff in H as [W H].
  destruct (Ascii.eqb c "_"); [reflexivity|].
  now rewrite (word_not_space c W), (IH H).
Qed.

Lemma unpack_guarded (cfg : Sintax) (u : str) :
  all_chars char_isword (STABLE_REDUCTION cfg) = true ->
  guarded u = true -> match_at (re_unpack cfg) false u = None.
Proof.
  intros W G. destruct (match_at _ false u) as [[n caps]|] eqn:M; [|reflexivity].
  apply match_at_sound in M as (w & rest & -> & M & _).
  apply matches_unpack in M as (x & y & -> & _).
  rewrite append_assoc in G. cbn [append] in G.
  rewrite (guarded_word _ _ W) in G. discriminate.
Qed.

Lemma never_empty_unpack (cfg : Sintax) : never_empty (re_unpack cfg) = true.
Proof.
  unfold never_empty, re_unpack. cbn [seq avoids].
  replace (avoids (fun _ => false) (Chr "_")) with true
    by (vm_compute; reflexivity).
  cbn [orb]. apply orb_true_r.
Qed.

Lemma set_off_abbreviation (a b : ascii) (rest : str) :
  is_ascii_letter a = true -> is_ascii_letter b = true ->
  set_off 0 (String a (String "." (String b (String "." rest))))
  = "  " ++ String a (String "." (String b (String "." ("  " ++ set_off 0 rest)))).
Proof.
  intros La Lb. cbn [set_off abbreviation_at]. rewrite La, Lb.
  reflexivity.
Qed.

(** X25: the escape pass followed by the restore pass keeps every
    abbreviation: on a text without an underscore, the pair returns the text
    with each abbreviation, read from the left, between two spaces on each
    side, and every other character as it is.  The token is made of word
    characters. *)
Theorem escape_restore_sets_off (cfg : Sintax) (s : str) :
  all_chars char_isword (STABLE_REDUCTION cfg) = true ->
  free_of "_" s = true ->
  escape_restore cfg s = Ok (set_off 0 s).
Proof.
  intros W. unfold escape_restore, filterStableReduction, unpackStableReduction.
  pose proof (word_no_backslash _ W) as NB.
  set (tail := [TLit "_"; TGroup 1; TLit "_"; TGroup 2; TLit "_"; TLit " "]%char).
  assert (T1 : parse_template (groups re_stable_reduction) None
                 (" " ++ STABLE_REDUCTION cfg ++ "_\1_\2_ ")
               = Ok (literal (" " ++ STABLE_REDUCTION cfg) ++ tail)%list).
  { rewrite <- append_assoc. rewrite parse_template_app by exact NB.
    replace (parse_template (groups re_stable_reduction) None "_\1_\2_ ")
      with (Ok tail) by (vm_compute; reflexivity).
    reflexivity. }
  rewrite (sub_ok _ _ s _ T1). cbn [bind].
  set (tmpl2 := [TLit " "; TGroup 1; TLit "."; TGroup 2; TLit "."; TLit " "]%char).
  assert (T2 : parse_template (groups (re_unpack cfg)) None " \1.\2. " = Ok tmpl2).
  { unfold re_unpack. cbn [seq groups]. rewrite groups_Str.
    vm_compute. reflexivity. }
  intros Free. rewrite (sub_ok _ _ _ _ T2). f_equal.
  revert Free.
  apply (sub_scan_ind re_stable_reduction
           (literal (" " ++ STABLE_REDUCTION cfg) ++ tail)%list
           (fun s out =>
              free_of "_" s = true ->
              guarded out = true
              /\ sub_scan (re_unpack cfg) tmpl2 out 0 = set_off 0 s)).
  - vm_compute; reflexivity.
  - intros _. cbn [sub_scan].
    now rewrite (match_at_empty_text _ (never_empty_unpack cfg)).
  - intros c t out M IH Free. unfold free_of in Free. cbn [all_chars] in Free.
    apply andb_true_iff in Free as [C Free].
    destruct (IH Free) as [G E].
    assert (G' : guarded (String c out) = true).
    { cbn [guarded]. apply negb_true_iff in C. rewrite C.
      now destruct (Ascii.eqb c " "). }
    split; [exact G'|].
    rewrite sub_scan_miss by now apply unpack_guarded.
    rewrite E. cbn [set_off].
    destruct (abbreviation_at (String c t)) eqn:Ab; [|reflexivity].
    exfalso. destruct t as [|p [|b' [|q t']]]; try discriminate Ab.
    cbn [abbreviation_at] in Ab.
    apply andb_true_iff in Ab as [Ab Q]. apply andb_true_iff in Ab as [Ab Lb'].
    apply andb_true_iff in Ab as [La' P].
    apply Ascii.eqb_eq in P, Q. subst p q.
    revert M.
    change (String c (String "." (String b' (String "." t'))))
      with (String c (String "." (String b' (String "." ""))) ++ t').
    apply match_at_complete. unfold re_stable_reduction. cbn [seq].
    apply (matches_seq _ _ (String c "") (String "." (String b' (String "." "")))).
    { apply matches_group. constructor. now rewrite letter_match. }
    apply (matches_seq _ _ "." (String b' (String "." "")));
      [apply matches_chr_self|].
    apply (matches_seq _ _ (String b' "") "."); [|apply matches_chr_self].
    apply matches_group. constructor. now rewrite letter_match.
  - intros w rest caps out Mw _ M IH Free.
    unfold free_of in Free. rewrite all_chars_append in Free.
    apply andb_true_iff in Free as [_ Free]. destruct (IH Free) as [G E].
    apply matches_stable_reduction in Mw as (a & b & -> & La & Lb).
    apply match_at_stable_reduction in M as (a' & b' & rest' & Eq & _ & _ & ->).
    cbn [append] in Eq. injection Eq as <- <- _.
    rewrite expand_app, expand_literal. subst tail.
    cbn [expand expand_item capture Nat.eqb append].
    split; [reflexivity|].
    rewrite sub_scan_miss by (now apply unpack_guarded).
    rewrite set_off_abbreviation by assumption.
    replace ((STABLE_REDUCTION cfg
              ++ String "_" (String a (String "_" (String b "_ "))))
             ++ out)
      with ((STABLE_REDUCTION cfg
             ++ String "_" (String a (String "_" (String b (String "_" "")))))
            ++ String " " out).
    2:{ rewrite !append_assoc. reflexivity. }
    assert (NE : STABLE_REDUCTION cfg
                 ++ String "_" (String a (String "_" (String b (String "_" ""))))
                 <> "")
      by (destruct (STABLE_REDUCTION cfg); simpl; discriminate).
    rewrite (sub_scan_hit _ _ _ _ _ NE
               (match_at_placeholder cfg a b (String " " out) La Lb)).
    rewrite sub_scan_miss by (now apply unpack_guarded).
    rewrite E. subst tmpl2. cbn [expand expand_item capture Nat.eqb append].
    reflexivity.
Qed.

Lemma escape_restore_sets_off_witness :
  all_chars char_isword (STABLE_REDUCTION sintax) = true
  /\ free_of "_" "lists, e.g. i.e. a.b.c.d. and more" = true
  /\ escape_restore sintax "lists, e.g. i.e. a.b.c.d. and more"
     = Ok "lists,   e.g.     i.e.     a.b.    c.d.   and more".
Proof.
  split; [vm_compute; reflexivity|].
  split; [vm_compute; reflexivity|].
  apply (escape_restore_sets_off sintax "lists, e.g. i.e. a.b.c.d. and more");
    vm_compute; reflexivity.
Defined.

(** ** The pipeline has no pass for paths *)

Lemma path_text_char_facts (c : ascii) :
  path_text_char c = true -> Ascii.eqb c backslash = false.
Proof.
  assert (A : for_all_chars
                (fun c => negb (path_text_char c)
                          || negb (Ascii.eqb c backslash)) = true)
    by (vm_compute; reflexivity).
  intros H. pose proof (for_all_chars_spec _ A c) as F. cbv beta in F.
  rewrite H in F. cbn [negb orb] in F. now apply negb_true_iff.
Qed.

Lemma path_text_no_backslash (s : str) :
  all_chars path_text_char s = true -> no_backslash s = true.
Proof.
  unfold no_backslash. induction s as [|c s IH]; [reflexivity|].
  cbn [all_chars]. intros H. apply andb_true_iff in H as [C H].
  now rewrite (path_text_char_facts c C), (IH H).
Qed.

Lemma avoids_symbol (p : ascii) :
  path_text_char p = false -> avoids path_text_char (Chr p) = true.
Proof.
  intros H. unfold Chr. cbn [avoids]. unfold for_all_chars.
  apply forallb_forall. intros c _. cbn [atom_match citem_match].
  destruct (Ascii.eqb_spec p c) as [<-|_]; [now rewrite H | now rewrite andb_false_r].
Qed.

Lemma avoids_symbols (p : ascii) (ps : list ascii) :
  forallb (fun p => negb (path_text_char p)) (p :: ps) = true ->
  avoids path_text_char (alt (Chr p) (map Chr ps)) = true.
Proof.
  revert p. induction ps as [|q ps IH]; intros p H; cbn [forallb] in H;
    apply andb_true_iff in H as [P H]; apply negb_true_iff in P.
  - now apply avoids_symbol.
  - cbn [map alt avoids]. rewrite (IH q H). now rewrite avoids_symbol.
Qed.

Lemma filterParamNames_from_absent (cfg : Sintax) (text : str)
    (params : list str) :
  (forall param, In param params -> contains (spaced param) text = false) ->
  forall i, filterParamNames_from cfg i text params = text.
Proof.
  induction params as [|param params IH]; intros H i; [reflexivity|].
  cbn [filterParamNames_from].
  rewrite replace_absent by (apply H; now left).
  apply IH. intros p I. apply H. now right.
Qed.

(** C1 fails on the code: [applyFiltersForString] runs no pass that masks
    paths.  [filterPaths] and the PATH token are in the module, but the
    pipeline does not call the one and does not read the other: whatever the
    PATH token is, the pipeline returns the same.  So a path is left in the
    text: for every vocabulary that the patterns read as written and whose
    punctuation symbols are neither the slash nor the space, a text that,
    once lowercased, is made of lowercase letters, slashes and spaces, holds
    none of the constant words and no parameter name between two spaces,
    comes out lowercased, with its runs of spaces collapsed and trimmed, and
    with every slash and every letter of its paths in place.  On the text of
    the example, [filterPaths] alone gives the PATH token and the pipeline
    gives the path. *)
Theorem applyFiltersForString_leaves_paths :
  (forall (cfg : Sintax) (token text : str) (params : list str),
      applyFiltersForString (with_PATH cfg token) text params
      = applyFiltersForString cfg text params)
  /\ (forall (cfg : Sintax) (text : str) (params : list str),
        literal_vocabulary cfg = true ->
        forallb (fun p => negb (path_text_char p)) (PUNCTUATION cfg) = true ->
        all_chars path_text_char (lower text) = true ->
        (forall word, In word constant_words ->
           contains word (lower text) = false) ->
        (forall param, In param params ->
           contains (spaced param) (lower text) = false) ->
        applyFiltersForString cfg text params
        = Ok (filterFirstAndEndSpaces (collapse false (lower text))))
  /\ literal_vocabulary sintax = true
  /\ filterPaths sintax "see /usr/lib/jvm" = Ok "see  PATH "
  /\ applyFiltersForString sintax "see /usr/lib/jvm" ["jvm"]
     = Ok "see /usr/lib/jvm".
Proof.
  split; [reflexivity|].
  split; [|repeat split; vm_compute; reflexivity].
  intros cfg text params V Vp H Cw Cp.
  unfold literal_vocabulary, symbols_escaped in V.
  apply andb_true_iff in V as [V Vn]. apply andb_true_iff in Vn as [Vn _].
  apply andb_true_iff in V as [Vt Vs].
  pose proof (word_no_backslash _ Vs) as Vb.
  cbn [forallb] in Vt.
  repeat match type of Vt with
         | _ && _ = true => apply andb_true_iff in Vt as [? Vt]
         end.
  unfold applyFiltersForString.
  destruct (length text =? 0) eqn:L.
  { apply length_zero in L. subst text. reflexivity. }
  set (s := lower text) in *.
  assert (P : forall r token,
             avoids path_text_char r = true ->
             no_backslash token = true ->
             sub r (spaced token) s = Ok s).
  { intros r token A T. destruct (spaced_template (groups r) token T) as [tmpl E].
    now apply sub_avoids with (allowed := path_text_char) (tmpl := tmpl). }
  assert (Q : forall word token,
             In word constant_words ->
             no_backslash token = true ->
             sub (Str word) (spaced token) s = Ok s).
  { intros word token I T. destruct (spaced_template 0 token T) as [tmpl E].
    apply sub_str_absent with (tmpl := tmpl); [exact E | now apply Cw]. }
  unfold filterStrings. rewrite P;
    [|vm_compute; reflexivity | now apply path_text_no_backslash]. cbn [bind].
  unfold filterTags. rewrite P; [|vm_compute; reflexivity | assumption]. cbn [bind].
  unfold filterRefs. rewrite P; [|vm_compute; reflexivity | assumption]. cbn [bind].
  unfold filterLinks. rewrite P; [|vm_compute; reflexivity | assumption]. cbn [bind].
  unfold filterStableReduction.
  destruct (parse_template_plain (groups re_stable_reduction)
              (" " ++ STABLE_REDUCTION cfg) "_\1_\2_ "
              [TLit "_"; TGroup 1; TLit "_"; TGroup 2; TLit "_"; TLit " "]%char)
    as [tmpl E]; [exact Vb | vm_compute; reflexivity|].
  rewrite append_assoc in E.
  rewrite (sub_avoids path_text_char re_stable_reduction _ s tmpl);
    [|vm_compute; reflexivity | exact E | exact H].
  cbn [bind].
  unfold filterURLs. rewrite P; [|vm_compute; reflexivity | assumption]. cbn [bind].
  unfold filterNumbers. rewrite P; [|vm_compute; reflexivity | assumption]. cbn [bind].
  unfold filterConstants, constant_words in *.
  do 5 (rewrite Q by (simpl; tauto || assumption); cbn [bind]).
  unfold filterParamNames. rewrite (filterParamNames_from_absent cfg s params Cp).
  unfold filterFunctionInvocation.
  rewrite P; [|vm_compute; reflexivity | assumption]. cbn [bind].
  unfold expandWordsAndSymbols.
  destruct (PUNCTUATION cfg) as [|p ps]; [discriminate|].
  rewrite (sub_avoids path_text_char _ " \1 " s
             [TLit " "; TGroup 1; TLit " "]%char);
    [|now apply avoids_symbols
     |cbn [groups]; rewrite groups_alt_chr; vm_compute; reflexivity
     |exact H].
  cbn [bind].
  unfold unpackStableReduction.
  rewrite (sub_avoids path_text_char (re_unpack cfg) " \1.\2. " s
             [TLit " "; TGroup 1; TLit "."; TGroup 2; TLit "."; TLit " "]%char);
    [| |unfold re_unpack; cbn [seq groups]; rewrite groups_Str;
        vm_compute; reflexivity
     |exact H].
  2:{ unfold re_unpack. cbn [seq avoids].
      replace (avoids path_text_char (Chr "_")) with true
        by (vm_compute; reflexivity).
      apply orb_true_r. }
  cbn [bind]. rewrite filterLongSpaces_collapse. reflexivity.
Qed.
